(** * youtube-mcp-server: identifier parsing, API translation and tool facade

    A shallow embedding of [youtube.ts] (identifier parser, API client,
    response mappers) and of the tools registered in [YouTubeMCP.init],
    together with the properties stated about them. *)

From Stdlib Require Import String Ascii DecimalString NArith ZArith QArith Bool List Lia.
Import ListNotations.

Set Implicit Arguments.
Close Scope Q_scope.

(** ** JavaScript strings

    A JavaScript string is a sequence of UTF-16 code units; [length],
    [startsWith], [trim] and the regular-expression engine (without the [u]
    flag) all work on code units. *)

Definition char := N.
Definition jsstring := list char.

(** Embedding of an ASCII literal of the source text. *)
Definition lit (s : string) : jsstring :=
  map N_of_ascii (list_ascii_of_string s).
Arguments lit s%_string.

Definition char_in (lo hi c : char) : bool := ((lo <=? c) && (c <=? hi))%N.
Arguments char_in (lo hi c)%_N.

(** [[a-zA-Z0-9_-]] *)
Definition idchar (c : char) : bool :=
  char_in 97 122 c || char_in 65 90 c || char_in 48 57 c
  || (c =? 95)%N || (c =? 45)%N.

(** [[a-zA-Z0-9_.-]] *)
Definition handlechar (c : char) : bool :=
  char_in 97 122 c || char_in 65 90 c || char_in 48 57 c
  || (c =? 95)%N || (c =? 46)%N || (c =? 45)%N.

(** ECMAScript LineTerminator: LF, CR, LS, PS. *)
Definition line_terminator (c : char) : bool :=
  ((c =? 10) || (c =? 13) || (c =? 8232) || (c =? 8233))%N.

(** [.] without the [s] flag: any code unit but a line terminator. *)
Definition dot (c : char) : bool := negb (line_terminator c).

(** ECMAScript WhiteSpace or LineTerminator, the set removed by [trim]. *)
Definition white_space (c : char) : bool :=
  ((c =? 9) || (c =? 11) || (c =? 12) || (c =? 32) || (c =? 160)
   || (c =? 5760) || char_in 8192 8202 c || (c =? 8239) || (c =? 8287)
   || (c =? 12288) || (c =? 65279))%N
  || line_terminator c.

Fixpoint drop_while (p : char -> bool) (s : jsstring) : jsstring :=
  match s with
  | [] => []
  | c :: s' => if p c then drop_while p s' else s
  end.

Definition trimStart (s : jsstring) : jsstring := drop_while white_space s.
Definition trimEnd (s : jsstring) : jsstring :=
  rev (drop_while white_space (rev s)).

(** [String.prototype.trim] *)
Definition trim (s : jsstring) : jsstring := trimEnd (trimStart s).

(** [strip l s] is the rest of [s] after the prefix [l], if [s] starts
    with [l]. *)
Fixpoint strip (l s : jsstring) : option jsstring :=
  match l with
  | [] => Some s
  | a :: l' =>
      match s with
      | [] => None
      | c :: s' => if (a =? c)%N then strip l' s' else None
      end
  end.

(** [String.prototype.startsWith] *)
Definition startsWith (s l : jsstring) : bool :=
  match strip l s with Some _ => true | None => false end.

(** ** Regular expressions

    The fragment of ECMAScript regular expressions the module uses, with
    the backtracking semantics of the language: alternatives are tried in
    priority order (a greedy quantifier tries the longest run first) and the
    first overall success wins. *)

Inductive regex : Type :=
| Chars (l : jsstring)                  (* literal characters *)
| Star (p : char -> bool)               (* greedy [c*] on a class or [.] *)
| Plus (p : char -> bool)               (* greedy [c+] *)
| Count (p : char -> bool) (n : nat)    (* [c{n}] *)
| Group (r : regex)                     (* capturing group [( )] *)
| NonCap (r : regex)                    (* [(?: )] *)
| Seq (r1 r2 : regex)
| Bos                                   (* [^] *)
| Eos.                                  (* [$] *)

Declare Scope regex_scope.
Delimit Scope regex_scope with re.
Bind Scope regex_scope with regex.
Infix "+++" := Seq (at level 60, right associativity) : regex_scope.

(** The match array of [exec]/[match]: index 0 and index 1.  No pattern of
    the module has more than one capturing group. *)
Record match_array : Type :=
  { whole : jsstring; group1 : option jsstring }.

Section Matcher.
(** Length of the subject string: [^] holds where all of it remains. *)
Variable n0 : nat.
Variable A : Type.

Fixpoint star (p : char -> bool) (s : jsstring) (k : jsstring -> option A)
  : option A :=
  match s with
  | c :: s' =>
      if p c then
        match star p s' k with
        | Some a => Some a
        | None => k s
        end
      else k s
  | [] => k []
  end.

Fixpoint count (p : char -> bool) (n : nat) (s : jsstring)
  : option jsstring :=
  match n with
  | O => Some s
  | S n' =>
      match s with
      | c :: s' => if p c then count p n' s' else None
      | [] => None
      end
  end.

(** [consumed s s'] is the text between position [s] and the later
    position [s'] (both given as the remaining input). *)
Definition consumed (s s' : jsstring) : jsstring :=
  firstn (length s - length s') s.

(** [m r s c k]: match [r] at the position whose remaining input is [s],
    with [c] the capture so far, then continue with [k]. *)
Fixpoint m (r : regex) (s : jsstring) (c : option jsstring)
  (k : jsstring -> option jsstring -> option A) : option A :=
  match r with
  | Chars l =>
      match strip l s with
      | Some s' => k s' c
      | None => None
      end
  | Star p => star p s (fun s' => k s' c)
  | Plus p =>
      match s with
      | x :: s' => if p x then star p s' (fun s'' => k s'' c) else None
      | [] => None
      end
  | Count p n =>
      match count p n s with
      | Some s' => k s' c
      | None => None
      end
  | Group r' => m r' s c (fun s' _ => k s' (Some (consumed s s')))
  | NonCap r' => m r' s c k
  | Seq r1 r2 => m r1 s c (fun s' c' => m r2 s' c' k)
  | Bos => if Nat.eqb (length s) n0 then k s c else None
  | Eos => match s with [] => k s c | _ :: _ => None end
  end.
End Matcher.

Definition match_at (n0 : nat) (r : regex) (s : jsstring)
  : option match_array :=
  m n0 r s None
    (fun s' c => Some {| whole := consumed s s'; group1 := c |}).

(** Leftmost match: start positions are tried from left to right. *)
Fixpoint search (n0 : nat) (r : regex) (s : jsstring) : option match_array :=
  match match_at n0 r s with
  | Some a => Some a
  | None =>
      match s with
      | [] => None
      | _ :: s' => search n0 r s'
      end
  end.

(** [RegExp.prototype.exec], and [String.prototype.match] with a regular
    expression without the [g] flag. *)
Definition exec (r : regex) (s : jsstring) : option match_array :=
  search (length s) r s.

(** [RegExp.prototype.test] *)
Definition test (r : regex) (s : jsstring) : bool :=
  match exec r s with Some _ => true | None => false end.

(** ** Identifier parser *)

Open Scope regex_scope.

Definition VIDEO_ID_PATTERNS : list regex :=
  [ NonCap (Chars (lit "youtube.com/watch?") +++ Star dot +++ Chars (lit "v="))
      +++ Group (Count idchar 11);
    NonCap (Chars (lit "youtu.be/")) +++ Group (Count idchar 11);
    NonCap (Chars (lit "youtube.com/embed/")) +++ Group (Count idchar 11);
    NonCap (Chars (lit "youtube.com/shorts/")) +++ Group (Count idchar 11);
    NonCap (Chars (lit "youtube.com/live/")) +++ Group (Count idchar 11);
    NonCap (Chars (lit "youtube.com/v/")) +++ Group (Count idchar 11) ].

(** [/^[a-zA-Z0-9_-]{11}$/] *)
Definition RAW_ID : regex := Bos +++ Count idchar 11 +++ Eos.

(** The [for ... of] loop of [extractVideoId]: the first pattern that
    matches decides, and [match[1]] is returned. *)
Fixpoint first_match (ps : list regex) (s : jsstring) : option jsstring :=
  match ps with
  | [] => None
  | p :: ps' =>
      match exec p s with
      | Some a => group1 a
      | None => first_match ps' s
      end
  end.

Definition extractVideoId (input : jsstring) : option jsstring :=
  let trimmed := trim input in
  if test RAW_ID trimmed then Some trimmed
  else first_match VIDEO_ID_PATTERNS trimmed.

(** The tag of a channel identifier: ["id" | "handle" | "username"]. *)
Inductive id_type : Type := TId | THandle | TUsername.

Record channel_identifier : Type :=
  { type : id_type; value : jsstring }.

(** [/youtube\.com\/channel\/([a-zA-Z0-9_-]+)/] *)
Definition CHANNEL_URL : regex :=
  Chars (lit "youtube.com/channel/") +++ Group (Plus idchar).

(** [/youtube\.com\/@([a-zA-Z0-9_.-]+)/] *)
Definition HANDLE_URL : regex :=
  Chars (lit "youtube.com/@") +++ Group (Plus handlechar).

(** [match[1]] read as a string.  The group of [CHANNEL_URL] and of
    [HANDLE_URL] is not optional, so it takes part in every match (lemma
    [channel_patterns_capture] below) and the second branch is never taken. *)
Definition capture (a : match_array) : jsstring :=
  match group1 a with
  | Some g => g
  | None => lit "undefined"
  end.

Definition extractChannelIdentifier (input : jsstring)
  : option channel_identifier :=
  let trimmed := trim input in
  match exec CHANNEL_URL trimmed with
  | Some idMatch => Some {| type := TId; value := capture idMatch |}
  | None =>
      match exec HANDLE_URL trimmed with
      | Some handleMatch =>
          Some {| type := THandle; value := lit "@" ++ capture handleMatch |}
      | None =>
          if startsWith trimmed (lit "@") then
            Some {| type := THandle; value := trimmed |}
          else if startsWith trimmed (lit "UC")
                  && Nat.eqb (length trimmed) 24 then
            Some {| type := TId; value := trimmed |}
          else Some {| type := THandle; value := trimmed |}
      end
  end.

(** ** JavaScript values

    The upstream body after [res.json()] is an arbitrary JSON value, and the
    mappers read it without any check of its shape; [VUndefined] is what
    reading a missing property gives. *)

Unset Elimination Schemes.
Inductive jsvalue : Type :=
| VUndefined
| VNull
| VBool (b : bool)
| VNum (q : Q)
| VStr (s : jsstring)
| VArr (l : list jsvalue)
| VObj (fields : list (jsstring * jsvalue)).
Set Elimination Schemes.

Fixpoint str_eqb (a b : jsstring) : bool :=
  match a, b with
  | [], [] => true
  | x :: a', y :: b' => (x =? y)%N && str_eqb a' b'
  | _, _ => false
  end.

(** Own property [key] of an object, [undefined] when there is none. *)
Fixpoint lookup (key : jsstring) (fields : list (jsstring * jsvalue)) : jsvalue :=
  match fields with
  | [] => VUndefined
  | (k, v) :: rest => if str_eqb key k then v else lookup key rest
  end.

(** What a failing operation of the language itself throws. *)
Inductive type_error : Type :=
| ReadOfNullish (base : jsvalue) (key : jsstring)  (* property read on undefined or null *)
| NotAFunction (key : jsstring).                  (* call of a property that is no function *)

Inductive exn : Type :=
| Error (message : jsstring)       (* [new Error(message)] *)
| TypeError (e : type_error)       (* an Error as well; its message is the engine's *)
| Thrown (text : jsstring).        (* a thrown value that is no Error, with its [String()] image *)

Inductive outcome (A : Type) : Type :=
| Ok (a : A)
| Throw (e : exn).
Arguments Throw {A} e.

Definition obind {A B : Type} (x : outcome A) (f : A -> outcome B) : outcome B :=
  match x with
  | Ok a => f a
  | Throw e => Throw e
  end.

Notation "'let*' x ':=' e 'in' k" := (obind e (fun x => k))
  (at level 10, x name, e at level 100, k at level 200).

Definition nullish (v : jsvalue) : bool :=
  match v with
  | VUndefined | VNull => true
  | _ => false
  end.

Definition number_of_nat (n : nat) : jsvalue := VNum (inject_Z (Z.of_nat n)).

(** [v.key] for the property names this module reads.  Of these only
    [length] is defined on a prototype (of arrays and strings). *)
Definition get (v : jsvalue) (key : jsstring) : outcome jsvalue :=
  match v with
  | VUndefined | VNull => Throw (TypeError (ReadOfNullish v key))
  | VObj fields => Ok (lookup key fields)
  | VArr l =>
      Ok (if str_eqb key (lit "length") then number_of_nat (length l)
          else VUndefined)
  | VStr s =>
      Ok (if str_eqb key (lit "length") then number_of_nat (length s)
          else VUndefined)
  | VBool _ | VNum _ => Ok VUndefined
  end.

(** [v?.key] *)
Definition get_opt (v : jsvalue) (key : jsstring) : outcome jsvalue :=
  if nullish v then Ok VUndefined else get v key.

(** [v[0]] *)
Definition index0 (v : jsvalue) : outcome jsvalue :=
  match v with
  | VUndefined | VNull => Throw (TypeError (ReadOfNullish v (lit "0")))
  | VObj fields => Ok (lookup (lit "0") fields)
  | VArr l => Ok (nth 0 l VUndefined)
  | VStr s => Ok (match s with c :: _ => VStr [c] | [] => VUndefined end)
  | VBool _ | VNum _ => Ok VUndefined
  end.

(** [v ?? d] *)
Definition coalesce (v d : jsvalue) : jsvalue := if nullish v then d else v.
Infix "??" := coalesce (at level 45, left associativity).

(** ToBoolean *)
Definition truthy (v : jsvalue) : bool :=
  match v with
  | VUndefined | VNull => false
  | VBool b => b
  | VNum q => negb (Qeq_bool q 0)
  | VStr s => match s with [] => false | _ :: _ => true end
  | VArr _ | VObj _ => true
  end.

(** [Array.prototype.map] with a callback that may throw: elements are
    visited in order and the first exception ends the loop. *)
Fixpoint map_items {A : Type} (f : jsvalue -> outcome A) (l : list jsvalue)
  : outcome (list A) :=
  match l with
  | [] => Ok []
  | x :: l' =>
      let* y := f x in
      let* ys := map_items f l' in
      Ok (y :: ys)
  end.

(** [v.map(f)]: only an array has a [map]. *)
Definition call_map {A : Type} (v : jsvalue) (f : jsvalue -> outcome A)
  : outcome (list A) :=
  match v with
  | VArr l => map_items f l
  | VUndefined | VNull => Throw (TypeError (ReadOfNullish v (lit "map")))
  | _ => Throw (TypeError (NotAFunction (lit "map")))
  end.

(** ** Network effects

    The module talks to its environment in two places: [fetch] (the upstream
    data API) and [YoutubeTranscript.fetchTranscript] (the captions
    collaborator).  An asynchronous function is a tree of these requests;
    each [await] is a bind. *)

(** Surrogate code units. *)
Definition high_surrogate (c : char) : bool := char_in 55296 56319 c.
Definition low_surrogate (c : char) : bool := char_in 56320 57343 c.

(** Conversion to a USVString, which the URL interfaces apply to the strings
    they are given: a high surrogate followed by a low one is a pair and
    stays; any other surrogate becomes U+FFFD. *)
Fixpoint usv (s : jsstring) : jsstring :=
  match s with
  | [] => []
  | c :: s' =>
      if high_surrogate c then
        match s' with
        | d :: s'' =>
            if low_surrogate d then c :: d :: usv s'' else 65533%N :: usv s'
        | [] => [65533%N]
        end
      else if low_surrogate c then 65533%N :: usv s'
      else c :: usv s'
  end.

Module Url.
(** A [URL] object: its text without the query, and its [searchParams]. *)
Record t : Type :=
  { href : jsstring; searchParams : list (jsstring * jsstring) }.

(** [new URL(s)] for a text [s] that the URL parser leaves as it is and
    that has no query: the module builds only [YOUTUBE_API_BASE], a slash
    and one of the endpoint names [videos], [search], [channels] and
    [commentThreads]. *)
Definition make (s : jsstring) : t := {| href := s; searchParams := [] |}.

Definition remove (name : jsstring) (ps : list (jsstring * jsstring))
  : list (jsstring * jsstring) :=
  filter (fun p => negb (str_eqb (fst p) name)) ps.

(** [URLSearchParams.set]: the first pair of that name takes the value
    and the others go; without one the pair is appended. *)
Fixpoint set_pairs (name v : jsstring) (ps : list (jsstring * jsstring))
  : list (jsstring * jsstring) :=
  match ps with
  | [] => [(name, v)]
  | (k, x) :: ps' =>
      if str_eqb k name then (k, v) :: remove name ps'
      else (k, x) :: set_pairs name v ps'
  end.

(** [searchParams.set(name, v)]: both arguments are converted to
    USVStrings before they are stored. *)
Definition set (name v : jsstring) (u : t) : t :=
  {| href := href u;
     searchParams := set_pairs (usv name) (usv v) (searchParams u) |}.
End Url.

Module Response.
(** What the module reads of a [fetch] response: [ok], [status] and the
    results of [text()] and [json()]. *)
Record t : Type :=
  { ok : bool; status : N; text : outcome jsstring; json : outcome jsvalue }.
End Response.

Module Transcript.
(** A caption fragment of the captions collaborator. *)
Record t : Type := { text : jsstring; duration : Q; offset : Q }.
End Transcript.

Inductive io (A : Type) : Type :=
| Done (r : outcome A)
| Fetch (u : Url.t) (k : outcome Response.t -> io A)
| FetchTranscript (videoId lang : jsstring)
    (k : outcome (list Transcript.t) -> io A).
Arguments Fetch {A} u k.
Arguments FetchTranscript {A} videoId lang k.

Definition ret {A : Type} (a : A) : io A := Done (Ok a).
Definition throw {A : Type} (e : exn) : io A := Done (Throw e).

Fixpoint bind {A B : Type} (x : io A) (f : A -> io B) : io B :=
  match x with
  | Done (Ok a) => f a
  | Done (Throw e) => Done (Throw e)
  | Fetch u k => Fetch u (fun r => bind (k r) f)
  | FetchTranscript v l k => FetchTranscript v l (fun r => bind (k r) f)
  end.

(** [try { x } catch (error) { h error }] *)
Fixpoint try_catch {A : Type} (x : io A) (h : exn -> io A) : io A :=
  match x with
  | Done (Ok a) => Done (Ok a)
  | Done (Throw e) => h e
  | Fetch u k => Fetch u (fun r => try_catch (k r) h)
  | FetchTranscript v l k =>
      FetchTranscript v l (fun r => try_catch (k r) h)
  end.

Notation "x <- e ;; k" := (bind e (fun x => k))
  (at level 61, e at next level, right associativity).

Definition fetch (u : Url.t) : io Response.t := Fetch u (fun r => Done r).
Definition fetchTranscript (videoId lang : jsstring)
  : io (list Transcript.t) :=
  FetchTranscript videoId lang (fun r => Done r).

(** The requests a computation issues, and its result, against an
    environment that answers them. *)
Record environment : Type :=
  { upstream : Url.t -> outcome Response.t;
    captions : jsstring -> jsstring -> outcome (list Transcript.t) }.

Inductive request : Type :=
| HttpGet (u : Url.t)
| Captions (videoId lang : jsstring).

Fixpoint run {A : Type} (env : environment) (x : io A)
  : list request * outcome A :=
  match x with
  | Done r => ([], r)
  | Fetch u k =>
      let (t, r) := run env (k (upstream env u)) in (HttpGet u :: t, r)
  | FetchTranscript v l k =>
      let (t, r) := run env (k (captions env v l)) in (Captions v l :: t, r)
  end.

(** ** API client *)

Definition YOUTUBE_API_BASE : jsstring := lit "https://www.googleapis.com/youtube/v3".

(** Decimal text of a status code. *)
Definition decimal (n : N) : jsstring :=
  lit (NilEmpty.string_of_uint (N.to_uint n)).

(** A [Record<string, string>] is the list of its properties in the order
    of their creation.  A property name is an array index when it is the
    decimal text, without a leading zero, of an integer below [2^32 - 1]. *)
Definition digit (c : char) : bool := char_in 48 57 c.

Fixpoint decimal_value (acc : N) (s : jsstring) : N :=
  match s with
  | [] => acc
  | c :: s' => decimal_value (10 * acc + (c - 48))%N s'
  end.

Definition array_index (name : jsstring) : option N :=
  match name with
  | [] => None
  | c :: rest =>
      if forallb digit name
         && (negb (c =? 48)%N || (length rest =? 0)%nat)
         && (decimal_value 0 name <? 4294967295)%N
      then Some (decimal_value 0 name)
      else None
  end.

Fixpoint insert_index (n : N) (kv : jsstring * jsstring)
  (l : list (N * (jsstring * jsstring))) : list (N * (jsstring * jsstring)) :=
  match l with
  | [] => [(n, kv)]
  | (i, x) :: l' =>
      if (n <? i)%N then (n, kv) :: l else (i, x) :: insert_index n kv l'
  end.

Fixpoint indexed (params : list (jsstring * jsstring))
  : list (N * (jsstring * jsstring)) :=
  match params with
  | [] => []
  | kv :: rest =>
      match array_index (fst kv) with
      | Some n => insert_index n kv (indexed rest)
      | None => indexed rest
      end
  end.

Definition named (kv : jsstring * jsstring) : bool :=
  match array_index (fst kv) with Some _ => false | None => true end.

(** [Object.entries(params)]: the properties named by an array index come
    first, by ascending index, then the others in the order of their
    creation. *)
Definition entries (params : list (jsstring * jsstring))
  : list (jsstring * jsstring) :=
  map snd (indexed params) ++ filter named params.

Definition youtubeApiFetch (endpoint : jsstring)
  (params : list (jsstring * jsstring)) (apiKey : jsstring) : io jsvalue :=
  let url := Url.make (YOUTUBE_API_BASE ++ lit "/" ++ endpoint) in
  let url := Url.set (lit "key") apiKey url in
  let url :=
    fold_left (fun u kv => Url.set (fst kv) (snd kv) u) (entries params) url in
  res <- fetch url ;;
  if negb (Response.ok res) then
    body <- Done (Response.text res) ;;
    throw (Error (lit "YouTube API error (" ++ decimal (Response.status res)
                  ++ lit "): " ++ body))
  else Done (Response.json res).

(** ** Response mappers *)

(** [v.a.b] *)
Definition get2 (v : jsvalue) (a b : jsstring) : outcome jsvalue :=
  let* x := get v a in get x b.

(** [item.snippet.thumbnails?.high?.url] *)
Definition thumbnail_high_url (item : jsvalue) : outcome jsvalue :=
  let* thumbnails := get2 item (lit "snippet") (lit "thumbnails") in
  let* high := get_opt thumbnails (lit "high") in
  get_opt high (lit "url").

(** [params.name = v] on an object literal: a present key keeps its place. *)
Fixpoint assign (name v : jsstring) (params : list (jsstring * jsstring))
  : list (jsstring * jsstring) :=
  match params with
  | [] => [(name, v)]
  | (k, x) :: rest =>
      if str_eqb k name then (k, v) :: rest else (k, x) :: assign name v rest
  end.

Module VideoDetails.
Record t : Type :=
  { title : jsvalue; description : jsvalue; channelTitle : jsvalue;
    channelId : jsvalue; publishedAt : jsvalue; viewCount : jsvalue;
    likeCount : jsvalue; commentCount : jsvalue; duration : jsvalue;
    tags : jsvalue; thumbnailUrl : jsvalue; categoryId : jsvalue }.
End VideoDetails.

(** The part of [getVideoDetails] after the [await]. *)
Definition videoDetailsOf (data : jsvalue) : outcome VideoDetails.t :=
  let* items := get data (lit "items") in
  let* len := get_opt items (lit "length") in
  if negb (truthy len) then Throw (Error (lit "Video not found or is private."))
  else
    let* item := index0 items in
    let* title := get2 item (lit "snippet") (lit "title") in
    let* description := get2 item (lit "snippet") (lit "description") in
    let* channelTitle := get2 item (lit "snippet") (lit "channelTitle") in
    let* channelId := get2 item (lit "snippet") (lit "channelId") in
    let* publishedAt := get2 item (lit "snippet") (lit "publishedAt") in
    let* viewCount := get2 item (lit "statistics") (lit "viewCount") in
    let* likeCount := get2 item (lit "statistics") (lit "likeCount") in
    let* commentCount := get2 item (lit "statistics") (lit "commentCount") in
    let* duration := get2 item (lit "contentDetails") (lit "duration") in
    let* tags := get2 item (lit "snippet") (lit "tags") in
    let* thumbnailUrl := thumbnail_high_url item in
    let* categoryId := get2 item (lit "snippet") (lit "categoryId") in
    Ok {| VideoDetails.title := title;
          VideoDetails.description := description;
          VideoDetails.channelTitle := channelTitle;
          VideoDetails.channelId := channelId;
          VideoDetails.publishedAt := publishedAt;
          VideoDetails.viewCount := viewCount ?? VStr (lit "N/A");
          VideoDetails.likeCount := likeCount ?? VStr (lit "N/A");
          VideoDetails.commentCount := commentCount ?? VStr (lit "N/A");
          VideoDetails.duration := duration;
          VideoDetails.tags := tags ?? VArr [];
          VideoDetails.thumbnailUrl := thumbnailUrl ?? VStr (lit "");
          VideoDetails.categoryId := categoryId |}.

Definition getVideoDetails (videoId apiKey : jsstring) : io VideoDetails.t :=
  data <- youtubeApiFetch (lit "videos")
            [(lit "part", lit "snippet,statistics,contentDetails");
             (lit "id", videoId)] apiKey ;;
  Done (videoDetailsOf data).

Module SearchResult.
Record t : Type :=
  { videoId : jsvalue; title : jsvalue; description : jsvalue;
    channelTitle : jsvalue; publishedAt : jsvalue; thumbnailUrl : jsvalue }.
End SearchResult.

(** The callback of [map] in [searchVideos]. *)
Definition searchResultOf (item : jsvalue) : outcome SearchResult.t :=
  let* videoId := get2 item (lit "id") (lit "videoId") in
  let* title := get2 item (lit "snippet") (lit "title") in
  let* description := get2 item (lit "snippet") (lit "description") in
  let* channelTitle := get2 item (lit "snippet") (lit "channelTitle") in
  let* publishedAt := get2 item (lit "snippet") (lit "publishedAt") in
  let* thumbnailUrl := thumbnail_high_url item in
  Ok {| SearchResult.videoId := videoId;
        SearchResult.title := title;
        SearchResult.description := description;
        SearchResult.channelTitle := channelTitle;
        SearchResult.publishedAt := publishedAt;
        SearchResult.thumbnailUrl := thumbnailUrl ?? VStr (lit "") |}.

(** The part of [searchVideos] after the [await]. *)
Definition searchResultsOf (data : jsvalue) : outcome (list SearchResult.t) :=
  let* items := get data (lit "items") in
  call_map (items ?? VArr []) searchResultOf.

Module ChannelInfo.
Record t : Type :=
  { id : jsvalue; title : jsvalue; description : jsvalue;
    customUrl : jsvalue; publishedAt : jsvalue; subscriberCount : jsvalue;
    videoCount : jsvalue; viewCount : jsvalue; thumbnailUrl : jsvalue;
    country : jsvalue }.
End ChannelInfo.

(** The part of [getChannelInfo] after the [await]. *)
Definition channelInfoOf (data : jsvalue) : outcome ChannelInfo.t :=
  let* items := get data (lit "items") in
  let* len := get_opt items (lit "length") in
  if negb (truthy len) then Throw (Error (lit "Channel not found."))
  else
    let* item := index0 items in
    let* id := get item (lit "id") in
    let* title := get2 item (lit "snippet") (lit "title") in
    let* description := get2 item (lit "snippet") (lit "description") in
    let* customUrl := get2 item (lit "snippet") (lit "customUrl") in
    let* publishedAt := get2 item (lit "snippet") (lit "publishedAt") in
    let* subscriberCount := get2 item (lit "statistics") (lit "subscriberCount") in
    let* videoCount := get2 item (lit "statistics") (lit "videoCount") in
    let* viewCount := get2 item (lit "statistics") (lit "viewCount") in
    let* thumbnailUrl := thumbnail_high_url item in
    let* country := get2 item (lit "snippet") (lit "country") in
    Ok {| ChannelInfo.id := id;
          ChannelInfo.title := title;
          ChannelInfo.description := description;
          ChannelInfo.customUrl := customUrl ?? VStr (lit "");
          ChannelInfo.publishedAt := publishedAt;
          ChannelInfo.subscriberCount := subscriberCount ?? VStr (lit "hidden");
          ChannelInfo.videoCount := videoCount ?? VStr (lit "0");
          ChannelInfo.viewCount := viewCount ?? VStr (lit "0");
          ChannelInfo.thumbnailUrl := thumbnailUrl ?? VStr (lit "");
          ChannelInfo.country := country ?? VStr (lit "N/A") |}.

(** The parameters [getChannelInfo] builds from the identifier. *)
Definition channelParams (identifier : channel_identifier)
  : list (jsstring * jsstring) :=
  let params := [(lit "part", lit "snippet,statistics")] in
  match type identifier with
  | TId => assign (lit "id") (value identifier) params
  | THandle => assign (lit "forHandle") (value identifier) params
  | TUsername => assign (lit "forUsername") (value identifier) params
  end.

Definition getChannelInfo (identifier : channel_identifier) (apiKey : jsstring)
  : io ChannelInfo.t :=
  data <- youtubeApiFetch (lit "channels") (channelParams identifier) apiKey ;;
  Done (channelInfoOf data).

Module Comment.
Record t : Type :=
  { author : jsvalue; text : jsvalue; likeCount : jsvalue;
    publishedAt : jsvalue; replyCount : jsvalue }.
End Comment.

(** The callback of [map] in [getVideoComments]. *)
Definition commentOf (item : jsvalue) : outcome Comment.t :=
  let* topLevelComment := get2 item (lit "snippet") (lit "topLevelComment") in
  let* top := get topLevelComment (lit "snippet") in
  let* author := get top (lit "authorDisplayName") in
  let* text := get top (lit "textDisplay") in
  let* likeCount := get top (lit "likeCount") in
  let* publishedAt := get top (lit "publishedAt") in
  let* replyCount := get2 item (lit "snippet") (lit "totalReplyCount") in
  Ok {| Comment.author := author;
        Comment.text := text;
        Comment.likeCount := likeCount;
        Comment.publishedAt := publishedAt;
        Comment.replyCount := replyCount |}.

(** The part of [getVideoComments] after the [await]. *)
Definition commentsOf (data : jsvalue) : outcome (list Comment.t) :=
  let* items := get data (lit "items") in
  call_map (items ?? VArr []) commentOf.

Section Api.
(** [String(n)] of a number [n]. *)
Variable String_of_number : Q -> jsstring.

(** A parameter with a default: [None] is an omitted argument. *)
Definition or_default {A : Type} (a : option A) (d : A) : A :=
  match a with
  | Some x => x
  | None => d
  end.

Definition searchVideos (query apiKey : jsstring) (maxResults : option Q)
  : io (list SearchResult.t) :=
  let maxResults := or_default maxResults 5%Q in
  data <- youtubeApiFetch (lit "search")
            [(lit "part", lit "snippet");
             (lit "q", query);
             (lit "type", lit "video");
             (lit "maxResults", String_of_number maxResults)] apiKey ;;
  Done (searchResultsOf data).

Definition getVideoComments (videoId apiKey : jsstring)
  (maxResults : option Q) : io (list Comment.t) :=
  let maxResults := or_default maxResults 20%Q in
  data <- youtubeApiFetch (lit "commentThreads")
            [(lit "part", lit "snippet");
             (lit "videoId", videoId);
             (lit "maxResults", String_of_number maxResults);
             (lit "order", lit "relevance");
             (lit "textFormat", lit "plainText")] apiKey ;;
  Done (commentsOf data).
End Api.

(** ** Tool facade

    [server.tool(name, description, shape, handler)] registers a tool: on a
    call the server parses the arguments against [z.object(shape)] and runs
    the handler, on the parsed arguments, only when they are valid. *)

Definition schema (A : Type) : Type := jsvalue -> option A.

(** [z.string()] *)
Definition z_string : schema jsstring :=
  fun v => match v with VStr s => Some s | _ => None end.

(** [z.number()] *)
Definition z_number : schema Q :=
  fun v => match v with VNum q => Some q | _ => None end.

(** [.min(lo)]: at least [lo]. *)
Definition z_min (lo : Q) (s : schema Q) : schema Q :=
  fun v =>
    match s v with
    | Some q => if Qle_bool lo q then Some q else None
    | None => None
    end.

(** [.max(hi)]: at most [hi]. *)
Definition z_max (hi : Q) (s : schema Q) : schema Q :=
  fun v =>
    match s v with
    | Some q => if Qle_bool q hi then Some q else None
    | None => None
    end.

(** [.optional()]: [undefined], or what the schema accepts. *)
Definition z_optional {A : Type} (s : schema A) : schema (option A) :=
  fun v =>
    match v with
    | VUndefined => Some None
    | _ => option_map Some (s v)
    end.

(** The field [name] of the arguments object, parsed by [s]. *)
Definition field {A : Type} (name : jsstring) (s : schema A)
  (args : list (jsstring * jsvalue)) : option A :=
  s (lookup name args).

Record tool_result : Type :=
  { content : jsstring;   (* the text of the one content item *)
    isError : bool }.

Inductive call_result : Type :=
| InvalidParams                 (* the arguments did not parse *)
| Result (r : tool_result).

Definition tool {A : Type} (inputSchema : schema A)
  (handler : A -> io tool_result) (args : jsvalue) : io call_result :=
  match inputSchema args with
  | None => ret InvalidParams
  | Some a => r <- handler a ;; ret (Result r)
  end.

(** [Array.prototype.join] on strings. *)
Fixpoint join (sep : jsstring) (l : list jsstring) : jsstring :=
  match l with
  | [] => []
  | [x] => x
  | x :: l' => x ++ sep ++ join sep l'
  end.

Module GetTranscript.
Record args : Type := { url : jsstring; language : option jsstring }.
Definition inputSchema : schema args :=
  fun v =>
    match v with
    | VObj fs =>
        match field (lit "url") z_string fs,
              field (lit "language") (z_optional z_string) fs with
        | Some u, Some l => Some {| url := u; language := l |}
        | _, _ => None
        end
    | _ => None
    end.
End GetTranscript.

Module GetVideoDetails.
Record args : Type := { url : jsstring }.
Definition inputSchema : schema args :=
  fun v =>
    match v with
    | VObj fs =>
        match field (lit "url") z_string fs with
        | Some u => Some {| url := u |}
        | None => None
        end
    | _ => None
    end.
End GetVideoDetails.

Module SearchVideos.
Record args : Type := { query : jsstring; maxResults : option Q }.
Definition inputSchema : schema args :=
  fun v =>
    match v with
    | VObj fs =>
        match field (lit "query") z_string fs,
              field (lit "maxResults")
                (z_optional (z_max 25 (z_min 1 z_number))) fs with
        | Some q, Some n => Some {| query := q; maxResults := n |}
        | _, _ => None
        end
    | _ => None
    end.
End SearchVideos.

Module GetChannelDetails.
Record args : Type := { channel : jsstring }.
Definition inputSchema : schema args :=
  fun v =>
    match v with
    | VObj fs =>
        match field (lit "channel") z_string fs with
        | Some c => Some {| channel := c |}
        | None => None
        end
    | _ => None
    end.
End GetChannelDetails.

Module GetVideoComments.
Record args : Type := { url : jsstring; maxResults : option Q }.
Definition inputSchema : schema args :=
  fun v =>
    match v with
    | VObj fs =>
        match field (lit "url") z_string fs,
              field (lit "maxResults")
                (z_optional (z_max 100 (z_min 1 z_number))) fs with
        | Some u, Some n => Some {| url := u; maxResults := n |}
        | _, _ => None
        end
    | _ => None
    end.
End GetVideoComments.

Section Tools.
(** [env.YOUTUBE_API_KEY] *)
Variable YOUTUBE_API_KEY : jsstring.
(** [String(n)] of a number [n]. *)
Variable String_of_number : Q -> jsstring.
(** The [message] the engine gives a TypeError. *)
Variable type_error_message : type_error -> jsstring.
(** [JSON.stringify(x, null, 2)] on the four result shapes. *)
Variable stringify_details : VideoDetails.t -> jsstring.
Variable stringify_results : list SearchResult.t -> jsstring.
Variable stringify_info : ChannelInfo.t -> jsstring.
Variable stringify_comments : list Comment.t -> jsstring.

(** [error instanceof Error ? error.message : String(error)] *)
Definition message_of (error : exn) : jsstring :=
  match error with
  | Error message => message
  | TypeError e => type_error_message e
  | Thrown text => text
  end.

Definition success (text : jsstring) : io tool_result :=
  ret {| content := text; isError := false |}.
Definition failure (text : jsstring) : io tool_result :=
  ret {| content := text; isError := true |}.

Definition NO_VIDEO_ID : jsstring :=
  lit "Error: Could not extract a valid video ID from the provided URL.".

(** [s || d] on strings. *)
Definition or_else (s d : jsstring) : jsstring :=
  match s with
  | [] => d
  | _ :: _ => s
  end.

Definition get_transcript_handler (a : GetTranscript.args)
  : io tool_result :=
  match extractVideoId (GetTranscript.url a) with
  | None | Some [] => failure NO_VIDEO_ID
  | Some videoId =>
      try_catch
        (let lang := or_default (GetTranscript.language a) (lit "en") in
         items <- fetchTranscript videoId lang ;;
         let transcript := join (lit " ") (map Transcript.text items) in
         success (or_else transcript (lit "No transcript content found.")))
        (fun error =>
           let msg := message_of error in
           failure (lit "Error fetching transcript: " ++ msg))
  end.

Definition get_video_details_handler (a : GetVideoDetails.args)
  : io tool_result :=
  match extractVideoId (GetVideoDetails.url a) with
  | None | Some [] => failure NO_VIDEO_ID
  | Some videoId =>
      try_catch
        (details <- getVideoDetails videoId YOUTUBE_API_KEY ;;
         success (stringify_details details))
        (fun error =>
           let msg := message_of error in
           failure (lit "Error fetching video details: " ++ msg))
  end.

Definition search_videos_handler (a : SearchVideos.args) : io tool_result :=
  try_catch
    (results <- searchVideos String_of_number (SearchVideos.query a)
                  YOUTUBE_API_KEY
                  (Some (or_default (SearchVideos.maxResults a) 5%Q)) ;;
     success (stringify_results results))
    (fun error =>
       let msg := message_of error in
       failure (lit "Error searching videos: " ++ msg)).

Definition get_channel_details_handler (a : GetChannelDetails.args)
  : io tool_result :=
  match extractChannelIdentifier (GetChannelDetails.channel a) with
  | None => failure (lit "Error: Could not parse channel identifier.")
  | Some identifier =>
      try_catch
        (info <- getChannelInfo identifier YOUTUBE_API_KEY ;;
         success (stringify_info info))
        (fun error =>
           let msg := message_of error in
           failure (lit "Error fetching channel info: " ++ msg))
  end.

Definition get_video_comments_handler (a : GetVideoComments.args)
  : io tool_result :=
  match extractVideoId (GetVideoComments.url a) with
  | None | Some [] => failure NO_VIDEO_ID
  | Some videoId =>
      try_catch
        (comments <- getVideoComments String_of_number videoId
                       YOUTUBE_API_KEY
                       (Some (or_default (GetVideoComments.maxResults a) 20%Q)) ;;
         success (stringify_comments comments))
        (fun error =>
           let msg := message_of error in
           failure (lit "Error fetching comments: " ++ msg))
  end.

Definition get_transcript : jsvalue -> io call_result :=
  tool GetTranscript.inputSchema get_transcript_handler.
Definition get_video_details : jsvalue -> io call_result :=
  tool GetVideoDetails.inputSchema get_video_details_handler.
Definition search_videos : jsvalue -> io call_result :=
  tool SearchVideos.inputSchema search_videos_handler.
Definition get_channel_details : jsvalue -> io call_result :=
  tool GetChannelDetails.inputSchema get_channel_details_handler.
Definition get_video_comments : jsvalue -> io call_result :=
  tool GetVideoComments.inputSchema get_video_comments_handler.
End Tools.

(** ** Worker entry point

    The default export's [fetch]: CORS preflight, the health check, the two
    paths handed to the MCP transport, and a 404 for the rest.  The request
    is read through its [method] and the [pathname] of its parsed URL. *)

Inductive reply_body : Type :=
| NoBody                       (* [null] *)
| TextBody (text : jsstring)
| JsonBody (v : jsvalue).      (* [JSON.stringify(v)] *)

Inductive worker_response : Type :=
| Reply (status : N) (headers : list (jsstring * jsstring)) (body : reply_body)
| Serve (mount : jsstring).    (* [YouTubeMCP.serve(mount).fetch(request, env, ctx)] *)

Definition HEALTH : jsvalue :=
  VObj [(lit "status", VStr (lit "ok"));
        (lit "name", VStr (lit "youtube-mcp-server"));
        (lit "version", VStr (lit "1.0.0"));
        (lit "endpoints",
          VObj [(lit "sse", VStr (lit "/sse"));
                (lit "messages", VStr (lit "/sse"))]);
        (lit "tools",
          VArr [VStr (lit "get_transcript");
                VStr (lit "get_video_details");
                VStr (lit "search_videos");
                VStr (lit "get_channel_details");
                VStr (lit "get_video_comments")])].

Definition worker_fetch (method pathname : jsstring) : worker_response :=
  if str_eqb method (lit "OPTIONS") then
    Reply 204
      [(lit "Access-Control-Allow-Origin", lit "*");
       (lit "Access-Control-Allow-Methods", lit "GET, POST, OPTIONS");
       (lit "Access-Control-Allow-Headers", lit "Content-Type, Accept, Authorization");
       (lit "Access-Control-Max-Age", lit "86400")]
      NoBody
  else if str_eqb pathname (lit "/") then
    Reply 200
      [(lit "Content-Type", lit "application/json");
       (lit "Access-Control-Allow-Origin", lit "*")]
      (JsonBody HEALTH)
  else if str_eqb pathname (lit "/sse") || str_eqb pathname (lit "/messages") then
    Serve (lit "/sse")
  else Reply 404 [] (TextBody (lit "Not Found")).

(** * Properties *)

Unset Implicit Arguments.

(** ** Vocabulary of the properties *)

(** An 11-character string over [[A-Za-z0-9_-]]. *)
Definition is_video_id (s : jsstring) : bool :=
  Nat.eqb (length s) 11 && forallb idchar s.

(** Every URL pattern ends in the capturing group of eleven ID characters. *)
Definition ends_in_id_group (p : regex) : Prop :=
  exists r, p = r +++ Group (Count idchar 11).

(** [String.prototype.includes] *)
Fixpoint includes (s needle : jsstring) : bool :=
  startsWith s needle
  || match s with
     | [] => false
     | _ :: s' => includes s' needle
     end.

(** The six URL shapes, each with the text that announces the ID. *)
Inductive url_shape : Type := Watch | YoutuBe | Embed | Shorts | Live | V.

Definition marker (k : url_shape) : jsstring :=
  match k with
  | Watch => lit "youtube.com/watch?v="
  | YoutuBe => lit "youtu.be/"
  | Embed => lit "youtube.com/embed/"
  | Shorts => lit "youtube.com/shorts/"
  | Live => lit "youtube.com/live/"
  | V => lit "youtube.com/v/"
  end.

(** The literal with which the pattern of a shape starts: the marker of
    the shape, without its [v=] for the watch shape. *)
Definition literal (k : url_shape) : jsstring :=
  match k with
  | Watch => lit "youtube.com/watch?"
  | _ => marker k
  end.

(** The place of a shape's pattern in [VIDEO_ID_PATTERNS], and the patterns
    listed before it. *)
Definition position (k : url_shape) : nat :=
  match k with
  | Watch => 0
  | YoutuBe => 1
  | Embed => 2
  | Shorts => 3
  | Live => 4
  | V => 5
  end.

Definition earlier_patterns (k : url_shape) : list regex :=
  firstn (position k) VIDEO_ID_PATTERNS.

(** [v=] and eleven ID characters. *)
Definition V_PARAMETER : regex := Chars (lit "v=") +++ Count idchar 11.

(** The longest prefix of characters of a class. *)
Fixpoint take_while (p : char -> bool) (s : jsstring) : jsstring :=
  match s with
  | [] => []
  | c :: s' => if p c then c :: take_while p s' else []
  end.

(** In the URL [pre ++ marker k ++ ...] the literal of the shape does not
    occur before the marker. *)
Definition first_occurrence (k : url_shape) (pre : jsstring) : bool :=
  negb (includes (pre ++ removelast (literal k)) (literal k)).

(** No pattern listed before the shape's own matches the URL. *)
Definition earlier_patterns_fail (k : url_shape) (url : jsstring) : bool :=
  forallb (fun p => negb (test p url)) (earlier_patterns k).

(** In a watch URL no [v=] with eleven ID characters follows on the line,
    from the ID on: the greedy [.*] of the pattern would run to the last
    one. *)
Definition last_v_parameter (k : url_shape) (rest : jsstring) : bool :=
  match k with
  | Watch => negb (test V_PARAMETER (take_while dot rest))
  | _ => true
  end.

(** Every URL pattern starts with the literal [youtu]. *)
Definition starts_with_youtu (p : regex) : Prop :=
  forall n0 s, strip (lit "youtu") s = None -> match_at n0 p s = None.

(** The input reaches the last [return] of [extractChannelIdentifier]:
    trimmed, it matches neither the channel-URL nor the handle-URL
    pattern, does not start with [@], and is not 24 characters starting
    with [UC]. *)
Definition falls_through (input : jsstring) : bool :=
  let trimmed := trim input in
  negb (test CHANNEL_URL trimmed)
  && negb (test HANDLE_URL trimmed)
  && negb (startsWith trimmed (lit "@"))
  && negb (startsWith trimmed (lit "UC") && Nat.eqb (length trimmed) 24).

(** The requests a computation issues in an environment, in order. *)
Definition requests {A : Type} (env : environment) (x : io A) : list request :=
  fst (run env x).

(** What it returns or throws there. *)
Definition result {A : Type} (env : environment) (x : io A) : outcome A :=
  snd (run env x).

(** The URL [youtubeApiFetch] requests. *)
Definition request_url (endpoint : jsstring)
  (params : list (jsstring * jsstring)) (apiKey : jsstring) : Url.t :=
  fold_left (fun u kv => Url.set (fst kv) (snd kv) u) (entries params)
    (Url.set (lit "key") apiKey
       (Url.make (YOUTUBE_API_BASE ++ lit "/" ++ endpoint))).

(** A string without a lone surrogate: every high surrogate is followed by
    a low one, and every low surrogate follows a high one. *)
Fixpoint well_formed (s : jsstring) : bool :=
  match s with
  | [] => true
  | c :: s' =>
      if high_surrogate c then
        match s' with
        | d :: s'' => low_surrogate d && well_formed s''
        | [] => false
        end
      else negb (low_surrogate c) && well_formed s'
  end.

(** A handle that is one high surrogate, as [extractChannelIdentifier]
    returns it for that input. *)
Definition lone_surrogate_handle : channel_identifier :=
  {| type := THandle; value := [55357%N] |}.

(** A pair as [searchParams.set] stores it. *)
Definition as_stored (kv : jsstring * jsstring) : jsstring * jsstring :=
  (usv (fst kv), usv (snd kv)).

(** An endpoint name made of letters, as the four the module uses. *)
Definition letter (c : char) : bool := char_in 97 122 c || char_in 65 90 c.

Definition endpoint_name (s : jsstring) : bool := forallb letter s.

(** Two properties whose names are lone surrogates, a high and a low one. *)
Definition surrogate_params : list (jsstring * jsstring) :=
  [([55357%N], lit "first"); ([56832%N], lit "second")].


(** The body [{"items": []}]. *)
Definition no_items : jsvalue := VObj [(lit "items", VArr [])].

(** An upstream that answers every request with [200] and that body. *)
Definition empty_upstream : environment :=
  {| upstream := fun _ =>
       Ok {| Response.ok := true; Response.status := 200;
             Response.text := Ok (lit "{ items: [] }");
             Response.json := Ok no_items |};
     captions := fun _ _ => Ok [] |}.

(** An upstream item: an object whose [snippet], [statistics] and
    [contentDetails], where the mapper reads them, are objects. *)
Definition part (item : jsvalue) (name : jsstring)
  (fields : list (jsstring * jsvalue)) : Prop :=
  get item name = Ok (VObj fields).

(** What the read [v.name] gives; it throws on undefined and null, and
    there [read] is undefined. *)
Definition read (v : jsvalue) (name : jsstring) : jsvalue :=
  match get v name with
  | Ok w => w
  | Throw _ => VUndefined
  end.

(** The item has the part [name]: [item.name] is neither undefined nor
    null. *)
Definition has (item : jsvalue) (name : jsstring) : Prop :=
  nullish (read item name) = false.

(** The field [name] is absent from the part [v]: missing or null. *)
Definition lacks (v : jsvalue) (name : jsstring) : Prop :=
  nullish (read v name) = true.

(** No [thumbnails.high.url] in the snippet: the chain breaks at
    [thumbnails], at [high] or at [url]. *)
Definition lacks_thumbnail (snippet : jsvalue) : Prop :=
  lacks snippet (lit "thumbnails")
  \/ lacks (read snippet (lit "thumbnails")) (lit "high")
  \/ lacks (read (read snippet (lit "thumbnails")) (lit "high")) (lit "url").

(** An item without [likeCount], [tags] and thumbnails. *)
Definition bare_video_item : jsvalue :=
  VObj [(lit "snippet", VObj [(lit "title", VStr (lit "Never Gonna Give You Up"))]);
        (lit "statistics", VObj [(lit "viewCount", VStr (lit "1500000000"))]);
        (lit "contentDetails", VObj [(lit "duration", VStr (lit "PT3M33S"))])].

(** A computation that is done without a request. *)
Definition pure_io {A : Type} (x : io A) : Prop := exists r, x = Done r.



(** [g] occurs in [s]. *)
Definition infix_of (g s : jsstring) : Prop := exists a b, s = a ++ g ++ b.

(** [URLSearchParams.get]: the value of the first pair of that name. *)
Fixpoint param (name : jsstring) (ps : list (jsstring * jsstring))
  : option jsstring :=
  match ps with
  | [] => None
  | (k, v) :: ps' => if str_eqb k name then Some v else param name ps'
  end.

(** An upstream that answers every request with the given response. *)
Definition answering (res : Response.t) : environment :=
  {| upstream := fun _ => Ok res; captions := fun _ _ => Ok [] |}.

(** A video and a channel without [statistics], and so without view
    count. *)
Definition video_without_statistics : jsvalue :=
  VObj [(lit "snippet", VObj [(lit "title", VStr (lit "Never Gonna Give You Up"))]);
        (lit "contentDetails", VObj [(lit "duration", VStr (lit "PT3M33S"))])].

Definition channel_without_statistics : jsvalue :=
  VObj [(lit "id", VStr (lit "UCBJycsmduvYEL83R_U4JriQ"));
        (lit "snippet", VObj [(lit "title", VStr (lit "MKBHD"))])].

(** A search item as the mapper expects it, and one without [snippet]. *)
Definition whole_search_item : jsvalue :=
  VObj [(lit "id", VObj [(lit "videoId", VStr (lit "dQw4w9WgXcQ"))]);
        (lit "snippet", VObj [(lit "title", VStr (lit "one"))])].

Definition broken_search_item : jsvalue :=
  VObj [(lit "id", VObj [(lit "videoId", VStr (lit "9bZkp7q19f0"))])].

(** A thumbnail of high resolution. *)
Definition high_thumbnail : list (jsstring * jsvalue) :=
  [(lit "url", VStr (lit "https://i.ytimg.com/hq.jpg"));
   (lit "width", VNum 480)].

(** A video item with an empty tag list, a view count of zero and a
    thumbnail. *)
Definition video_snippet : list (jsstring * jsvalue) :=
  [(lit "tags", VArr []);
   (lit "thumbnails", VObj [(lit "high", VObj high_thumbnail)])].

Definition video_fields : list (jsstring * jsvalue) :=
  [(lit "snippet", VObj video_snippet);
   (lit "statistics", VObj [(lit "viewCount", VStr (lit "0"))]);
   (lit "contentDetails", VObj [])].

(** A channel item with a subscriber count that is hidden. *)
Definition channel_snippet : list (jsstring * jsvalue) :=
  [(lit "title", VStr (lit "MKBHD")); (lit "country", VStr (lit "US"));
   (lit "thumbnails", VObj [(lit "high", VObj high_thumbnail)])].

Definition channel_statistics : list (jsstring * jsvalue) :=
  [(lit "videoCount", VStr (lit "0"))].

Definition channel_fields : list (jsstring * jsvalue) :=
  [(lit "id", VStr (lit "UCBJycsmduvYEL83R_U4JriQ"));
   (lit "snippet", VObj channel_snippet);
   (lit "statistics", VObj channel_statistics)].

(** A comment thread whose top-level comment has no like count. *)
Definition comment_top : list (jsstring * jsvalue) :=
  [(lit "authorDisplayName", VStr (lit "rick"));
   (lit "textDisplay", VStr (lit "never"))].

Definition comment_snippet : list (jsstring * jsvalue) :=
  [(lit "topLevelComment",
    VObj [(lit "id", VStr (lit "Ugx")); (lit "snippet", VObj comment_top)]);
   (lit "totalReplyCount", VNum 0)].

(** ** Examples *)

Example extractVideoId_raw :
  extractVideoId (lit "dQw4w9WgXcQ") = Some (lit "dQw4w9WgXcQ").
Proof. vm_compute. reflexivity. Qed.

Example extractVideoId_watch :
  extractVideoId (lit "  https://www.youtube.com/watch?list=PL1&v=dQw4w9WgXcQ&t=42s ")
  = Some (lit "dQw4w9WgXcQ").
Proof. vm_compute. reflexivity. Qed.

Example extractVideoId_not_youtube :
  extractVideoId (lit "https://example.com/not-youtube") = None.
Proof. vm_compute. reflexivity. Qed.

(** The [.*] of the watch pattern is greedy: of two [v=] the last one is
    captured. *)
Example extractVideoId_last_v :
  extractVideoId (lit "https://www.youtube.com/watch?v=AAAAAAAAAAA&v=BBBBBBBBBBB")
  = Some (lit "BBBBBBBBBBB").
Proof. vm_compute. reflexivity. Qed.

(** The patterns are tried in the order of the list, whatever comes first
    in the text. *)
Example extractVideoId_pattern_order :
  extractVideoId
    (lit "https://youtu.be/AAAAAAAAAAA?u=youtube.com/embed/BBBBBBBBBBB")
  = Some (lit "AAAAAAAAAAA") /\
  extractVideoId
    (lit "https://www.youtube.com/embed/BBBBBBBBBBB?u=youtu.be/AAAAAAAAAAA")
  = Some (lit "AAAAAAAAAAA").
Proof. split; vm_compute; reflexivity. Qed.

Example extractChannelIdentifier_handle :
  extractChannelIdentifier (lit "@mkbhd")
  = Some {| type := THandle; value := lit "@mkbhd" |}.
Proof. vm_compute. reflexivity. Qed.

Example extractChannelIdentifier_id :
  extractChannelIdentifier (lit "UCBJycsmduvYEL83R_U4JriQ")
  = Some {| type := TId; value := lit "UCBJycsmduvYEL83R_U4JriQ" |}.
Proof. vm_compute. reflexivity. Qed.

Example extractChannelIdentifier_urls :
  extractChannelIdentifier
    (lit "https://www.youtube.com/channel/UCBJycsmduvYEL83R_U4JriQ/videos")
  = Some {| type := TId; value := lit "UCBJycsmduvYEL83R_U4JriQ" |} /\
  extractChannelIdentifier (lit "https://www.youtube.com/@mkbhd/about")
  = Some {| type := THandle; value := lit "@mkbhd" |}.
Proof. split; vm_compute; reflexivity. Qed.

(** ** Facts about the matcher *)

Lemma strip_app (l s : jsstring) : strip l (l ++ s) = Some s.
Proof.
  induction l as [|a l IH]; simpl; [reflexivity|].
  now rewrite N.eqb_refl.
Qed.

Lemma strip_inv (l s s' : jsstring) : strip l s = Some s' -> s = l ++ s'.
Proof.
  revert s; induction l as [|a l IH]; simpl; intros s H.
  - now inversion H.
  - destruct s as [|c s]; [discriminate|].
    destruct (N.eqb_spec a c) as [->|]; [|discriminate].
    now rewrite (IH _ H).
Qed.

Lemma count_app (p : char -> bool) (pre s : jsstring) :
  forallb p pre = true -> count p (length pre) (pre ++ s) = Some s.
Proof.
  induction pre as [|c pre IH]; simpl; intros H; [reflexivity|].
  apply andb_prop in H as [-> H]. now apply IH.
Qed.

Lemma count_inv (p : char -> bool) (n : nat) (s s' : jsstring) :
  count p n s = Some s' ->
  exists pre, s = pre ++ s' /\ length pre = n /\ forallb p pre = true.
Proof.
  revert s; induction n as [|n IH]; simpl; intros s H.
  - inversion H; subst. now exists [].
  - destruct s as [|c s]; [discriminate|].
    destruct (p c) eqn:Hc; [|discriminate].
    destruct (IH _ H) as (pre & -> & Hlen & Hall).
    exists (c :: pre); simpl. now rewrite Hc, Hlen, Hall.
Qed.

Lemma consumed_app (pre s : jsstring) : consumed (pre ++ s) s = pre.
Proof.
  unfold consumed. rewrite length_app.
  replace (length pre + length s - length s) with (length pre) by lia.
  rewrite firstn_app, firstn_all, Nat.sub_diag. simpl. apply app_nil_r.
Qed.

Lemma star_inv (A : Type) (p : char -> bool) (s : jsstring)
  (k : jsstring -> option A) (a : A) :
  star p s k = Some a ->
  exists pre s', s = pre ++ s' /\ forallb p pre = true /\ k s' = Some a.
Proof.
  induction s as [|c s IH]; simpl; intros H.
  - now exists [], [].
  - destruct (p c) eqn:Hc.
    + destruct (star p s k) as [b|] eqn:Hs.
      * inversion H; subst b.
        destruct (IH eq_refl) as (pre & s' & -> & Hall & Hk).
        exists (c :: pre), s'; simpl. now rewrite Hc, Hall.
      * now exists [], (c :: s).
    + now exists [], (c :: s).
Qed.

(** A match goes through its continuation. *)
Lemma m_inv (n0 : nat) (A : Type) (r : regex) :
  forall (s : jsstring) (c : option jsstring)
         (k : jsstring -> option jsstring -> option A) (a : A),
    m n0 r s c k = Some a -> exists s' c', k s' c' = Some a.
Proof.
  induction r as [l|p|p|p n|r IH|r IH|r1 IH1 r2 IH2| |]; simpl; intros s c k a H.
  - destruct (strip l s); [eauto|discriminate].
  - apply star_inv in H as (_ & s' & _ & _ & H); eauto.
  - destruct s as [|x s]; [discriminate|].
    destruct (p x); [|discriminate].
    apply star_inv in H as (_ & s' & _ & _ & H); eauto.
  - destruct (count p n s); [eauto|discriminate].
  - apply IH in H as (s' & _ & H); eauto.
  - eauto.
  - apply IH1 in H as (s' & c' & H). eauto.
  - destruct (Nat.eqb _ _); [eauto|discriminate].
  - destruct s; [eauto|discriminate].
Qed.

Lemma search_inv (n0 : nat) (r : regex) (s : jsstring) (a : match_array) :
  search n0 r s = Some a ->
  exists pre s', s = pre ++ s' /\ match_at n0 r s' = Some a.
Proof.
  induction s as [|c s IH]; simpl; intros H.
  - destruct (match_at n0 r []) eqn:E; [|discriminate].
    exists [], []. now inversion H; subst.
  - destruct (match_at n0 r (c :: s)) eqn:E.
    + exists [], (c :: s). now inversion H; subst.
    + destruct (IH H) as (pre & s' & -> & H').
      now exists (c :: pre), s'.
Qed.

Arguments count p n s : simpl never.
Arguments consumed s s' : simpl never.

(** ** Video IDs *)

Lemma is_video_id_spec (s : jsstring) :
  is_video_id s = true <-> length s = 11 /\ forallb idchar s = true.
Proof.
  unfold is_video_id. rewrite andb_true_iff, Nat.eqb_eq. tauto.
Qed.

(** The capture of a pattern that ends in [([a-zA-Z0-9_-]{11})]. *)
Lemma match_at_id_group (n0 : nat) (r : regex) (s : jsstring) (a : match_array) :
  match_at n0 (r +++ Group (Count idchar 11)) s = Some a ->
  exists g, group1 a = Some g /\ is_video_id g = true.
Proof.
  unfold match_at; simpl. intros H.
  apply m_inv in H as (s' & c' & H). cbv beta in H.
  destruct (count idchar 11 s') as [s''|] eqn:E; [|discriminate].
  inversion H; subst a; simpl.
  apply count_inv in E as (pre & -> & Hlen & Hall).
  exists pre. rewrite consumed_app. split; [reflexivity|].
  apply is_video_id_spec. auto.
Qed.

Lemma test_RAW_ID (s : jsstring) : test RAW_ID s = is_video_id s.
Proof.
  unfold test, exec.
  destruct (is_video_id s) eqn:V.
  - apply is_video_id_spec in V as [Hlen Hall].
    destruct s as [|c s]; [discriminate|].
    unfold search, match_at, RAW_ID; simpl m.
    rewrite Nat.eqb_refl.
    rewrite <- (app_nil_r (c :: s)) at 1.
    rewrite <- Hlen, count_app by assumption. reflexivity.
  - destruct (search (length s) RAW_ID s) as [a|] eqn:E; [|reflexivity].
    apply search_inv in E as (pre & s' & -> & E).
    unfold match_at, RAW_ID in E; simpl in E.
    destruct (Nat.eqb_spec (length s') (length (pre ++ s'))) as [L|]; [|discriminate].
    rewrite length_app in L.
    destruct pre; [|simpl in L; lia]. simpl in V.
    destruct (count idchar 11 s') as [s''|] eqn:C; [|discriminate].
    destruct s''; [|discriminate].
    apply count_inv in C as (pre & -> & Hlen & Hall).
    rewrite app_nil_r in V.
    assert (is_video_id pre = true) by (apply is_video_id_spec; auto).
    congruence.
Qed.

Lemma VIDEO_ID_PATTERNS_shape : Forall ends_in_id_group VIDEO_ID_PATTERNS.
Proof. unfold VIDEO_ID_PATTERNS; repeat constructor; eexists; reflexivity. Qed.

Lemma exec_id_group (p : regex) (s : jsstring) (a : match_array) :
  ends_in_id_group p -> exec p s = Some a ->
  exists g, group1 a = Some g /\ is_video_id g = true.
Proof.
  intros [r ->] H. unfold exec in H.
  apply search_inv in H as (pre & s' & _ & H).
  eapply match_at_id_group; eassumption.
Qed.

Lemma first_match_some (ps : list regex) (s g : jsstring) :
  Forall ends_in_id_group ps -> first_match ps s = Some g ->
  is_video_id g = true.
Proof.
  induction 1 as [|p ps Hp _ IH]; simpl; [discriminate|].
  destruct (exec p s) as [a|] eqn:E; [|exact IH].
  destruct (exec_id_group p s a Hp E) as (g' & Hg & V).
  rewrite Hg. now intros [= <-].
Qed.

Lemma first_match_none (ps : list regex) (s : jsstring) :
  Forall ends_in_id_group ps ->
  first_match ps s = None <-> (forall p, In p ps -> exec p s = None).
Proof.
  induction 1 as [|p ps Hp _ IH]; simpl.
  - split; [intros _ p []|reflexivity].
  - destruct (exec p s) as [a|] eqn:E.
    + destruct (exec_id_group p s a Hp E) as (g & Hg & _). rewrite Hg.
      split; [discriminate|].
      intros H. specialize (H p (or_introl eq_refl)). congruence.
    + rewrite IH. split.
      * intros H q [<-|Hq]; auto.
      * intros H q Hq. apply H. now right.
Qed.

Lemma extractVideoId_some (input r : jsstring) :
  extractVideoId input = Some r -> is_video_id r = true.
Proof.
  unfold extractVideoId; cbv zeta. rewrite test_RAW_ID.
  destruct (is_video_id (trim input)) eqn:V; intros H.
  - now inversion H; subst.
  - exact (first_match_some _ _ _ VIDEO_ID_PATTERNS_shape H).
Qed.

(** C9.  Whatever [extractVideoId] returns is a video ID: for every input,
    a non-null result has exactly 11 characters and each of them is a
    letter, a digit, [_] or [-]. *)
Theorem extractVideoId_result_is_video_id (input r : jsstring) :
  extractVideoId input = Some r ->
  length r = 11 /\ (forall c, In c r -> idchar c = true).
Proof.
  intros H. rewrite <- forallb_forall. apply is_video_id_spec.
  exact (extractVideoId_some input r H).
Qed.

Lemma extractVideoId_result_is_video_id_witness :
  length (lit "dQw4w9WgXcQ") = 11 /\
  (forall c, In c (lit "dQw4w9WgXcQ") -> idchar c = true).
Proof.
  apply (extractVideoId_result_is_video_id
           (lit "see https://youtu.be/dQw4w9WgXcQ?t=1")).
  vm_compute. reflexivity.
Defined.

(** C8.  [extractVideoId] is a total function whose only failure value is
    the null result: for every input it returns none exactly when neither
    the raw-ID check nor any of the six URL patterns matches the trimmed
    input.  (No step of it can throw: [trim], [test] and [match] are
    defined on every string.) *)
Theorem extractVideoId_none_iff_no_match (input : jsstring) :
  (test RAW_ID (trim input) = false /\
   forall p, In p VIDEO_ID_PATTERNS -> exec p (trim input) = None)
  <-> extractVideoId input = None.
Proof.
  unfold extractVideoId; cbv zeta.
  rewrite <- (first_match_none _ _ VIDEO_ID_PATTERNS_shape).
  destruct (test RAW_ID (trim input)).
  - split; [intros [H _]|]; discriminate.
  - tauto.
Qed.

Ltac no_pattern_matches :=
  let p := fresh "p" in
  let Hp := fresh "Hp" in
  intros p Hp; simpl in Hp;
  repeat (destruct Hp as [<-|Hp]; [vm_compute; reflexivity|]);
  contradiction.

(** A non-YouTube URL and a playlist URL yield none. *)
Lemma extractVideoId_none_witness :
  extractVideoId (lit "https://example.com/not-youtube") = None /\
  extractVideoId
    (lit "https://www.youtube.com/playlist?list=PLrAXtmErZgOeiKm4sgNOknGvNjby9efdf")
  = None.
Proof.
  split; apply (proj1 (extractVideoId_none_iff_no_match _));
    (split; [vm_compute; reflexivity | no_pattern_matches]).
Defined.

(** ** The supported URL shapes *)

Lemma strip_prefix_none (a b s : jsstring) :
  strip a s = None -> strip (a ++ b) s = None.
Proof.
  revert s; induction a as [|x a IH]; intros s; cbn [strip app].
  - discriminate.
  - destruct s as [|c s]; [reflexivity|].
    destruct (x =? c)%N; [apply IH|reflexivity].
Qed.

Lemma includes_false_inv (a b needle : jsstring) :
  includes (a ++ b) needle = false -> strip needle b = None.
Proof.
  induction a as [|c a IH]; cbn [app].
  - intros H. destruct (strip needle b) eqn:E; [exfalso|reflexivity].
    destruct b; cbn [includes] in H; unfold startsWith in H;
      rewrite E in H; discriminate.
  - cbn [includes]. intros H. apply orb_false_iff in H as [_ H]. auto.
Qed.

Lemma includes_false_tail (a b needle : jsstring) :
  includes (a ++ b) needle = false -> includes b needle = false.
Proof.
  induction a as [|c a IH]; cbn [app]; [auto|].
  cbn [includes]. intros H. apply orb_false_iff in H as [_ H]. auto.
Qed.

Lemma search_cons (n0 : nat) (p : regex) (c : char) (s : jsstring) :
  search n0 p (c :: s) =
  match match_at n0 p (c :: s) with
  | Some a => Some a
  | None => search n0 p s
  end.
Proof. reflexivity. Qed.

Lemma search_none (n0 : nat) (p : regex) (s : jsstring) :
  (forall a b, s = a ++ b -> match_at n0 p b = None) ->
  search n0 p s = None.
Proof.
  induction s as [|c s IH]; intros H.
  - cbn [search]. now rewrite (H [] [] eq_refl).
  - rewrite search_cons, (H [] (c :: s) eq_refl).
    apply IH. intros a b ->. now apply (H (c :: a) b).
Qed.

Lemma search_skip (n0 : nat) (p : regex) (pre s : jsstring) :
  (forall a b, b <> [] -> pre = a ++ b -> match_at n0 p (b ++ s) = None) ->
  search n0 p (pre ++ s) = search n0 p s.
Proof.
  induction pre as [|c pre IH]; intros H; [reflexivity|].
  cbn [app]. rewrite search_cons.
  pose proof (H [] (c :: pre) ltac:(discriminate) eq_refl) as E.
  cbn [app] in E. rewrite E.
  apply IH. intros a b Hb ->. now apply (H (c :: a) b).
Qed.

(** A greedy star gives back every character it took when the rest of the
    pattern fails after each non-empty run of the class. *)
Lemma star_gives_back_run (A : Type) (p : char -> bool) (s : jsstring)
  (k : jsstring -> option A) :
  (forall a b, a <> [] -> s = a ++ b -> forallb p a = true -> k b = None) ->
  star p s k = k s.
Proof.
  induction s as [|c s IH]; intros H; cbn [star]; [reflexivity|].
  destruct (p c) eqn:Hc; [|reflexivity].
  destruct (star p s k) as [x|] eqn:E; [|reflexivity].
  apply star_inv in E as (a & b & -> & Ha & E).
  rewrite (H (c :: a) b) in E; [discriminate|discriminate|reflexivity|].
  cbn [forallb]. now rewrite Hc, Ha.
Qed.

Lemma strip_long_none (needle x y : jsstring) :
  strip needle x = None -> length needle <= length x ->
  strip needle (x ++ y) = None.
Proof.
  revert x; induction needle as [|a needle IH]; intros x; cbn [strip].
  - discriminate.
  - destruct x as [|c x]; cbn [length app]; [lia|].
    destruct (a =? c)%N; [|reflexivity].
    intros H L. apply IH; [assumption|lia].
Qed.

Lemma includes_false_head (s needle : jsstring) :
  includes s needle = false -> strip needle s = None.
Proof. apply (includes_false_inv [] s). Qed.

Lemma strip_of_prefix (n : nat) (l s : jsstring) :
  strip (firstn n l) s = None -> strip l s = None.
Proof.
  rewrite <- (firstn_skipn n l) at 2. apply strip_prefix_none.
Qed.

(** No occurrence of [youtu] starts before a marker when none lies
    before it: the word does not overlap itself. *)
Lemma youtu_no_straddle (b rest : jsstring) :
  b <> [] -> includes b (lit "youtu") = false ->
  strip (lit "youtu") (b ++ lit "youtu" ++ rest) = None.
Proof.
  intros Hb H.
  destruct (Nat.le_gt_cases 5 (length b)) as [L|L].
  - apply strip_long_none; [now apply includes_false_head|exact L].
  - clear H.
    destruct b as [|c1 [|c2 [|c3 [|c4 [|c5 b]]]]];
      [contradiction| | | | |cbn [length] in L; lia];
      change (lit "youtu") with [121; 111; 117; 116; 117]%N;
      cbv [app strip];
      repeat match goal with
             | |- context [(?x =? ?y)%N] =>
                 destruct (N.eqb_spec x y); [try discriminate; subst|reflexivity]
             end.
Qed.

Arguments strip l s : simpl never.
Arguments star {A} p s k : simpl never.

Lemma id_group_hit (id suf : jsstring) :
  is_video_id id = true -> count idchar 11 (id ++ suf) = Some suf.
Proof.
  intros V. apply is_video_id_spec in V as [L Hall].
  rewrite <- L. now apply count_app.
Qed.

(** The five patterns made of a literal and the group. *)
Lemma literal_pattern_hit (n0 : nat) (l id suf : jsstring) :
  is_video_id id = true ->
  match_at n0 (NonCap (Chars l) +++ Group (Count idchar 11)) (l ++ id ++ suf)
  = Some {| whole := l ++ id; group1 := Some id |}.
Proof.
  intros V. unfold match_at; cbn [m].
  rewrite strip_app, (id_group_hit id suf V), consumed_app.
  now rewrite app_assoc, consumed_app.
Qed.

Lemma marker_not_id (k : url_shape) (pre rest : jsstring) :
  is_video_id (pre ++ marker k ++ rest) = false.
Proof.
  unfold is_video_id. rewrite !forallb_app.
  replace (forallb idchar (marker k)) with false by (destruct k; reflexivity).
  cbn [andb]. now rewrite !andb_false_r.
Qed.

Lemma search_none_inv (n0 : nat) (p : regex) (s : jsstring) :
  search n0 p s = None ->
  forall a b, s = a ++ b -> match_at n0 p b = None.
Proof.
  induction s as [|c s IH]; intros H a b E.
  - destruct a; [|discriminate]. cbn [app] in E. subst b.
    cbn [search] in H. now destruct (match_at n0 p []).
  - rewrite search_cons in H.
    destruct (match_at n0 p (c :: s)) eqn:M; [discriminate|].
    destruct a as [|x a]; cbn [app] in E.
    + now subst b.
    + injection E as _ E. exact (IH H a b E).
Qed.

Lemma search_hit (n0 : nat) (p : regex) (s : jsstring) (a : match_array) :
  match_at n0 p s = Some a -> search n0 p s = Some a.
Proof. intros H. destruct s; cbn [search]; now rewrite H. Qed.

Lemma take_while_app (p : char -> bool) (a b : jsstring) :
  forallb p a = true -> take_while p (a ++ b) = a ++ take_while p b.
Proof.
  induction a as [|c a IH]; cbn [forallb app take_while]; [reflexivity|].
  intros H. apply andb_prop in H as [-> H]. now rewrite IH.
Qed.

Lemma idchar_dot (c : char) : idchar c = true -> dot c = true.
Proof.
  unfold idchar, dot, line_terminator, char_in.
  rewrite !orb_true_iff, !andb_true_iff, !N.leb_le, !N.eqb_eq.
  intros H. apply negb_true_iff.
  rewrite !orb_false_iff, !N.eqb_neq. lia.
Qed.

(** A [v=] with eleven ID characters is found on its line. *)
Lemma V_PARAMETER_on_line (n0 : nat) (b : jsstring) :
  match_at n0 V_PARAMETER (take_while dot b) = None ->
  match_at n0 V_PARAMETER b = None.
Proof.
  unfold match_at, V_PARAMETER; cbn [m]. intros H.
  destruct (strip (lit "v=") b) as [s1|] eqn:S; [|reflexivity].
  destruct (count idchar 11 s1) as [s2|] eqn:C; [exfalso|reflexivity].
  apply strip_inv in S. apply count_inv in C as (i & -> & L & Hi).
  subst b.
  assert (D : forallb dot (lit "v=" ++ i) = true).
  { rewrite forallb_app. apply andb_true_iff. split; [reflexivity|].
    rewrite forallb_forall in *. intros c Hc. apply idchar_dot; auto. }
  rewrite app_assoc, (take_while_app dot _ s2 D), <- app_assoc in H.
  rewrite strip_app in H. rewrite <- L, (count_app idchar i _ Hi) in H.
  discriminate H.
Qed.

(** The watch pattern at the marker: its [.*] ends up empty when no other
    [v=] with an ID follows on the line. *)
Lemma watch_pattern_hit (n0 : nat) (id suf : jsstring) :
  is_video_id id = true ->
  test V_PARAMETER (take_while dot (id ++ suf)) = false ->
  match_at n0
    (NonCap (Chars (lit "youtube.com/watch?") +++ Star dot +++ Chars (lit "v="))
     +++ Group (Count idchar 11))
    (lit "youtube.com/watch?" ++ lit "v=" ++ id ++ suf)
  = Some {| whole := lit "youtube.com/watch?" ++ lit "v=" ++ id;
            group1 := Some id |}.
Proof.
  intros V H. unfold match_at; cbn [m].
  rewrite strip_app, star_gives_back_run.
  - rewrite strip_app, (id_group_hit id suf V), consumed_app.
    now rewrite !app_assoc, consumed_app.
  - intros a b Ha E Da.
    destruct a as [|c1 [|c2 a]]; [contradiction| |].
    + injection E as _ <-. reflexivity.
    + injection E as _ _ E. cbn [forallb] in Da.
      apply andb_prop in Da as [_ Da]. apply andb_prop in Da as [_ Da].
      unfold test, exec in H.
      destruct (search _ V_PARAMETER _) eqn:S in H; [discriminate|].
      rewrite E, (take_while_app dot a b Da) in S.
      pose proof (V_PARAMETER_on_line _ b
                    (search_none_inv _ _ _ S a _ eq_refl)) as M.
      unfold match_at, V_PARAMETER in M; cbn [m] in M.
      destruct (strip (lit "v=") b) as [s1|]; [|reflexivity].
      destruct (count idchar 11 s1); [discriminate M|reflexivity].
Qed.

(** The literal of a shape does not start before the marker when it does
    not occur there. *)
Lemma literal_not_earlier (l pre : jsstring) :
  l <> [] -> includes (pre ++ removelast l) l = false ->
  forall a b rest, b <> [] -> pre = a ++ b ->
                   strip l (b ++ l ++ rest) = None.
Proof.
  intros Hl H a b rest Hb ->.
  rewrite <- app_assoc in H.
  pose proof (includes_false_inv a _ l H) as S.
  rewrite (app_removelast_last 0%N Hl) at 2.
  rewrite <- (app_assoc (removelast l)), app_assoc.
  apply strip_long_none; [exact S|].
  rewrite length_app.
  pose proof (f_equal (@length _) (app_removelast_last 0%N Hl)) as L.
  rewrite length_app in L. cbn [length] in L.
  destruct b; [contradiction|cbn [length]].
  unfold jsstring, char in *. lia.
Qed.

Lemma first_match_skip (ps qs : list regex) (s : jsstring) :
  forallb (fun p => negb (test p s)) ps = true ->
  first_match (ps ++ qs) s = first_match qs s.
Proof.
  induction ps as [|p ps IH]; cbn [forallb app first_match]; [reflexivity|].
  intros H. apply andb_prop in H as [Hp H].
  unfold test in Hp. destruct (exec p s); [discriminate|]. exact (IH H).
Qed.

(** The pattern of a shape matches the URL at the marker, where it reads
    the ID. *)
Lemma shape_pattern_hit (k : url_shape) (pre id suf : jsstring) :
  is_video_id id = true ->
  first_occurrence k pre = true ->
  last_v_parameter k (id ++ suf) = true ->
  exec (nth (position k) VIDEO_ID_PATTERNS RAW_ID)
    (pre ++ marker k ++ id ++ suf)
  = Some {| whole := marker k ++ id; group1 := Some id |}.
Proof.
  intros V F L. unfold exec, first_occurrence in *.
  apply negb_true_iff in F.
  assert (Hl : literal k <> []) by (destruct k; discriminate).
  pose proof (literal_not_earlier _ _ Hl F) as N.
  rewrite search_skip.
  - apply search_hit.
    destruct k; cbn [position nth VIDEO_ID_PATTERNS marker];
      try exact (literal_pattern_hit _ _ id suf V).
    cbn [last_v_parameter] in L. apply negb_true_iff in L.
    exact (watch_pattern_hit _ id suf V L).
  - intros a b Hb E.
    assert (S : strip (literal k) (b ++ marker k ++ id ++ suf) = None).
    { destruct k; exact (N a b _ Hb E). }
    destruct k; unfold match_at; cbn [position nth VIDEO_ID_PATTERNS m];
      cbn [literal marker] in *; rewrite S; reflexivity.
Qed.

Lemma VIDEO_ID_PATTERNS_split (k : url_shape) :
  VIDEO_ID_PATTERNS
  = earlier_patterns k
    ++ nth (position k) VIDEO_ID_PATTERNS RAW_ID
    :: skipn (S (position k)) VIDEO_ID_PATTERNS.
Proof. destruct k; reflexivity. Qed.

(** C3, as stated, fails: a URL of a supported shape that embeds an ID can
    hold a second text that a pattern reads as the ID.  The greedy [.*] of
    the watch pattern runs to the last [v=], also the one of [rv=]; and in
    an embed URL a [youtu.be/] of the query is read first, its pattern
    being listed before. *)
Lemma extractVideoId_reads_another_id :
  is_video_id (lit "AAAAAAAAAAA") = true /\
  trim (lit "https://www.youtube.com/watch?v=AAAAAAAAAAA&rv=BBBBBBBBBBB")
  = lit "https://www." ++ marker Watch ++ lit "AAAAAAAAAAA"
    ++ lit "&rv=BBBBBBBBBBB" /\
  extractVideoId
    (lit "https://www.youtube.com/watch?v=AAAAAAAAAAA&rv=BBBBBBBBBBB")
  = Some (lit "BBBBBBBBBBB") /\
  trim (lit "https://www.youtube.com/embed/AAAAAAAAAAA?u=youtu.be/BBBBBBBBBBB")
  = lit "https://www." ++ marker Embed ++ lit "AAAAAAAAAAA"
    ++ lit "?u=youtu.be/BBBBBBBBBBB" /\
  extractVideoId
    (lit "https://www.youtube.com/embed/AAAAAAAAAAA?u=youtu.be/BBBBBBBBBBB")
  = Some (lit "BBBBBBBBBBB") /\
  Some (lit "BBBBBBBBBBB") <> Some (lit "AAAAAAAAAAA").
Proof.
  repeat (split; [vm_compute; reflexivity|]).
  vm_compute. discriminate.
Qed.

(** C3, amended.  A video ID is recognised in every supported form.  For
    an 11-character string [id] over [[A-Za-z0-9_-]]: an input that trims
    to [id] yields [id] (the raw-ID check comes first, before any URL
    pattern is tried); and an input that trims to a URL of one of the six
    shapes, that is some text, the marker of the shape, [id] and a suffix,
    yields [id] as well when the URL holds nothing else for the patterns
    to read: the literal of the shape does not occur before the marker, no
    pattern listed before the shape's own matches the URL, and in a watch
    URL no other [v=] with eleven ID characters follows on the line. *)
Theorem extractVideoId_supported_shapes (id : jsstring) :
  is_video_id id = true ->
  (forall input, trim input = id -> extractVideoId input = Some id) /\
  (forall (k : url_shape) (pre suf input : jsstring),
      trim input = pre ++ marker k ++ id ++ suf ->
      first_occurrence k pre = true ->
      earlier_patterns_fail k (trim input) = true ->
      last_v_parameter k (id ++ suf) = true ->
      extractVideoId input = Some id).
Proof.
  intros V. split.
  - intros input T. unfold extractVideoId; cbv zeta.
    now rewrite T, test_RAW_ID, V.
  - intros k pre suf input T F E L.
    unfold extractVideoId; cbv zeta.
    rewrite T in *. rewrite test_RAW_ID, marker_not_id.
    rewrite (VIDEO_ID_PATTERNS_split k), (first_match_skip _ _ _ E).
    cbn [first_match]. now rewrite (shape_pattern_hit k pre id suf V F L).
Qed.

(** The raw ID with blanks around it, one URL of each shape with the
    tracking parameters users paste along, and an ID that holds [youtu]. *)
Lemma extractVideoId_supported_shapes_witness :
  let id := lit "dQw4w9WgXcQ" in
  extractVideoId (lit "  dQw4w9WgXcQ ") = Some id /\
  extractVideoId (lit "https://www.youtube.com/watch?v=dQw4w9WgXcQ&t=42s") = Some id /\
  extractVideoId (lit "https://youtu.be/dQw4w9WgXcQ?si=AbCdEf") = Some id /\
  extractVideoId (lit "https://www.youtube.com/embed/dQw4w9WgXcQ") = Some id /\
  extractVideoId (lit " https://m.youtube.com/shorts/dQw4w9WgXcQ?feature=share") = Some id /\
  extractVideoId (lit "youtube.com/live/dQw4w9WgXcQ") = Some id /\
  extractVideoId (lit "http://www.youtube.com/v/dQw4w9WgXcQ") = Some id /\
  extractVideoId (lit "https://youtu.be/youtu_be_12") = Some (lit "youtu_be_12").
Proof.
  cbv zeta.
  destruct (extractVideoId_supported_shapes (lit "dQw4w9WgXcQ") eq_refl)
    as [R U].
  split; [apply R; vm_compute; reflexivity|].
  split; [apply (U Watch (lit "https://www.") (lit "&t=42s"));
          vm_compute; reflexivity|].
  split; [apply (U YoutuBe (lit "https://") (lit "?si=AbCdEf"));
          vm_compute; reflexivity|].
  split; [apply (U Embed (lit "https://www.") []); vm_compute; reflexivity|].
  split; [apply (U Shorts (lit "https://m.") (lit "?feature=share"));
          vm_compute; reflexivity|].
  split; [apply (U Live [] []); vm_compute; reflexivity|].
  split; [apply (U V (lit "http://www.") []); vm_compute; reflexivity|].
  apply (proj2 (extractVideoId_supported_shapes (lit "youtu_be_12") eq_refl)
           YoutuBe (lit "https://") []);
    vm_compute; reflexivity.
Defined.

(** ** Channel identifiers *)

Lemma drop_while_all (p : char -> bool) (s : jsstring) :
  forallb p s = true -> drop_while p s = [].
Proof.
  induction s as [|c s IH]; cbn [forallb drop_while]; [reflexivity|].
  intros H. apply andb_prop in H as [-> H]. auto.
Qed.

Lemma trim_blank (s : jsstring) : forallb white_space s = true -> trim s = [].
Proof.
  intros H. unfold trim, trimEnd, trimStart.
  now rewrite (drop_while_all _ _ H).
Qed.

(** The group of the two channel patterns takes part in every match. *)
Lemma channel_patterns_capture (l : jsstring) (p : char -> bool)
  (s : jsstring) (a : match_array) :
  exec (Chars l +++ Group (Plus p)) s = Some a -> exists g, group1 a = Some g.
Proof.
  unfold exec. intros H. apply search_inv in H as (pre & s' & Es & H).
  unfold match_at in H; cbn [m] in H.
  destruct (strip l s') as [[|x s'']|]; try discriminate.
  destruct (p x); [|discriminate].
  apply star_inv in H as (taken & left & _ & _ & H).
  inversion H; subst a. cbn [group1]. eauto.
Qed.

(** C1, as stated, fails: a bare name falls through every check and comes
    out tagged [handle], not [username]. *)
Lemma extractChannelIdentifier_fallback_not_username :
  falls_through (lit "mkbhd") = true /\
  extractChannelIdentifier (lit "mkbhd")
  = Some {| type := THandle; value := lit "mkbhd" |} /\
  extractChannelIdentifier (lit "mkbhd")
  <> Some {| type := TUsername; value := trim (lit "mkbhd") |}.
Proof.
  split; [|split]; [vm_compute; reflexivity ..|].
  vm_compute. discriminate.
Qed.

(** C1, amended.  For every input that, after trimming, does not match the
    channel-URL shape, does not match the handle-URL shape, does not start
    with [@] and is not 24 characters starting with [UC],
    [extractChannelIdentifier] returns the handle-tagged identifier
    [{type: "handle", value: trimmed}]. *)
Theorem extractChannelIdentifier_fallback (input : jsstring) :
  falls_through input = true ->
  extractChannelIdentifier input
  = Some {| type := THandle; value := trim input |}.
Proof.
  unfold falls_through, extractChannelIdentifier, test; cbv zeta.
  intros H.
  destruct (exec CHANNEL_URL (trim input)); [discriminate|].
  destruct (exec HANDLE_URL (trim input)); [discriminate|].
  destruct (startsWith (trim input) (lit "@")); [discriminate|].
  destruct (startsWith (trim input) (lit "UC") && _); [discriminate|].
  reflexivity.
Qed.

Lemma extractChannelIdentifier_fallback_witness :
  extractChannelIdentifier (lit " mkbhd ")
  = Some {| type := THandle; value := lit "mkbhd" |}.
Proof.
  exact (extractChannelIdentifier_fallback (lit " mkbhd ") eq_refl).
Defined.

(** C10.  [extractChannelIdentifier] never returns null: every input
    yields an identifier, and an empty or whitespace-only input yields
    [{type: "handle", value: ""}]. *)
Theorem extractChannelIdentifier_never_null (input : jsstring) :
  (exists r, extractChannelIdentifier input = Some r) /\
  (forallb white_space input = true ->
   extractChannelIdentifier input = Some {| type := THandle; value := [] |}).
Proof.
  split.
  - unfold extractChannelIdentifier; cbv zeta.
    destruct (exec CHANNEL_URL _); [eauto|].
    destruct (exec HANDLE_URL _); [eauto|].
    destruct (startsWith _ (lit "@")); [eauto|].
    destruct (startsWith _ (lit "UC") && _); eauto.
  - intros H. unfold extractChannelIdentifier; cbv zeta.
    rewrite (trim_blank _ H). reflexivity.
Qed.

Lemma extractChannelIdentifier_never_null_witness :
  extractChannelIdentifier [] = Some {| type := THandle; value := [] |} /\
  extractChannelIdentifier [32; 9; 10; 160; 12288]%N
  = Some {| type := THandle; value := [] |}.
Proof.
  split.
  - exact (proj2 (extractChannelIdentifier_never_null []) eq_refl).
  - exact (proj2 (extractChannelIdentifier_never_null [32; 9; 10; 160; 12288]%N)
             eq_refl).
Defined.

(** ** Requests and results *)

Lemma run_bind (A B : Type) (env : environment) (x : io A) (f : A -> io B) :
  run env (bind x f) =
  match result env x with
  | Ok a => (requests env x ++ requests env (f a), result env (f a))
  | Throw e => (requests env x, Throw e)
  end.
Proof.
  unfold requests, result.
  induction x as [[a|e]|u k IH|v l k IH]; cbn [bind run fst snd app].
  - now destruct (run env (f a)).
  - reflexivity.
  - rewrite IH. destruct (run env (k (upstream env u))) as [t [a|e]];
      reflexivity.
  - rewrite IH. destruct (run env (k (captions env v l))) as [t [a|e]];
      reflexivity.
Qed.

Lemma run_try_catch (A : Type) (env : environment) (x : io A)
  (h : exn -> io A) :
  run env (try_catch x h) =
  match result env x with
  | Ok a => (requests env x, Ok a)
  | Throw e => (requests env x ++ requests env (h e), result env (h e))
  end.
Proof.
  unfold requests, result.
  induction x as [[a|e]|u k IH|v l k IH]; cbn [try_catch run fst snd app].
  - reflexivity.
  - now destruct (run env (h e)).
  - rewrite IH. destruct (run env (k (upstream env u))) as [t [a|e]];
      reflexivity.
  - rewrite IH. destruct (run env (k (captions env v l))) as [t [a|e]];
      reflexivity.
Qed.

(** [youtubeApiFetch] issues exactly one request. *)
Lemma youtubeApiFetch_requests (env : environment) (endpoint : jsstring)
  (params : list (jsstring * jsstring)) (apiKey : jsstring) :
  requests env (youtubeApiFetch endpoint params apiKey)
  = [HttpGet (request_url endpoint params apiKey)].
Proof.
  unfold youtubeApiFetch, fetch, requests. cbv zeta.
  fold (request_url endpoint params apiKey).
  cbn [bind run].
  destruct (upstream env _) as [res|e]; [|reflexivity].
  destruct (Response.ok res); cbn [negb bind]; [reflexivity|].
  destruct (Response.text res); reflexivity.
Qed.

(** On a success response the result is the parsed body. *)
Lemma youtubeApiFetch_result (env : environment) (endpoint : jsstring)
  (params : list (jsstring * jsstring)) (apiKey : jsstring)
  (res : Response.t) :
  upstream env (request_url endpoint params apiKey) = Ok res ->
  Response.ok res = true ->
  result env (youtubeApiFetch endpoint params apiKey) = Response.json res.
Proof.
  intros U O. unfold youtubeApiFetch, fetch, result. cbv zeta.
  fold (request_url endpoint params apiKey).
  cbn [bind run]. rewrite U. cbn [bind]. rewrite O. reflexivity.
Qed.

(** A call of the API followed by a mapper issues that one request. *)
Lemma api_call_requests (A : Type) (env : environment) (endpoint : jsstring)
  (params : list (jsstring * jsstring)) (apiKey : jsstring)
  (mapper : jsvalue -> outcome A) :
  requests env (data <- youtubeApiFetch endpoint params apiKey ;;
                Done (mapper data))
  = [HttpGet (request_url endpoint params apiKey)].
Proof.
  unfold requests at 1. rewrite run_bind, youtubeApiFetch_requests.
  destruct (result env _); reflexivity.
Qed.

(** The URLs of the four calls: [Object.entries] yields the parameters in
    the order of the literal, and [searchParams.set] appends each of them
    as a USVString. *)
Lemma videos_request_url (videoId apiKey : jsstring) :
  request_url (lit "videos")
    [(lit "part", lit "snippet,statistics,contentDetails");
     (lit "id", videoId)] apiKey
  = {| Url.href := lit "https://www.googleapis.com/youtube/v3/videos";
       Url.searchParams :=
         [(lit "key", usv apiKey);
          (lit "part", lit "snippet,statistics,contentDetails");
          (lit "id", usv videoId)] |}.
Proof. reflexivity. Qed.

Lemma search_request_url (query apiKey maxResults : jsstring) :
  request_url (lit "search")
    [(lit "part", lit "snippet"); (lit "q", query);
     (lit "type", lit "video"); (lit "maxResults", maxResults)] apiKey
  = {| Url.href := lit "https://www.googleapis.com/youtube/v3/search";
       Url.searchParams :=
         [(lit "key", usv apiKey); (lit "part", lit "snippet");
          (lit "q", usv query); (lit "type", lit "video");
          (lit "maxResults", usv maxResults)] |}.
Proof. reflexivity. Qed.

Lemma channels_request_url (identifier : channel_identifier)
  (apiKey : jsstring) :
  request_url (lit "channels") (channelParams identifier) apiKey
  = {| Url.href := lit "https://www.googleapis.com/youtube/v3/channels";
       Url.searchParams :=
         [(lit "key", usv apiKey);
          (lit "part", lit "snippet,statistics");
          (match type identifier with
           | TId => lit "id"
           | THandle => lit "forHandle"
           | TUsername => lit "forUsername"
           end, usv (value identifier))] |}.
Proof. destruct identifier as [[| |] v]; reflexivity. Qed.

Lemma commentThreads_request_url (videoId apiKey maxResults : jsstring) :
  request_url (lit "commentThreads")
    [(lit "part", lit "snippet"); (lit "videoId", videoId);
     (lit "maxResults", maxResults); (lit "order", lit "relevance");
     (lit "textFormat", lit "plainText")] apiKey
  = {| Url.href := lit "https://www.googleapis.com/youtube/v3/commentThreads";
       Url.searchParams :=
         [(lit "key", usv apiKey); (lit "part", lit "snippet");
          (lit "videoId", usv videoId); (lit "maxResults", usv maxResults);
          (lit "order", lit "relevance");
          (lit "textFormat", lit "plainText")] |}.
Proof. reflexivity. Qed.

(** ** Channel requests *)

(** A string without a lone surrogate is its own USVString. *)
Lemma usv_well_formed (s : jsstring) : well_formed s = true -> usv s = s.
Proof.
  assert (H : forall n s, (length s <= n)%nat ->
                          well_formed s = true -> usv s = s).
  { intro n. induction n as [|n IH]; intros [|c t] L W; try reflexivity.
    - cbn in L. lia.
    - cbn in L. cbn [well_formed] in W. cbn [usv].
      destruct (high_surrogate c).
      + destruct t as [|d t']; [discriminate|].
        apply andb_true_iff in W. destruct W as [W1 W2]. rewrite W1.
        rewrite (IH t'); [reflexivity| cbn in L; lia | exact W2].
      + apply andb_true_iff in W. destruct W as [W1 W2].
        apply negb_true_iff in W1. rewrite W1.
        rewrite (IH t); [reflexivity| lia | exact W2]. }
  intro W. exact (H (length s) s (le_n _) W).
Qed.

(** A string without any surrogate is well formed. *)
Lemma well_formed_plain (s : jsstring) :
  forallb (fun c => negb (char_in 55296 57343 c)) s = true ->
  well_formed s = true.
Proof.
  induction s as [|c t IH]; [reflexivity|]. cbn [forallb well_formed].
  intro H. apply andb_true_iff in H. destruct H as [H1 H2].
  apply negb_true_iff in H1. unfold char_in in H1.
  assert (Hh : high_surrogate c = false).
  { unfold high_surrogate, char_in. apply andb_false_iff.
    apply andb_false_iff in H1. rewrite !N.leb_gt in *. lia. }
  assert (Hl : low_surrogate c = false).
  { unfold low_surrogate, char_in. apply andb_false_iff.
    apply andb_false_iff in H1. rewrite !N.leb_gt in *. lia. }
  rewrite Hh, Hl. cbn. exact (IH H2).
Qed.

(** A video ID is well formed. *)
Lemma well_formed_video_id (id : jsstring) :
  forallb idchar id = true -> well_formed id = true.
Proof.
  intro H. apply well_formed_plain.
  rewrite forallb_forall in *. intros c Hc. specialize (H c Hc).
  apply negb_true_iff. unfold idchar, char_in in *.
  apply andb_false_iff.
  rewrite !orb_true_iff, !andb_true_iff, !N.leb_le, !N.eqb_eq in H.
  rewrite !N.leb_gt. lia.
Qed.

(** A video ID is stored as it is. *)
Lemma usv_video_id (id : jsstring) : is_video_id id = true -> usv id = id.
Proof.
  unfold is_video_id. intro H. apply andb_true_iff in H.
  apply usv_well_formed, well_formed_video_id, H.
Qed.

(** C7, as stated, fails: [searchParams.set] stores a USVString, so the
    handle made of one high surrogate reaches the request as U+FFFD, which
    is not the identifier's value.  The parser returns that identifier for
    that input. *)
Lemma getChannelInfo_lone_surrogate :
  extractChannelIdentifier [55357%N] = Some lone_surrogate_handle /\
  requests empty_upstream (getChannelInfo lone_surrogate_handle (lit "KEY"))
  = [HttpGet
       {| Url.href := lit "https://www.googleapis.com/youtube/v3/channels";
          Url.searchParams :=
            [(lit "key", lit "KEY");
             (lit "part", lit "snippet,statistics");
             (lit "forHandle", [65533%N])] |}] /\
  [65533%N] <> value lone_surrogate_handle.
Proof.
  split; [vm_compute; reflexivity|].
  split; [vm_compute; reflexivity|].
  cbn. intro H. discriminate H.
Qed.

(** C7, amended.  The tag of a channel identifier is exactly one of [id],
    [handle] and [username], and it alone selects the query parameter that
    carries the identifier's value: [id], [forHandle] or [forUsername].
    The one request of [getChannelInfo] goes to the [channels] endpoint
    with the parameters [key], [part] and that one, whose value is the
    identifier's value as a USVString: the value itself when it has no
    lone surrogate. *)
Theorem getChannelInfo_request_usv (identifier : channel_identifier)
  (apiKey : jsstring) (env : environment) :
  exists name,
    (type identifier = TId /\ name = lit "id"
     \/ type identifier = THandle /\ name = lit "forHandle"
     \/ type identifier = TUsername /\ name = lit "forUsername") /\
    requests env (getChannelInfo identifier apiKey)
    = [HttpGet
         {| Url.href := lit "https://www.googleapis.com/youtube/v3/channels";
            Url.searchParams :=
              [(lit "key", usv apiKey);
               (lit "part", lit "snippet,statistics");
               (name, usv (value identifier))] |}] /\
    (well_formed (value identifier) = true ->
     usv (value identifier) = value identifier).
Proof.
  destruct identifier as [t v].
  exists (match t with
          | TId => lit "id"
          | THandle => lit "forHandle"
          | TUsername => lit "forUsername"
          end).
  split; [destruct t; cbn [type]; auto|].
  split; [|apply usv_well_formed].
  unfold getChannelInfo.
  rewrite api_call_requests, channels_request_url.
  destruct t; reflexivity.
Qed.

(** The handle [@mkbhd], which is well formed, travels as it is. *)
Lemma getChannelInfo_request_usv_witness :
  exists name,
    name = lit "forHandle" /\
    requests empty_upstream
      (getChannelInfo {| type := THandle; value := lit "@mkbhd" |} (lit "KEY"))
    = [HttpGet
         {| Url.href := lit "https://www.googleapis.com/youtube/v3/channels";
            Url.searchParams :=
              [(lit "key", lit "KEY");
               (lit "part", lit "snippet,statistics");
               (name, lit "@mkbhd")] |}].
Proof.
  destruct (getChannelInfo_request_usv
              {| type := THandle; value := lit "@mkbhd" |} (lit "KEY")
              empty_upstream) as [name [[[T _]|[[_ N]|[T _]]] [R W]]];
    try discriminate T.
  exists name. split; [exact N|].
  rewrite R. cbn [value]. reflexivity.
Defined.

(** ** Empty and absent [items] *)




(** ** Defaults of the optional fields *)

Lemma coalesce_absent (v d : jsvalue) : nullish v = true -> v ?? d = d.
Proof. unfold coalesce. now intros ->. Qed.

Lemma truthy_length (n : nat) : truthy (number_of_nat (S n)) = true.
Proof. reflexivity. Qed.

Lemma get_total (v : jsvalue) (k k' : jsstring) (x : jsvalue) :
  get v k = Ok x -> exists w, get v k' = Ok w.
Proof. destruct v; cbn [get]; intros H; try discriminate H; eauto. Qed.

Lemma length_of_array (l : list jsvalue) :
  get_opt (VArr l) (lit "length") = Ok (number_of_nat (length l)).
Proof. reflexivity. Qed.

(** A non-empty [items] passes the emptiness guard. *)
Ltac enter_first_item Hitems :=
  rewrite Hitems; cbn [obind];
  rewrite length_of_array; cbn [obind length];
  rewrite truthy_length; cbn [negb index0 nth obind].

Ltac read_parts :=
  unfold get2;
  repeat match goal with
         | H : part _ _ _ |- _ => unfold part in H; rewrite H; clear H
         end;
  cbn [obind get].

Lemma has_get (item : jsvalue) (name : jsstring) :
  has item name -> get item name = Ok (read item name).
Proof.
  unfold has, read.
  destruct item; cbn [get nullish]; intros H; (discriminate H || reflexivity).
Qed.

Lemma get_read (v : jsvalue) (name : jsstring) :
  nullish v = false -> get v name = Ok (read v name).
Proof.
  unfold read.
  destruct v; cbn [get nullish]; intros H; (discriminate H || reflexivity).
Qed.

Lemma get_opt_read (v : jsvalue) (name : jsstring) :
  get_opt v name = Ok (read v name).
Proof. destruct v; reflexivity. Qed.

Lemma read_nullish (v : jsvalue) (name : jsstring) :
  nullish v = true -> read v name = VUndefined.
Proof. destruct v; cbn [nullish]; intros H; (discriminate H || reflexivity). Qed.

(** The thumbnail chain of an item that has a snippet. *)
Lemma thumbnail_read (item : jsvalue) :
  has item (lit "snippet") ->
  thumbnail_high_url item
  = Ok (read (read (read (read item (lit "snippet")) (lit "thumbnails"))
                (lit "high")) (lit "url")).
Proof.
  intros H. unfold thumbnail_high_url, get2.
  rewrite (has_get _ _ H). cbn [obind].
  rewrite (get_read _ _ H). cbn [obind].
  rewrite get_opt_read. cbn [obind]. apply get_opt_read.
Qed.

Lemma lacks_thumbnail_url (snippet : jsvalue) :
  lacks_thumbnail snippet ->
  nullish (read (read (read snippet (lit "thumbnails")) (lit "high"))
             (lit "url")) = true.
Proof.
  unfold lacks_thumbnail, lacks. intros [H|[H|H]].
  - now rewrite (read_nullish _ (lit "high") H).
  - now rewrite (read_nullish _ (lit "url") H).
  - exact H.
Qed.

(** The reads of a part that is there. *)
Ltac read_part H :=
  unfold get2; rewrite ?(has_get _ _ H); cbn [obind];
  rewrite ?(get_read _ _ H); cbn [obind].

Ltac default_of_lacking :=
  let A := fresh "A" in
  intros A; apply coalesce_absent;
  first [exact A | exact (lacks_thumbnail_url _ A)].

(** C5, as stated, fails: the defaults do not reach a part that is
    missing.  A video item without [statistics] has no view count, and the
    mapper throws a TypeError instead of returning a record with ["N/A"];
    the same holds for a channel item. *)
Lemma defaults_need_statistics :
  lacks (read video_without_statistics (lit "statistics")) (lit "viewCount") /\
  videoDetailsOf (VObj [(lit "items", VArr [video_without_statistics])])
  = Throw (TypeError (ReadOfNullish VUndefined (lit "viewCount"))) /\
  lacks (read channel_without_statistics (lit "statistics"))
    (lit "subscriberCount") /\
  channelInfoOf (VObj [(lit "items", VArr [channel_without_statistics])])
  = Throw (TypeError (ReadOfNullish VUndefined (lit "subscriberCount"))).
Proof. repeat split; vm_compute; reflexivity. Qed.

(** C5, amended.  In an item that has the parts the mapper reads
    ([snippet], [statistics] and [contentDetails] of a video, [snippet]
    and [statistics] of a channel, [id] and [snippet] of a search result),
    an absent optional field comes out as its sentinel, each field on its
    own.  Video details: [viewCount], [likeCount] and [commentCount] are
    ["N/A"], [tags] is the empty sequence and [thumbnailUrl] is [""].
    Channel info: [customUrl] and [thumbnailUrl] are [""],
    [subscriberCount] is ["hidden"], [videoCount] and [viewCount] are ["0"]
    and [country] is ["N/A"].  Search results: [thumbnailUrl] is [""].
    In each case the mapper does return a record. *)
Theorem defaults_of_absent_fields :
  (forall data item rest,
      get data (lit "items") = Ok (VArr (item :: rest)) ->
      has item (lit "snippet") ->
      has item (lit "statistics") ->
      has item (lit "contentDetails") ->
      let snippet := read item (lit "snippet") in
      let statistics := read item (lit "statistics") in
      exists r,
        videoDetailsOf data = Ok r /\
        (lacks statistics (lit "viewCount") ->
         VideoDetails.viewCount r = VStr (lit "N/A")) /\
        (lacks statistics (lit "likeCount") ->
         VideoDetails.likeCount r = VStr (lit "N/A")) /\
        (lacks statistics (lit "commentCount") ->
         VideoDetails.commentCount r = VStr (lit "N/A")) /\
        (lacks snippet (lit "tags") -> VideoDetails.tags r = VArr []) /\
        (lacks_thumbnail snippet ->
         VideoDetails.thumbnailUrl r = VStr (lit "")))
  /\
  (forall data item rest,
      get data (lit "items") = Ok (VArr (item :: rest)) ->
      has item (lit "snippet") ->
      has item (lit "statistics") ->
      let snippet := read item (lit "snippet") in
      let statistics := read item (lit "statistics") in
      exists r,
        channelInfoOf data = Ok r /\
        (lacks snippet (lit "customUrl") ->
         ChannelInfo.customUrl r = VStr (lit "")) /\
        (lacks_thumbnail snippet ->
         ChannelInfo.thumbnailUrl r = VStr (lit "")) /\
        (lacks statistics (lit "subscriberCount") ->
         ChannelInfo.subscriberCount r = VStr (lit "hidden")) /\
        (lacks statistics (lit "videoCount") ->
         ChannelInfo.videoCount r = VStr (lit "0")) /\
        (lacks statistics (lit "viewCount") ->
         ChannelInfo.viewCount r = VStr (lit "0")) /\
        (lacks snippet (lit "country") ->
         ChannelInfo.country r = VStr (lit "N/A")))
  /\
  (forall item,
      has item (lit "id") ->
      has item (lit "snippet") ->
      exists r,
        searchResultOf item = Ok r /\
        (lacks_thumbnail (read item (lit "snippet")) ->
         SearchResult.thumbnailUrl r = VStr (lit ""))).
Proof.
  split; [|split].
  - intros data item rest Hitems Hsn Hst Hcd. cbv zeta.
    unfold videoDetailsOf. enter_first_item Hitems.
    rewrite (thumbnail_read item Hsn).
    read_part Hsn. read_part Hst. read_part Hcd.
    eexists; split; [reflexivity|].
    cbn [VideoDetails.viewCount VideoDetails.likeCount
         VideoDetails.commentCount VideoDetails.tags
         VideoDetails.thumbnailUrl].
    repeat (split; [default_of_lacking|]).
    default_of_lacking.
  - intros data item rest Hitems Hsn Hst. cbv zeta.
    assert (Hid : nullish item = false)
      by (destruct item; try reflexivity; discriminate Hsn).
    unfold channelInfoOf. enter_first_item Hitems.
    rewrite (thumbnail_read item Hsn), (get_read item (lit "id") Hid).
    cbn [obind]. read_part Hsn. read_part Hst.
    eexists; split; [reflexivity|].
    cbn [ChannelInfo.customUrl ChannelInfo.thumbnailUrl
         ChannelInfo.subscriberCount ChannelInfo.videoCount
         ChannelInfo.viewCount ChannelInfo.country].
    repeat (split; [default_of_lacking|]).
    default_of_lacking.
  - intros item Hid Hsn.
    unfold searchResultOf.
    rewrite (thumbnail_read item Hsn).
    read_part Hid. read_part Hsn.
    eexists; split; [reflexivity|].
    cbn [SearchResult.thumbnailUrl].
    default_of_lacking.
Qed.

(** An item without [likeCount], [tags] and thumbnails, and one whose
    statistics are not an object. *)
Lemma defaults_of_absent_fields_witness :
  (exists r,
      videoDetailsOf (VObj [(lit "items", VArr [bare_video_item])]) = Ok r /\
      VideoDetails.likeCount r = VStr (lit "N/A") /\
      VideoDetails.tags r = VArr [] /\
      VideoDetails.thumbnailUrl r = VStr (lit "")) /\
  (exists r,
      channelInfoOf
        (VObj [(lit "items",
                 VArr [VObj [(lit "snippet", VObj channel_snippet);
                             (lit "statistics", VStr (lit "none"))]])])
      = Ok r /\
      ChannelInfo.subscriberCount r = VStr (lit "hidden")).
Proof.
  split.
  - destruct (proj1 defaults_of_absent_fields
                (VObj [(lit "items", VArr [bare_video_item])])
                bare_video_item [] eq_refl eq_refl eq_refl eq_refl)
      as (r & E & _ & Hlike & _ & Htags & Hthumb).
    exists r. split; [exact E|].
    split; [apply Hlike; reflexivity|].
    split; [apply Htags; reflexivity|].
    apply Hthumb. left. reflexivity.
  - destruct (proj1 (proj2 defaults_of_absent_fields)
                (VObj [(lit "items",
                         VArr [VObj [(lit "snippet", VObj channel_snippet);
                                     (lit "statistics", VStr (lit "none"))]])])
                (VObj [(lit "snippet", VObj channel_snippet);
                       (lit "statistics", VStr (lit "none"))])
                [] eq_refl eq_refl eq_refl)
      as (r & E & _ & _ & Hsub & _).
    exists r. split; [exact E|]. apply Hsub. reflexivity.
Defined.

(** ** Tool calls *)

Lemma requests_pure (A : Type) (env : environment) (x : io A) :
  pure_io x -> requests env x = [].
Proof. now intros [r ->]. Qed.

(** The shape of the four API handlers: one call, then pure steps. *)
Lemma requests_try_bind (A B : Type) (env : environment) (x : io A)
  (f : A -> io B) (h : exn -> io B) :
  (forall a, pure_io (f a)) -> (forall e, pure_io (h e)) ->
  requests env (try_catch (x' <- x ;; f x') h) = requests env x.
Proof.
  intros Hf Hh. unfold requests at 1. rewrite run_try_catch.
  unfold result at 1, requests at 1 2. rewrite run_bind.
  destruct (result env x) as [a|e]; cbn [fst snd].
  - destruct (Hf a) as [[b|e] E]; rewrite E; cbn [result run snd fst requests].
    + now rewrite app_nil_r.
    + rewrite (requests_pure _ env (h e) (Hh e)). now rewrite !app_nil_r.
  - rewrite (requests_pure _ env (h e) (Hh e)). now rewrite app_nil_r.
Qed.

Lemma requests_tool (A : Type) (env : environment) (inputSchema : schema A)
  (handler : A -> io tool_result) (args : jsvalue) :
  requests env (tool inputSchema handler args) =
  match inputSchema args with
  | Some a => requests env (handler a)
  | None => []
  end.
Proof.
  unfold tool. destruct (inputSchema args) as [a|]; [|reflexivity].
  unfold requests at 1. rewrite run_bind.
  destruct (result env (handler a)); cbn [fst]; [|reflexivity].
  apply app_nil_r.
Qed.

(** What [z.number().min(lo).max(hi).optional()] lets through. *)
Lemma bounded_optional_number (lo hi : Q) (v : jsvalue) (n : option Q) :
  z_optional (z_max hi (z_min lo z_number)) v = Some n ->
  match n with
  | Some q => v = VNum q /\ (lo <= q)%Q /\ (q <= hi)%Q
  | None => v = VUndefined
  end.
Proof.
  unfold z_optional, z_max, z_min, z_number.
  destruct v as [| |b|q|s|l|fs]; cbn [option_map]; try discriminate.
  - now intros [= <-].
  - destruct (Qle_bool lo q) eqn:Lo; [|discriminate].
    destruct (Qle_bool q hi) eqn:Hi; [|discriminate].
    cbn [option_map]. intros [= <-].
    apply Qle_bool_iff in Lo, Hi. auto.
Qed.

Lemma out_of_bounds_rejected (lo hi q : Q) :
  (q < lo \/ hi < q)%Q ->
  z_optional (z_max hi (z_min lo z_number)) (VNum q) = None.
Proof.
  intros H.
  destruct (z_optional (z_max hi (z_min lo z_number)) (VNum q)) as [n|] eqn:E;
    [|reflexivity].
  apply bounded_optional_number in E.
  destruct n as [q'|]; [|discriminate].
  destruct E as ([= <-] & Lo & Hi).
  destruct H as [H|H]; [apply Qlt_not_le in H|apply Qlt_not_le in H];
    contradiction.
Qed.

Lemma search_args_bounds (args : jsvalue) (a : SearchVideos.args) :
  SearchVideos.inputSchema args = Some a ->
  (1 <= or_default (SearchVideos.maxResults a) 5 <= 25)%Q.
Proof.
  unfold SearchVideos.inputSchema, field.
  destruct args as [| |b|q|s|l|fs]; try discriminate.
  destruct (z_string (lookup (lit "query") fs)) as [query|]; [|discriminate].
  destruct (z_optional _ (lookup (lit "maxResults") fs)) as [n|] eqn:E;
    [|discriminate].
  intros [= <-]. cbn [SearchVideos.maxResults].
  apply bounded_optional_number in E.
  destruct n as [q|]; cbn [or_default].
  - tauto.
  - split; discriminate.
Qed.

Lemma comments_args_bounds (args : jsvalue) (a : GetVideoComments.args) :
  GetVideoComments.inputSchema args = Some a ->
  (1 <= or_default (GetVideoComments.maxResults a) 20 <= 100)%Q.
Proof.
  unfold GetVideoComments.inputSchema, field.
  destruct args as [| |b|q|s|l|fs]; try discriminate.
  destruct (z_string (lookup (lit "url") fs)) as [url|]; [|discriminate].
  destruct (z_optional _ (lookup (lit "maxResults") fs)) as [n|] eqn:E;
    [|discriminate].
  intros [= <-]. cbn [GetVideoComments.maxResults].
  apply bounded_optional_number in E.
  destruct n as [q|]; cbn [or_default].
  - tauto.
  - split; discriminate.
Qed.

Ltac pure_steps := intros; eexists; reflexivity.

Section ToolProperties.
Variable YOUTUBE_API_KEY : jsstring.
Variable String_of_number : Q -> jsstring.
Variable type_error_message : type_error -> jsstring.
Variable stringify_details : VideoDetails.t -> jsstring.
Variable stringify_results : list SearchResult.t -> jsstring.
Variable stringify_info : ChannelInfo.t -> jsstring.
Variable stringify_comments : list Comment.t -> jsstring.

Let search_videos' : jsvalue -> io call_result :=
  search_videos YOUTUBE_API_KEY String_of_number type_error_message
    stringify_results.
Let get_video_comments' : jsvalue -> io call_result :=
  get_video_comments YOUTUBE_API_KEY String_of_number type_error_message
    stringify_comments.

(** C4.  The bounds on [maxResults] hold at the tool boundary.  A call of
    [search_videos] whose [maxResults] is a number outside 1..25 (30, say)
    is rejected without any request, and so is a call of
    [get_video_comments] outside 1..100; and whatever the arguments, a
    request these tools issue carries a [maxResults] parameter that is the
    text of a number within the bounds, as [searchParams.set] stores it. *)
Theorem maxResults_bounds_enforced :
  (forall (args : list (jsstring * jsvalue)) (q : Q),
      lookup (lit "maxResults") args = VNum q -> (q < 1 \/ 25 < q)%Q ->
      search_videos' (VObj args) = ret InvalidParams) /\
  (forall (args : list (jsstring * jsvalue)) (q : Q),
      lookup (lit "maxResults") args = VNum q -> (q < 1 \/ 100 < q)%Q ->
      get_video_comments' (VObj args) = ret InvalidParams) /\
  (forall (env : environment) (args : jsvalue) (u : Url.t),
      In (HttpGet u) (requests env (search_videos' args)) ->
      exists n, (1 <= n <= 25)%Q /\
                In (lit "maxResults", usv (String_of_number n))
                  (Url.searchParams u)) /\
  (forall (env : environment) (args : jsvalue) (u : Url.t),
      In (HttpGet u) (requests env (get_video_comments' args)) ->
      exists n, (1 <= n <= 100)%Q /\
                In (lit "maxResults", usv (String_of_number n))
                  (Url.searchParams u)).
Proof.
  unfold search_videos', get_video_comments', search_videos, get_video_comments.
  split; [|split; [|split]].
  - intros args q E H. unfold tool, SearchVideos.inputSchema, field.
    rewrite E, (out_of_bounds_rejected _ _ _ H).
    now destruct (z_string _).
  - intros args q E H. unfold tool, GetVideoComments.inputSchema, field.
    rewrite E, (out_of_bounds_rejected _ _ _ H).
    now destruct (z_string _).
  - intros env args u. rewrite requests_tool.
    destruct (SearchVideos.inputSchema args) as [a|] eqn:E; [|intros []].
    unfold search_videos_handler, searchVideos.
    rewrite requests_try_bind by pure_steps.
    rewrite api_call_requests. intros [[= <-]|[]].
    exists (or_default (SearchVideos.maxResults a) 5%Q). split.
    + exact (search_args_bounds args a E).
    + rewrite search_request_url. cbn [Url.searchParams In]. auto 10.
  - intros env args u. rewrite requests_tool.
    destruct (GetVideoComments.inputSchema args) as [a|] eqn:E; [|intros []].
    unfold get_video_comments_handler.
    destruct (extractVideoId (GetVideoComments.url a)) as [[|c videoId]|];
      try (intros []).
    unfold getVideoComments.
    rewrite requests_try_bind by pure_steps.
    rewrite api_call_requests. intros [[= <-]|[]].
    exists (or_default (GetVideoComments.maxResults a) 20%Q). split.
    + exact (comments_args_bounds args a E).
    + rewrite commentThreads_request_url. cbn [Url.searchParams In]. auto 10.
Qed.


End ToolProperties.

(** [search_videos] called with [maxResults = 30]. *)
Lemma maxResults_bounds_enforced_witness :
  search_videos (lit "KEY") (fun _ => lit "n") (fun _ => lit "TypeError")
    (fun _ => lit "[]")
    (VObj [(lit "query", VStr (lit "cats")); (lit "maxResults", VNum 30)])
  = ret InvalidParams.
Proof.
  apply (proj1 (maxResults_bounds_enforced (lit "KEY") (fun _ => lit "n")
                  (fun _ => lit "TypeError") (fun _ => lit "[]")
                  (fun _ => lit "[]")))
    with (q := 30%Q); [reflexivity|right; reflexivity].
Defined.


(** * Further properties of the code *)

(** ** Trimming *)

Lemma drop_while_app_all (p : char -> bool) (a b : jsstring) :
  forallb p a = true -> drop_while p (a ++ b) = drop_while p b.
Proof.
  induction a as [|c a IH]; cbn [forallb app drop_while]; [reflexivity|].
  intros H. apply andb_prop in H as [-> H]. auto.
Qed.

Lemma drop_while_split (p : char -> bool) (s : jsstring) :
  exists w, s = w ++ drop_while p s /\ forallb p w = true.
Proof.
  induction s as [|c s (w & E & W)]; cbn [drop_while].
  - now exists [].
  - destruct (p c) eqn:Hc.
    + exists (c :: w). cbn [app forallb]. now rewrite Hc, W, <- E.
    + now exists [].
Qed.

Lemma drop_while_head (p : char -> bool) (s t : jsstring) (c : char) :
  drop_while p s = c :: t -> p c = false.
Proof.
  induction s as [|x s IH]; cbn [drop_while]; [discriminate|].
  destruct (p x) eqn:Hx; [exact IH|].
  now intros [= <- _].
Qed.

Lemma drop_while_stuck (p : char -> bool) (s x t : jsstring) (c : char) :
  drop_while p s = c :: t -> drop_while p (s ++ x) = (c :: t) ++ x.
Proof.
  induction s as [|y s IH]; cbn [drop_while app]; [discriminate|].
  destruct (p y); [exact IH|].
  now intros [= -> ->].
Qed.

Lemma trimEnd_app_blank (x w : jsstring) :
  forallb white_space w = true -> trimEnd (x ++ w) = trimEnd x.
Proof.
  intros W. unfold trimEnd. rewrite rev_app_distr.
  rewrite drop_while_app_all; [reflexivity|].
  rewrite forallb_forall in *. intros c Hc. apply W. now apply in_rev.
Qed.

Lemma trimEnd_cons (c : char) (t : jsstring) :
  white_space c = false -> exists t', trimEnd (c :: t) = c :: t'.
Proof.
  intros Hc. unfold trimEnd. cbn [rev].
  destruct (drop_while white_space (rev t)) as [|d u] eqn:E.
  - destruct (drop_while_split white_space (rev t)) as (w & Ew & W).
    rewrite E, app_nil_r in Ew. rewrite Ew.
    rewrite drop_while_app_all by exact W.
    cbn [drop_while]. rewrite Hc. now exists [].
  - rewrite (drop_while_stuck _ _ [c] _ _ E).
    rewrite rev_app_distr. cbn [rev app]. eauto.
Qed.

(** Blanks around a text do not change what it trims to. *)
Lemma trim_padded (w1 s w2 : jsstring) :
  forallb white_space w1 = true -> forallb white_space w2 = true ->
  trim (w1 ++ s ++ w2) = trim s.
Proof.
  intros W1 W2. unfold trim, trimStart.
  rewrite drop_while_app_all by exact W1.
  destruct (drop_while white_space s) as [|c t] eqn:E.
  - destruct (drop_while_split white_space s) as (w & Ew & W).
    rewrite E, app_nil_r in Ew. subst w.
    rewrite drop_while_app_all by exact W.
    now rewrite (drop_while_all _ _ W2).
  - rewrite (drop_while_stuck _ _ w2 _ _ E).
    now apply trimEnd_app_blank.
Qed.

(** A text is its trimmed part between two runs of blanks. *)
Lemma trim_split (s : jsstring) :
  exists w1 w2,
    s = w1 ++ trim s ++ w2 /\
    forallb white_space w1 = true /\ forallb white_space w2 = true.
Proof.
  destruct (drop_while_split white_space s) as (w1 & E1 & W1).
  destruct (drop_while_split white_space (rev (drop_while white_space s)))
    as (w2 & E2 & W2).
  exists w1, (rev w2). split; [|split].
  - unfold trim, trimEnd, trimStart.
    rewrite <- rev_app_distr, <- E2, rev_involutive. exact E1.
  - exact W1.
  - rewrite forallb_forall in *. intros c Hc. apply W2. now apply in_rev.
Qed.

Lemma trim_involutive (s : jsstring) : trim (trim s) = trim s.
Proof.
  destruct (trim_split s) as (w1 & w2 & E & W1 & W2).
  rewrite E at 2. symmetry. now apply trim_padded.
Qed.

Lemma printable_not_blank (c : char) :
  (33 <= c <= 126)%N -> white_space c = false.
Proof.
  intros H. unfold white_space, line_terminator, char_in.
  repeat match goal with
         | |- context [(c =? ?k)%N] =>
             rewrite (proj2 (N.eqb_neq c k)) by lia
         end.
  rewrite (proj2 (N.leb_gt 8192 c)) by lia. reflexivity.
Qed.

Lemma idchar_range (c : char) : idchar c = true -> (33 <= c <= 126)%N.
Proof.
  unfold idchar, char_in.
  rewrite !orb_true_iff, !andb_true_iff, !N.leb_le, !N.eqb_eq. lia.
Qed.

Lemma trim_fixed (s : jsstring) :
  (forall c, In c s -> white_space c = false) -> trim s = s.
Proof.
  intros H. unfold trim, trimEnd, trimStart.
  assert (D : forall t, (forall c, In c t -> white_space c = false) ->
                        drop_while white_space t = t).
  { intros [|c t] Ht; cbn [drop_while]; [reflexivity|].
    now rewrite (Ht c (or_introl eq_refl)). }
  rewrite (D s H), D, rev_involutive; [reflexivity|].
  intros c Hc. apply H. now apply in_rev.
Qed.

Lemma trim_video_id (s : jsstring) : is_video_id s = true -> trim s = s.
Proof.
  intros V. apply is_video_id_spec in V as [_ V].
  apply trim_fixed. intros c Hc.
  apply printable_not_blank, idchar_range.
  rewrite forallb_forall in V. auto.
Qed.

(** X1.  Blanks before and after the input are ignored by both parsers:
    padding an input with whitespace or line terminators changes neither
    the video ID nor the channel identifier extracted from it. *)
Theorem parsers_ignore_padding (w1 w2 s : jsstring) :
  forallb white_space w1 = true -> forallb white_space w2 = true ->
  extractVideoId (w1 ++ s ++ w2) = extractVideoId s /\
  extractChannelIdentifier (w1 ++ s ++ w2) = extractChannelIdentifier s.
Proof.
  intros W1 W2. unfold extractVideoId, extractChannelIdentifier.
  now rewrite (trim_padded w1 s w2 W1 W2).
Qed.

Lemma parsers_ignore_padding_witness :
  extractVideoId ([9; 32] ++ lit "https://youtu.be/dQw4w9WgXcQ" ++ [13; 10])%N
  = extractVideoId (lit "https://youtu.be/dQw4w9WgXcQ") /\
  extractChannelIdentifier ([9; 32] ++ lit "https://youtu.be/dQw4w9WgXcQ" ++ [13; 10])%N
  = extractChannelIdentifier (lit "https://youtu.be/dQw4w9WgXcQ").
Proof.
  exact (parsers_ignore_padding [9; 32]%N [13; 10]%N
           (lit "https://youtu.be/dQw4w9WgXcQ") eq_refl eq_refl).
Defined.

(** X2.  A video ID is a fixed point of the parser: whatever
    [extractVideoId] returns for some input, it returns again when given
    that result as input. *)
Theorem extractVideoId_idempotent (input r : jsstring) :
  extractVideoId input = Some r -> extractVideoId r = Some r.
Proof.
  intros H. apply extractVideoId_some in H.
  unfold extractVideoId; cbv zeta.
  now rewrite (trim_video_id r H), test_RAW_ID, H.
Qed.

Lemma extractVideoId_idempotent_witness :
  extractVideoId (lit "dQw4w9WgXcQ") = Some (lit "dQw4w9WgXcQ").
Proof.
  apply (extractVideoId_idempotent
           (lit "https://www.youtube.com/embed/dQw4w9WgXcQ?rel=0")).
  vm_compute. reflexivity.
Defined.

(** ** Results come from the input *)

Lemma infix_of_trans (a b c : jsstring) :
  infix_of a b -> infix_of b c -> infix_of a c.
Proof.
  intros (x & y & ->) (u & v & ->).
  exists (u ++ x), (y ++ v). now rewrite <- !app_assoc.
Qed.

Lemma infix_of_trim (s : jsstring) : infix_of (trim s) s.
Proof. destruct (trim_split s) as (w1 & w2 & E & _). now exists w1, w2. Qed.

(** A match only moves forward in the text. *)
Lemma m_suffix (n0 : nat) (A : Type) (r : regex) :
  forall (s : jsstring) (c : option jsstring)
         (k : jsstring -> option jsstring -> option A) (a : A),
    m n0 r s c k = Some a ->
    exists pre s' c', s = pre ++ s' /\ k s' c' = Some a.
Proof.
  induction r as [l|p|p|p n|r IH|r IH|r1 IH1 r2 IH2| |];
    cbn [m]; intros s c k a H.
  - destruct (strip l s) as [s'|] eqn:E; [|discriminate].
    apply strip_inv in E. eauto.
  - apply star_inv in H as (pre & s' & E & _ & H). eauto.
  - destruct s as [|x s]; [discriminate|].
    destruct (p x); [|discriminate].
    apply star_inv in H as (pre & s' & -> & _ & H).
    exists (x :: pre), s', c. auto.
  - destruct (count p n s) as [s'|] eqn:E; [|discriminate].
    apply count_inv in E as (pre & E & _). eauto.
  - apply IH in H as (pre & s' & c' & E & H). eauto.
  - eauto.
  - apply IH1 in H as (pre1 & s1 & c1 & -> & H).
    apply IH2 in H as (pre2 & s2 & c2 & -> & H).
    exists (pre1 ++ pre2), s2, c2. now rewrite <- app_assoc.
  - destruct (Nat.eqb _ _); [|discriminate]. exists [], s, c. auto.
  - destruct s; [|discriminate]. exists [], [], c. auto.
Qed.

Lemma match_at_id_group_infix (n0 : nat) (r : regex) (s : jsstring)
  (a : match_array) :
  match_at n0 (r +++ Group (Count idchar 11)) s = Some a ->
  exists g, group1 a = Some g /\ infix_of g s.
Proof.
  unfold match_at; cbn [m]. intros H.
  apply m_suffix in H as (pre & s' & c' & -> & H). cbv beta in H.
  destruct (count idchar 11 s') as [s''|] eqn:E; [|discriminate].
  inversion H; subst a; cbn [group1].
  apply count_inv in E as (g & -> & _).
  exists g. rewrite consumed_app. split; [reflexivity|].
  now exists pre, s''.
Qed.

Lemma first_match_infix (ps : list regex) (s g : jsstring) :
  Forall ends_in_id_group ps -> first_match ps s = Some g -> infix_of g s.
Proof.
  induction 1 as [|p ps [r ->] _ IH]; cbn [first_match]; [discriminate|].
  destruct (exec _ s) as [a|] eqn:E; [|exact IH].
  unfold exec in E. apply search_inv in E as (pre & s' & -> & E).
  apply match_at_id_group_infix in E as (g' & -> & I).
  intros [= <-]. apply (infix_of_trans _ _ _ I). now exists pre, [];
    rewrite app_nil_r.
Qed.

(** X3.  The parser never makes an ID up: a video ID returned by
    [extractVideoId] occurs, character for character, in the input. *)
Theorem extractVideoId_occurs_in_input (input r : jsstring) :
  extractVideoId input = Some r -> infix_of r input.
Proof.
  unfold extractVideoId; cbv zeta. intros H.
  apply (infix_of_trans _ (trim input)); [|apply infix_of_trim].
  destruct (test RAW_ID (trim input)).
  - inversion H; subst. exists [], []. now rewrite app_nil_r.
  - exact (first_match_infix _ _ _ VIDEO_ID_PATTERNS_shape H).
Qed.

Lemma extractVideoId_occurs_in_input_witness :
  infix_of (lit "dQw4w9WgXcQ") (lit " https://youtu.be/dQw4w9WgXcQ?t=1 ").
Proof.
  apply (extractVideoId_occurs_in_input
           (lit " https://youtu.be/dQw4w9WgXcQ?t=1 ")).
  vm_compute. reflexivity.
Defined.

(** ** Channel and handle URLs *)

Lemma star_cons (A : Type) (p : char -> bool) (c : char) (s : jsstring)
  (k : jsstring -> option A) :
  star p (c :: s) k =
  if p c then
    match star p s k with
    | Some a => Some a
    | None => k (c :: s)
    end
  else k (c :: s).
Proof. reflexivity. Qed.

Lemma star_greedy (A : Type) (p : char -> bool) (s : jsstring)
  (k : jsstring -> option A) :
  (forall s', k s' <> None) -> star p s k = k (drop_while p s).
Proof.
  intros K. induction s as [|c s IH]; [reflexivity|].
  rewrite star_cons. cbn [drop_while].
  destruct (p c); [|reflexivity].
  rewrite IH. destruct (k (drop_while p s)) eqn:E; [reflexivity|].
  now apply K in E.
Qed.

Lemma take_drop_while (p : char -> bool) (s : jsstring) :
  s = take_while p s ++ drop_while p s.
Proof.
  induction s as [|c s IH]; cbn [take_while drop_while]; [reflexivity|].
  destruct (p c); [|reflexivity]. cbn [app]. now rewrite <- IH.
Qed.

Lemma take_while_all (p : char -> bool) (s : jsstring) :
  forallb p (take_while p s) = true.
Proof.
  induction s as [|c s IH]; cbn [take_while]; [reflexivity|].
  destruct (p c) eqn:Hc; [|reflexivity]. cbn [forallb]. now rewrite Hc.
Qed.

(** A literal followed by [(c+)] as the whole pattern: the capture is the
    longest run of the class after the literal. *)
Lemma literal_run_hit (n0 : nat) (l : jsstring) (p : char -> bool)
  (c : char) (rest : jsstring) :
  p c = true ->
  match_at n0 (Chars l +++ Group (Plus p)) (l ++ c :: rest)
  = Some {| whole := l ++ c :: take_while p rest;
            group1 := Some (c :: take_while p rest) |}.
Proof.
  intros Hc. unfold match_at; cbn [m].
  rewrite strip_app, Hc, star_greedy by discriminate.
  f_equal. f_equal.
  - rewrite (take_drop_while p rest) at 1.
    change (l ++ c :: take_while p rest ++ drop_while p rest)
      with (l ++ (c :: take_while p rest) ++ drop_while p rest).
    now rewrite app_assoc, consumed_app.
  - f_equal. rewrite (take_drop_while p rest) at 1.
    apply (consumed_app (c :: take_while p rest)).
Qed.

Lemma literal_starts_with_youtu (l : jsstring) (r : regex) :
  firstn 5 l = lit "youtu" -> starts_with_youtu (Chars l +++ r).
Proof.
  intros E n0 s H. unfold match_at; cbn [m].
  rewrite (strip_of_prefix 5 l s); [reflexivity|].
  now rewrite E.
Qed.

Lemma exec_before_youtu (p : regex) (pre rest : jsstring) (a : match_array) :
  starts_with_youtu p -> includes pre (lit "youtu") = false ->
  (forall n0, match_at n0 p (lit "youtu" ++ rest) = Some a) ->
  exec p (pre ++ lit "youtu" ++ rest) = Some a.
Proof.
  intros Hp Hpre Hm. unfold exec.
  rewrite search_skip.
  - change (lit "youtu" ++ rest) with (121%N :: skipn 1 (lit "youtu") ++ rest).
    rewrite search_cons. now rewrite (Hm _).
  - intros x b Hb ->. apply Hp. apply youtu_no_straddle; [exact Hb|].
    exact (includes_false_tail x b _ Hpre).
Qed.

Lemma exec_without_literal (l : jsstring) (r : regex) (s : jsstring) :
  includes s l = false -> exec (Chars l +++ r) s = None.
Proof.
  intros H. unfold exec. apply search_none. intros a b ->.
  unfold match_at; cbn [m].
  now rewrite (includes_false_inv a b l H).
Qed.

(** X4.  A channel URL yields the channel ID that follows [/channel/]: for
    an input that trims to some text without [youtu], then
    [youtube.com/channel/], then at least one ID character, the result is
    tagged [id] and its value is the longest run of ID characters there,
    whatever follows it. *)
Theorem extractChannelIdentifier_channel_url
  (input pre rest : jsstring) (c : char) :
  trim input = pre ++ lit "youtube.com/channel/" ++ c :: rest ->
  includes pre (lit "youtu") = false ->
  idchar c = true ->
  extractChannelIdentifier input
  = Some {| type := TId; value := c :: take_while idchar rest |}.
Proof.
  intros T Hpre Hc. unfold extractChannelIdentifier; cbv zeta. rewrite T.
  change (lit "youtube.com/channel/" ++ c :: rest)
    with (lit "youtu" ++ lit "be.com/channel/" ++ c :: rest).
  rewrite (exec_before_youtu CHANNEL_URL pre _
             {| whole := lit "youtube.com/channel/" ++ c :: take_while idchar rest;
                group1 := Some (c :: take_while idchar rest) |}).
  - reflexivity.
  - now apply literal_starts_with_youtu.
  - exact Hpre.
  - intros n0. exact (literal_run_hit n0 _ idchar c rest Hc).
Qed.

Lemma extractChannelIdentifier_channel_url_witness :
  extractChannelIdentifier
    (lit " https://www.youtube.com/channel/UCBJycsmduvYEL83R_U4JriQ/videos?view=0")
  = Some {| type := TId; value := lit "UCBJycsmduvYEL83R_U4JriQ" |}.
Proof.
  apply (extractChannelIdentifier_channel_url _ (lit "https://www.")
           (lit "CBJycsmduvYEL83R_U4JriQ/videos?view=0") 85%N);
    vm_compute; reflexivity.
Defined.

(** X5.  A handle URL yields the handle with its [@]: for an input without
    [youtube.com/channel/] that trims to some text without [youtu], then
    [youtube.com/@], then at least one handle character, the result is
    tagged [handle] and its value is [@] followed by the longest run of
    handle characters (letters, digits, [_], [.], [-]) there. *)
Theorem extractChannelIdentifier_handle_url
  (input pre rest : jsstring) (c : char) :
  trim input = pre ++ lit "youtube.com/@" ++ c :: rest ->
  includes (trim input) (lit "youtube.com/channel/") = false ->
  includes pre (lit "youtu") = false ->
  handlechar c = true ->
  extractChannelIdentifier input
  = Some {| type := THandle;
            value := lit "@" ++ c :: take_while handlechar rest |}.
Proof.
  intros T Hno Hpre Hc. unfold extractChannelIdentifier; cbv zeta.
  unfold CHANNEL_URL. rewrite (exec_without_literal _ _ _ Hno).
  rewrite T.
  change (lit "youtube.com/@" ++ c :: rest)
    with (lit "youtu" ++ lit "be.com/@" ++ c :: rest).
  rewrite (exec_before_youtu HANDLE_URL pre _
             {| whole := lit "youtube.com/@" ++ c :: take_while handlechar rest;
                group1 := Some (c :: take_while handlechar rest) |}).
  - reflexivity.
  - now apply literal_starts_with_youtu.
  - exact Hpre.
  - intros n0. exact (literal_run_hit n0 _ handlechar c rest Hc).
Qed.

Lemma extractChannelIdentifier_handle_url_witness :
  extractChannelIdentifier (lit "https://youtube.com/@mkbhd/videos")
  = Some {| type := THandle; value := lit "@mkbhd" |}.
Proof.
  apply (extractChannelIdentifier_handle_url _ (lit "https://")
           (lit "kbhd/videos") 109%N);
    vm_compute; reflexivity.
Defined.

(** X6.  An input that is no URL is passed on as it is: when the trimmed
    input holds no [youtube.com/], the value of the result is the trimmed
    input itself, and the tag is [id] exactly when that text is 24
    characters long, starts with [UC] and does not start with [@]; it is
    [handle] otherwise. *)
Theorem extractChannelIdentifier_bare (input : jsstring) :
  includes (trim input) (lit "youtube.com/") = false ->
  extractChannelIdentifier input
  = Some {| type := if negb (startsWith (trim input) (lit "@"))
                       && startsWith (trim input) (lit "UC")
                       && Nat.eqb (length (trim input)) 24
                    then TId else THandle;
            value := trim input |}.
Proof.
  intros H. unfold extractChannelIdentifier; cbv zeta.
  assert (L : forall l r, firstn 12 l = lit "youtube.com/" ->
                          exec (Chars l +++ r) (trim input) = None).
  { intros l r E. unfold exec. apply search_none. intros a b Eb.
    unfold match_at; cbn [m].
    rewrite (strip_of_prefix 12 l b); [reflexivity|].
    rewrite E. rewrite Eb in H. exact (includes_false_inv a b _ H). }
  unfold CHANNEL_URL, HANDLE_URL.
  rewrite !L by reflexivity.
  destruct (startsWith (trim input) (lit "@")); [reflexivity|].
  cbn [negb andb].
  now destruct (startsWith (trim input) (lit "UC") && _).
Qed.

Lemma extractChannelIdentifier_bare_witness :
  extractChannelIdentifier (lit "UCBJycsmduvYEL83R_U4JriQ")
  = Some {| type := TId; value := lit "UCBJycsmduvYEL83R_U4JriQ" |} /\
  extractChannelIdentifier (lit " Marques Brownlee ")
  = Some {| type := THandle; value := lit "Marques Brownlee" |}.
Proof.
  split.
  - exact (extractChannelIdentifier_bare (lit "UCBJycsmduvYEL83R_U4JriQ") eq_refl).
  - exact (extractChannelIdentifier_bare (lit " Marques Brownlee ") eq_refl).
Defined.

(** ** The request of the API client *)

Lemma str_eqb_eq (a b : jsstring) : str_eqb a b = true <-> a = b.
Proof.
  revert b; induction a as [|x a IH]; intros [|y b]; cbn [str_eqb];
    try (split; (discriminate || reflexivity)).
  rewrite andb_true_iff, N.eqb_eq, IH. split.
  - now intros [-> ->].
  - now intros [= -> ->].
Qed.

Lemma str_eqb_neq (a b : jsstring) : a <> b -> str_eqb a b = false.
Proof.
  intros H. destruct (str_eqb a b) eqn:E; [|reflexivity].
  now apply str_eqb_eq in E.
Qed.

Lemma set_pairs_fresh (name v : jsstring) (ps : list (jsstring * jsstring)) :
  ~ In name (map fst ps) -> Url.set_pairs name v ps = ps ++ [(name, v)].
Proof.
  induction ps as [|[k x] ps IH]; cbn [Url.set_pairs map fst In app];
    intros H; [reflexivity|].
  rewrite str_eqb_neq by tauto. rewrite IH by tauto. reflexivity.
Qed.

Lemma fold_set_fresh (params acc : list (jsstring * jsstring)) (href : jsstring) :
  NoDup (map fst (map as_stored params)) ->
  (forall k, In k (map fst (map as_stored params)) -> ~ In k (map fst acc)) ->
  fold_left (fun u kv => Url.set (fst kv) (snd kv) u) params
    {| Url.href := href; Url.searchParams := acc |}
  = {| Url.href := href; Url.searchParams := acc ++ map as_stored params |}.
Proof.
  revert acc; induction params as [|[k v] params IH]; intros acc N D;
    cbn [fold_left map fst snd as_stored] in *.
  - now rewrite app_nil_r.
  - unfold Url.set at 2; cbn [Url.href Url.searchParams].
    rewrite set_pairs_fresh by (apply D; now left).
    inversion N as [|? ? Hk N']; subst.
    rewrite IH; [now rewrite <- app_assoc| exact N' |].
    intros k' Hk' Hin. rewrite map_app, in_app_iff in Hin.
    destruct Hin as [Hin|[<-|[]]]; [|contradiction].
    apply (D k'); [now right|exact Hin].
Qed.

(** X7.  The request carries the credential first and then the parameters
    in the order of [Object.entries], each as [searchParams.set] stores
    it: for an endpoint name made of letters, when the stored names are
    distinct and none of them is [key], the query of the URL that
    [youtubeApiFetch] requests is [key] with the API key, followed by the
    entries of the parameters. *)
Theorem youtubeApiFetch_query (env : environment) (endpoint : jsstring)
  (params : list (jsstring * jsstring)) (apiKey : jsstring) :
  let sent := map as_stored (entries params) in
  endpoint_name endpoint = true ->
  NoDup (map fst sent) -> ~ In (lit "key") (map fst sent) ->
  requests env (youtubeApiFetch endpoint params apiKey)
  = [HttpGet {| Url.href := YOUTUBE_API_BASE ++ lit "/" ++ endpoint;
                Url.searchParams := (lit "key", usv apiKey) :: sent |}].
Proof.
  intros sent _ N K. rewrite youtubeApiFetch_requests. unfold request_url.
  unfold Url.set at 2, Url.make; cbn [Url.href Url.searchParams Url.set_pairs].
  rewrite fold_set_fresh; [reflexivity|exact N|].
  intros k Hk [<-|[]]. contradiction.
Qed.

(** The parameters [b], [2], [a], [1] travel as [1], [2], [b], [a]. *)
Lemma youtubeApiFetch_query_witness :
  requests empty_upstream
    (youtubeApiFetch (lit "videos")
       [(lit "b", lit "x"); (lit "2", lit "y"); (lit "a", [55357%N]);
        (lit "1", lit "z")] (lit "KEY"))
  = [HttpGet {| Url.href := lit "https://www.googleapis.com/youtube/v3/videos";
                Url.searchParams :=
                  [(lit "key", lit "KEY"); (lit "1", lit "z");
                   (lit "2", lit "y"); (lit "b", lit "x");
                   (lit "a", [65533%N])] |}].
Proof.
  apply (youtubeApiFetch_query empty_upstream (lit "videos")
           [(lit "b", lit "x"); (lit "2", lit "y"); (lit "a", [55357%N]);
            (lit "1", lit "z")] (lit "KEY")).
  - reflexivity.
  - repeat constructor; cbn [In]; intros H;
      repeat (destruct H as [H|H]; [discriminate H|]); exact H.
  - intros H. vm_compute in H.
    repeat (destruct H as [H|H]; [discriminate H|]); exact H.
Defined.

Lemma param_app (name : jsstring) (a b : list (jsstring * jsstring)) :
  param name (a ++ b) =
  match param name a with
  | Some v => Some v
  | None => param name b
  end.
Proof.
  induction a as [|[k v] a IH]; cbn [app param]; [reflexivity|].
  now destruct (str_eqb k name).
Qed.

Lemma param_remove (name other : jsstring) (ps : list (jsstring * jsstring)) :
  other <> name -> param other (Url.remove name ps) = param other ps.
Proof.
  intros H. unfold Url.remove.
  induction ps as [|[k v] ps IH]; cbn [filter fst param]; [reflexivity|].
  destruct (str_eqb k name) eqn:E; cbn [negb param].
  - apply str_eqb_eq in E. subst k.
    now rewrite (str_eqb_neq name other) by auto.
  - now rewrite IH.
Qed.

Lemma param_set_same (name v : jsstring) (ps : list (jsstring * jsstring)) :
  param name (Url.set_pairs name v ps) = Some v.
Proof.
  induction ps as [|[k x] ps IH]; cbn [Url.set_pairs param].
  - now rewrite (proj2 (str_eqb_eq name name) eq_refl).
  - destruct (str_eqb k name) eqn:E; cbn [param]; now rewrite E.
Qed.

Lemma param_set_other (name other v : jsstring)
  (ps : list (jsstring * jsstring)) :
  other <> name -> param other (Url.set_pairs name v ps) = param other ps.
Proof.
  intros H. induction ps as [|[k x] ps IH]; cbn [Url.set_pairs param].
  - now rewrite (str_eqb_neq name other) by auto.
  - destruct (str_eqb k name) eqn:E; cbn [param].
    + apply str_eqb_eq in E. subst k.
      rewrite (str_eqb_neq name other) by auto. now apply param_remove.
    + now rewrite IH.
Qed.

Lemma names_remove (name x : jsstring) (ps : list (jsstring * jsstring)) :
  In x (map fst (Url.remove name ps)) -> In x (map fst ps) /\ x <> name.
Proof.
  unfold Url.remove. rewrite !in_map_iff.
  intros ([k v] & <- & H). apply filter_In in H as [H E]. cbn [fst] in *.
  split; [now exists (k, v)|].
  intros ->. now rewrite (proj2 (str_eqb_eq name name) eq_refl) in E.
Qed.

Lemma names_remove_NoDup (name : jsstring) (ps : list (jsstring * jsstring)) :
  NoDup (map fst ps) -> NoDup (map fst (Url.remove name ps)).
Proof.
  unfold Url.remove.
  induction ps as [|[k v] ps IH]; cbn [filter map fst]; intros N;
    [constructor|].
  inversion N as [|? ? Hk N']; subst.
  destruct (negb (str_eqb k name)); cbn [map fst]; [|auto].
  constructor; [|auto]. intros H.
  apply Hk. rewrite in_map_iff in *. destruct H as (q & <- & H).
  apply filter_In in H as [H _]. eauto.
Qed.

Lemma names_set (name v x : jsstring) (ps : list (jsstring * jsstring)) :
  In x (map fst (Url.set_pairs name v ps)) -> In x (map fst ps) \/ x = name.
Proof.
  induction ps as [|[k y] ps IH]; cbn [Url.set_pairs map fst In].
  - intros [<-|[]]. now right.
  - destruct (str_eqb k name) eqn:E; cbn [map fst In].
    + intros [<-|H]; [now left; left|].
      apply names_remove in H. tauto.
    + intros [<-|H]; [now left; left|]. apply IH in H. tauto.
Qed.

Lemma names_set_NoDup (name v : jsstring) (ps : list (jsstring * jsstring)) :
  NoDup (map fst ps) -> NoDup (map fst (Url.set_pairs name v ps)).
Proof.
  induction ps as [|[k y] ps IH]; cbn [Url.set_pairs map fst]; intros N.
  - repeat constructor. intros [].
  - inversion N as [|? ? Hk N']; subst.
    destruct (str_eqb k name) eqn:E; cbn [map fst]; constructor.
    + intros H. apply names_remove in H as [_ H].
      apply str_eqb_eq in E. congruence.
    + now apply names_remove_NoDup.
    + intros H. apply names_set in H as [H| ->]; [contradiction|].
      now rewrite (proj2 (str_eqb_eq name name) eq_refl) in E.
    + auto.
Qed.

Lemma fold_set_param (name : jsstring) (params acc : list (jsstring * jsstring))
  (href : jsstring) :
  param name
    (Url.searchParams
       (fold_left (fun u kv => Url.set (fst kv) (snd kv) u) params
          {| Url.href := href; Url.searchParams := acc |}))
  = match param name (rev (map as_stored params)) with
    | Some v => Some v
    | None => param name acc
    end.
Proof.
  revert acc; induction params as [|[k v] params IH]; intros acc;
    cbn [fold_left rev map as_stored fst snd]; [reflexivity|].
  unfold Url.set at 2; cbn [Url.href Url.searchParams].
  rewrite IH, param_app. cbn [param as_stored fst snd].
  destruct (param name (rev (map as_stored params))); [reflexivity|].
  destruct (str_eqb (usv k) name) eqn:E.
  - apply str_eqb_eq in E. subst name. apply param_set_same.
  - apply param_set_other. intros ->.
    now rewrite (proj2 (str_eqb_eq (usv k) (usv k)) eq_refl) in E.
Qed.

Lemma fold_set_NoDup (params acc : list (jsstring * jsstring)) (href : jsstring) :
  NoDup (map fst acc) ->
  NoDup (map fst
           (Url.searchParams
              (fold_left (fun u kv => Url.set (fst kv) (snd kv) u) params
                 {| Url.href := href; Url.searchParams := acc |}))).
Proof.
  revert acc; induction params as [|[k v] params IH]; intros acc N;
    cbn [fold_left fst snd]; [exact N|].
  unfold Url.set at 2; cbn [Url.href Url.searchParams].
  apply IH. now apply names_set_NoDup.
Qed.

(** X8.  For an endpoint name made of letters and whatever the parameters,
    the URL that [youtubeApiFetch] requests never carries a name twice, and
    each name carries the value given last, names and values taken as
    [searchParams.set] stores them and the API key counting as a first
    [key] entry: a parameter named [key] replaces the credential, and of
    two names that become the same USVString the later entry stays. *)
Theorem youtubeApiFetch_last_value_wins (endpoint : jsstring)
  (params : list (jsstring * jsstring)) (apiKey : jsstring) :
  let query := Url.searchParams (request_url endpoint params apiKey) in
  endpoint_name endpoint = true ->
  NoDup (map fst query) /\
  forall name,
    param name query
    = param name (rev (map as_stored ((lit "key", apiKey) :: entries params))).
Proof.
  intros query _. subst query. unfold request_url.
  unfold Url.set at 2 4, Url.make; cbn [Url.href Url.searchParams Url.set_pairs].
  split.
  - apply fold_set_NoDup. repeat constructor. intros [].
  - intros name. rewrite fold_set_param. cbn [rev map].
    rewrite param_app. reflexivity.
Qed.

(** Two lone surrogates as names: one [U+FFFD] entry, with the value of
    the second. *)
Lemma youtubeApiFetch_last_value_wins_witness :
  param [65533%N]
    (Url.searchParams (request_url (lit "search") surrogate_params (lit "KEY")))
  = Some (lit "second").
Proof.
  rewrite (proj2 (youtubeApiFetch_last_value_wins (lit "search")
                    surrogate_params (lit "KEY") eq_refl) [65533%N]).
  reflexivity.
Defined.

(** ** The outcome of the API client *)

Lemma youtubeApiFetch_run (env : environment) (endpoint : jsstring)
  (params : list (jsstring * jsstring)) (apiKey : jsstring) :
  result env (youtubeApiFetch endpoint params apiKey) =
  match upstream env (request_url endpoint params apiKey) with
  | Throw e => Throw e
  | Ok res =>
      if Response.ok res then Response.json res
      else match Response.text res with
           | Ok body =>
               Throw (Error (lit "YouTube API error ("
                             ++ decimal (Response.status res)
                             ++ lit "): " ++ body))
           | Throw e => Throw e
           end
  end.
Proof.
  unfold youtubeApiFetch, fetch, result. cbv zeta.
  fold (request_url endpoint params apiKey).
  cbn [bind run].
  destruct (upstream env _) as [res|e]; [|reflexivity].
  cbn [bind]. destruct (Response.ok res); cbn [negb]; [reflexivity|].
  cbn [bind]. now destruct (Response.text res).
Qed.

(** X9.  What [youtubeApiFetch] makes of the answer.  A failure of the
    network is passed on; an answer whose status is not a success becomes
    the error "YouTube API error (<status>): <body>", and its body is not
    parsed; the parsed body of a success is returned as it is. *)
Theorem youtubeApiFetch_outcome (env : environment) (endpoint : jsstring)
  (params : list (jsstring * jsstring)) (apiKey : jsstring) :
  let u := request_url endpoint params apiKey in
  let r := result env (youtubeApiFetch endpoint params apiKey) in
  (forall e, upstream env u = Throw e -> r = Throw e) /\
  (forall res body,
      upstream env u = Ok res -> Response.ok res = false ->
      Response.text res = Ok body ->
      r = Throw (Error (lit "YouTube API error ("
                        ++ decimal (Response.status res)
                        ++ lit "): " ++ body))) /\
  (forall res,
      upstream env u = Ok res -> Response.ok res = true ->
      r = Response.json res).
Proof.
  cbv zeta. rewrite youtubeApiFetch_run.
  split; [|split].
  - now intros e ->.
  - now intros res body -> -> ->.
  - now intros res -> ->.
Qed.

Lemma youtubeApiFetch_outcome_witness :
  result
    (answering {| Response.ok := false; Response.status := 403;
                  Response.text := Ok (lit "quotaExceeded");
                  Response.json := Ok VNull |})
    (youtubeApiFetch (lit "search") [(lit "q", lit "cats")] (lit "KEY"))
  = Throw (Error (lit "YouTube API error (403): quotaExceeded")).
Proof.
  apply (proj1 (proj2 (youtubeApiFetch_outcome
                         (answering {| Response.ok := false;
                                       Response.status := 403;
                                       Response.text := Ok (lit "quotaExceeded");
                                       Response.json := Ok VNull |})
                         (lit "search") [(lit "q", lit "cats")] (lit "KEY")))
           {| Response.ok := false; Response.status := 403;
              Response.text := Ok (lit "quotaExceeded");
              Response.json := Ok VNull |} (lit "quotaExceeded"));
    reflexivity.
Defined.

(** ** More on the mappers *)

Lemma map_items_Forall2 (A : Type) (f : jsvalue -> outcome A)
  (l : list jsvalue) (rs : list A) :
  map_items f l = Ok rs <-> Forall2 (fun x r => f x = Ok r) l rs.
Proof.
  revert rs; induction l as [|x l IH]; intros rs; cbn [map_items].
  - split.
    + intros [= <-]. constructor.
    + intros H. now inversion H.
  - split.
    + destruct (f x) as [y|e] eqn:E; cbn [obind]; [|discriminate].
      destruct (map_items f l) as [ys|e] eqn:El; cbn [obind]; [|discriminate].
      intros [= <-]. constructor; [exact E|]. now apply IH.
    + intros H. inversion H as [|? r ? rs' E F]; subst.
      rewrite E. cbn [obind]. apply IH in F. now rewrite F.
Qed.

Lemma map_items_throw (A : Type) (f : jsvalue -> outcome A)
  (l : list jsvalue) (x : jsvalue) (e : exn) :
  In x l -> f x = Throw e -> exists e', map_items f l = Throw e'.
Proof.
  induction l as [|y l IH]; cbn [In map_items]; [intros []|].
  intros [<-|H] E.
  - rewrite E. cbn [obind]. eauto.
  - destruct (f y); cbn [obind]; [|eauto].
    destruct (IH H E) as [e' ->]. cbn [obind]. eauto.
Qed.

(** X10.  The search and the comments mappers are all or nothing.  On a
    response whose [items] is an array they return a list exactly when
    every item maps, and then the list has one record per item, in the
    order of the items; one item that does not map (no [snippet], say)
    makes the whole call fail. *)
Theorem list_mappers_all_or_nothing (data : jsvalue) (items : list jsvalue) :
  get data (lit "items") = Ok (VArr items) ->
  (forall rs, searchResultsOf data = Ok rs <->
              Forall2 (fun item r => searchResultOf item = Ok r) items rs) /\
  (forall rs, commentsOf data = Ok rs <->
              Forall2 (fun item r => commentOf item = Ok r) items rs) /\
  (forall item e, In item items -> searchResultOf item = Throw e ->
                  exists e', searchResultsOf data = Throw e') /\
  (forall item e, In item items -> commentOf item = Throw e ->
                  exists e', commentsOf data = Throw e').
Proof.
  intros H. unfold searchResultsOf, commentsOf. rewrite H.
  cbn [obind coalesce nullish call_map].
  split; [|split; [|split]].
  - intros rs. apply map_items_Forall2.
  - intros rs. apply map_items_Forall2.
  - intros item e. apply map_items_throw.
  - intros item e. apply map_items_throw.
Qed.

Lemma list_mappers_all_or_nothing_witness :
  exists e,
    searchResultsOf
      (VObj [(lit "items", VArr [whole_search_item; broken_search_item])])
    = Throw e.
Proof.
  refine (proj1 (proj2 (proj2
            (list_mappers_all_or_nothing
               (VObj [(lit "items", VArr [whole_search_item; broken_search_item])])
               [whole_search_item; broken_search_item] eq_refl)))
            broken_search_item
            (TypeError (ReadOfNullish VUndefined (lit "title"))) _ eq_refl).
  right. left. reflexivity.
Defined.

Lemma coalesce_present (v d : jsvalue) : nullish v = false -> v ?? d = v.
Proof. unfold coalesce. now intros ->. Qed.

Lemma get_nullish (v : jsvalue) (key : jsstring) :
  nullish v = true -> get v key = Throw (TypeError (ReadOfNullish v key)).
Proof. destruct v; cbn [nullish get]; (discriminate || reflexivity). Qed.

Ltac keep_present :=
  let P := fresh "P" in
  intros P; apply coalesce_present; exact P.

(** X11.  The two record mappers read the first item and nothing else:
    what follows it in [items] has no effect on the result. *)
Theorem record_mappers_read_first_item (data data' item : jsvalue)
  (rest : list jsvalue) :
  get data (lit "items") = Ok (VArr (item :: rest)) ->
  get data' (lit "items") = Ok (VArr [item]) ->
  videoDetailsOf data = videoDetailsOf data' /\
  channelInfoOf data = channelInfoOf data'.
Proof.
  intros H H'. unfold videoDetailsOf, channelInfoOf. rewrite H, H'.
  cbn [obind]. rewrite !length_of_array. cbn [obind length].
  rewrite !truthy_length. split; reflexivity.
Qed.

Lemma record_mappers_read_first_item_witness :
  videoDetailsOf (VObj [(lit "items", VArr [bare_video_item; VNull; VNum 3])])
  = videoDetailsOf (VObj [(lit "items", VArr [bare_video_item])]).
Proof.
  exact (proj1 (record_mappers_read_first_item
                  (VObj [(lit "items", VArr [bare_video_item; VNull; VNum 3])])
                  (VObj [(lit "items", VArr [bare_video_item])])
                  bare_video_item [VNull; VNum 3] eq_refl eq_refl)).
Defined.

(** The thumbnail of an item whose snippet is an object: the chain
    [thumbnails?.high?.url] read from that object. *)
Lemma thumbnail_of_snippet (item : jsvalue)
  (snippet : list (jsstring * jsvalue)) :
  part item (lit "snippet") snippet ->
  thumbnail_high_url item
  = Ok (read (read (read (VObj snippet) (lit "thumbnails")) (lit "high"))
          (lit "url")).
Proof.
  unfold part. intros H.
  assert (R : read item (lit "snippet") = VObj snippet)
    by (unfold read; now rewrite H).
  rewrite <- R. apply thumbnail_read. unfold has. now rewrite R.
Qed.

(** A thumbnail URL that is there is kept. *)
Lemma thumbnail_kept (snippet thumbnails high : list (jsstring * jsvalue))
  (d : jsvalue) :
  lookup (lit "thumbnails") snippet = VObj thumbnails ->
  lookup (lit "high") thumbnails = VObj high ->
  nullish (lookup (lit "url") high) = false ->
  read (read (read (VObj snippet) (lit "thumbnails")) (lit "high")) (lit "url")
    ?? d
  = lookup (lit "url") high.
Proof.
  intros E1 E2 N.
  change (read (VObj snippet) (lit "thumbnails"))
    with (lookup (lit "thumbnails") snippet).
  rewrite E1.
  change (read (VObj thumbnails) (lit "high"))
    with (lookup (lit "high") thumbnails).
  rewrite E2.
  change (read (VObj high) (lit "url")) with (lookup (lit "url") high).
  now apply coalesce_present.
Qed.

(** X12.  Video details are a projection of the first item.  The fields
    without a default are the upstream values as they are (undefined when
    missing), and a defaulted field keeps every upstream value that is
    neither missing nor null, an empty string or a zero included; the
    thumbnail is the [url] of [thumbnails.high] when these are objects and
    the URL is there. *)
Theorem videoDetailsOf_projection (data item : jsvalue) (rest : list jsvalue)
  (snippet statistics contentDetails : list (jsstring * jsvalue)) :
  get data (lit "items") = Ok (VArr (item :: rest)) ->
  part item (lit "snippet") snippet ->
  part item (lit "statistics") statistics ->
  part item (lit "contentDetails") contentDetails ->
  exists r,
    videoDetailsOf data = Ok r /\
    VideoDetails.title r = lookup (lit "title") snippet /\
    VideoDetails.description r = lookup (lit "description") snippet /\
    VideoDetails.channelTitle r = lookup (lit "channelTitle") snippet /\
    VideoDetails.channelId r = lookup (lit "channelId") snippet /\
    VideoDetails.publishedAt r = lookup (lit "publishedAt") snippet /\
    VideoDetails.duration r = lookup (lit "duration") contentDetails /\
    VideoDetails.categoryId r = lookup (lit "categoryId") snippet /\
    (nullish (lookup (lit "viewCount") statistics) = false ->
     VideoDetails.viewCount r = lookup (lit "viewCount") statistics) /\
    (nullish (lookup (lit "likeCount") statistics) = false ->
     VideoDetails.likeCount r = lookup (lit "likeCount") statistics) /\
    (nullish (lookup (lit "commentCount") statistics) = false ->
     VideoDetails.commentCount r = lookup (lit "commentCount") statistics) /\
    (nullish (lookup (lit "tags") snippet) = false ->
     VideoDetails.tags r = lookup (lit "tags") snippet) /\
    (forall thumbnails high,
        lookup (lit "thumbnails") snippet = VObj thumbnails ->
        lookup (lit "high") thumbnails = VObj high ->
        nullish (lookup (lit "url") high) = false ->
        VideoDetails.thumbnailUrl r = lookup (lit "url") high).
Proof.
  intros Hitems Hsn Hst Hcd.
  pose proof (thumbnail_of_snippet item snippet Hsn) as Eth.
  unfold videoDetailsOf. enter_first_item Hitems.
  rewrite Eth. read_parts.
  eexists; split; [reflexivity|].
  cbn [VideoDetails.title VideoDetails.description VideoDetails.channelTitle
       VideoDetails.channelId VideoDetails.publishedAt VideoDetails.duration
       VideoDetails.categoryId VideoDetails.viewCount VideoDetails.likeCount
       VideoDetails.commentCount VideoDetails.tags VideoDetails.thumbnailUrl].
  do 7 (split; [reflexivity|]).
  do 4 (split; [keep_present|]).
  intros thumbnails high. apply thumbnail_kept.
Qed.

(** An item with an empty tag list, a view count of zero and a
    thumbnail. *)
Lemma videoDetailsOf_projection_witness :
  exists r,
    videoDetailsOf (VObj [(lit "items", VArr [VObj video_fields])]) = Ok r /\
    VideoDetails.viewCount r = VStr (lit "0") /\
    VideoDetails.tags r = VArr [] /\
    VideoDetails.title r = VUndefined /\
    VideoDetails.thumbnailUrl r = VStr (lit "https://i.ytimg.com/hq.jpg").
Proof.
  destruct (videoDetailsOf_projection
              (VObj [(lit "items", VArr [VObj video_fields])])
              (VObj video_fields) [] video_snippet
              [(lit "viewCount", VStr (lit "0"))] []
              eq_refl eq_refl eq_refl eq_refl)
    as (r & E & Ht & _ & _ & _ & _ & _ & _ & Hv & _ & _ & Htags & Hth).
  exists r. split; [exact E|].
  split; [exact (Hv eq_refl)|].
  split; [exact (Htags eq_refl)|].
  split; [exact Ht|].
  exact (Hth [(lit "high", VObj high_thumbnail)] high_thumbnail
           eq_refl eq_refl eq_refl).
Defined.

(** X13.  Channel info is a projection of the first item in the same way:
    [id], [title], [description] and [publishedAt] are the upstream values
    as they are, a defaulted field keeps every upstream value that is
    neither missing nor null, and the thumbnail is the [url] of
    [thumbnails.high] when these are objects and the URL is there. *)
Theorem channelInfoOf_projection (data item : jsvalue) (rest : list jsvalue)
  (fields snippet statistics : list (jsstring * jsvalue)) :
  get data (lit "items") = Ok (VArr (item :: rest)) ->
  item = VObj fields ->
  part item (lit "snippet") snippet ->
  part item (lit "statistics") statistics ->
  exists r,
    channelInfoOf data = Ok r /\
    ChannelInfo.id r = lookup (lit "id") fields /\
    ChannelInfo.title r = lookup (lit "title") snippet /\
    ChannelInfo.description r = lookup (lit "description") snippet /\
    ChannelInfo.publishedAt r = lookup (lit "publishedAt") snippet /\
    (nullish (lookup (lit "customUrl") snippet) = false ->
     ChannelInfo.customUrl r = lookup (lit "customUrl") snippet) /\
    (nullish (lookup (lit "subscriberCount") statistics) = false ->
     ChannelInfo.subscriberCount r = lookup (lit "subscriberCount") statistics) /\
    (nullish (lookup (lit "videoCount") statistics) = false ->
     ChannelInfo.videoCount r = lookup (lit "videoCount") statistics) /\
    (nullish (lookup (lit "viewCount") statistics) = false ->
     ChannelInfo.viewCount r = lookup (lit "viewCount") statistics) /\
    (nullish (lookup (lit "country") snippet) = false ->
     ChannelInfo.country r = lookup (lit "country") snippet) /\
    (forall thumbnails high,
        lookup (lit "thumbnails") snippet = VObj thumbnails ->
        lookup (lit "high") thumbnails = VObj high ->
        nullish (lookup (lit "url") high) = false ->
        ChannelInfo.thumbnailUrl r = lookup (lit "url") high).
Proof.
  intros Hitems Hitem Hsn Hst.
  pose proof (thumbnail_of_snippet item snippet Hsn) as Eth.
  assert (Eid : get item (lit "id") = Ok (lookup (lit "id") fields))
    by now subst item.
  unfold channelInfoOf. enter_first_item Hitems.
  rewrite Eth, Eid. read_parts.
  eexists; split; [reflexivity|].
  cbn [ChannelInfo.id ChannelInfo.title ChannelInfo.description
       ChannelInfo.publishedAt ChannelInfo.customUrl
       ChannelInfo.subscriberCount ChannelInfo.videoCount
       ChannelInfo.viewCount ChannelInfo.country ChannelInfo.thumbnailUrl].
  do 4 (split; [reflexivity|]).
  do 5 (split; [keep_present|]).
  intros thumbnails high. apply thumbnail_kept.
Qed.

Lemma channelInfoOf_projection_witness :
  exists r,
    channelInfoOf (VObj [(lit "items", VArr [VObj channel_fields])]) = Ok r /\
    ChannelInfo.id r = VStr (lit "UCBJycsmduvYEL83R_U4JriQ") /\
    ChannelInfo.videoCount r = VStr (lit "0") /\
    ChannelInfo.country r = VStr (lit "US") /\
    ChannelInfo.thumbnailUrl r = VStr (lit "https://i.ytimg.com/hq.jpg").
Proof.
  destruct (channelInfoOf_projection
              (VObj [(lit "items", VArr [VObj channel_fields])])
              (VObj channel_fields) [] channel_fields channel_snippet
              channel_statistics eq_refl eq_refl eq_refl eq_refl)
    as (r & E & Hid & _ & _ & _ & _ & _ & Hvideo & _ & Hcountry & Hth).
  exists r. split; [exact E|].
  split; [exact Hid|].
  split; [exact (Hvideo eq_refl)|].
  split; [exact (Hcountry eq_refl)|].
  exact (Hth [(lit "high", VObj high_thumbnail)] high_thumbnail
           eq_refl eq_refl eq_refl).
Defined.

(** X14.  The defaults do not reach a missing [statistics].  When the
    first item has a [snippet] but its [statistics] is missing or null,
    both record mappers fail with the TypeError of reading a property of
    undefined or null, at the first statistic they read; no record with
    sentinels is returned. *)
Theorem record_mappers_need_statistics (data item : jsvalue)
  (rest : list jsvalue) (snippet : list (jsstring * jsvalue))
  (statistics : jsvalue) :
  get data (lit "items") = Ok (VArr (item :: rest)) ->
  part item (lit "snippet") snippet ->
  get item (lit "statistics") = Ok statistics ->
  nullish statistics = true ->
  videoDetailsOf data
  = Throw (TypeError (ReadOfNullish statistics (lit "viewCount"))) /\
  channelInfoOf data
  = Throw (TypeError (ReadOfNullish statistics (lit "subscriberCount"))).
Proof.
  intros Hitems Hsn Hst N.
  destruct (get_total item _ (lit "id") _ Hsn) as [id Eid].
  unfold videoDetailsOf, channelInfoOf. enter_first_item Hitems.
  rewrite Eid. unfold get2. unfold part in Hsn. rewrite Hsn, Hst.
  cbn [obind get]. rewrite !(get_nullish statistics) by exact N.
  split; reflexivity.
Qed.

Lemma record_mappers_need_statistics_witness :
  videoDetailsOf
    (VObj [(lit "items", VArr [VObj [(lit "snippet", VObj channel_snippet)]])])
  = Throw (TypeError (ReadOfNullish VUndefined (lit "viewCount"))).
Proof.
  exact (proj1 (record_mappers_need_statistics
                  (VObj [(lit "items",
                           VArr [VObj [(lit "snippet", VObj channel_snippet)]])])
                  (VObj [(lit "snippet", VObj channel_snippet)]) []
                  channel_snippet VUndefined eq_refl eq_refl eq_refl eq_refl)).
Defined.

(** X15.  The comments mapper has no defaults.  For a thread whose
    [snippet], [snippet.topLevelComment] and the [snippet] of that comment
    are objects, the five fields of the comment are the upstream values as
    they are, undefined when missing; and a thread without
    [topLevelComment] does not map. *)
Theorem commentOf_projection (item : jsvalue)
  (snippet : list (jsstring * jsvalue)) :
  part item (lit "snippet") snippet ->
  (forall topLevelComment top,
      lookup (lit "topLevelComment") snippet = VObj topLevelComment ->
      lookup (lit "snippet") topLevelComment = VObj top ->
      commentOf item
      = Ok {| Comment.author := lookup (lit "authorDisplayName") top;
              Comment.text := lookup (lit "textDisplay") top;
              Comment.likeCount := lookup (lit "likeCount") top;
              Comment.publishedAt := lookup (lit "publishedAt") top;
              Comment.replyCount := lookup (lit "totalReplyCount") snippet |})
  /\
  (nullish (lookup (lit "topLevelComment") snippet) = true ->
   commentOf item
   = Throw (TypeError (ReadOfNullish (lookup (lit "topLevelComment") snippet)
                         (lit "snippet")))).
Proof.
  intros Hsn. unfold commentOf, get2. unfold part in Hsn. rewrite Hsn.
  cbn [obind get]. split.
  - intros tlc top -> E. cbn [obind get]. rewrite E. reflexivity.
  - intros N. now rewrite (get_nullish _ _ N).
Qed.

(** A thread whose top-level comment has an [id] next to its snippet. *)
Lemma commentOf_projection_witness :
  commentOf (VObj [(lit "snippet", VObj comment_snippet)])
  = Ok {| Comment.author := VStr (lit "rick");
          Comment.text := VStr (lit "never");
          Comment.likeCount := VUndefined;
          Comment.publishedAt := VUndefined;
          Comment.replyCount := VNum 0 |}.
Proof.
  exact (proj1 (commentOf_projection
                  (VObj [(lit "snippet", VObj comment_snippet)])
                  comment_snippet eq_refl)
           [(lit "id", VStr (lit "Ugx")); (lit "snippet", VObj comment_top)]
           comment_top eq_refl eq_refl).
Defined.

(** ** The API functions *)

(** An API function returns what its mapper makes of the client's result. *)
Lemma api_call_result (A : Type) (env : environment) (endpoint : jsstring)
  (params : list (jsstring * jsstring)) (apiKey : jsstring)
  (mapper : jsvalue -> outcome A) :
  result env (data <- youtubeApiFetch endpoint params apiKey ;;
              Done (mapper data))
  = (let* data := result env (youtubeApiFetch endpoint params apiKey) in
     mapper data).
Proof.
  unfold result at 1. rewrite run_bind.
  destruct (result env (youtubeApiFetch endpoint params apiKey));
    reflexivity.
Qed.

Lemma api_call_ok (A : Type) (env : environment) (endpoint : jsstring)
  (params : list (jsstring * jsstring)) (apiKey : jsstring)
  (mapper : jsvalue -> outcome A) (res : Response.t) (data : jsvalue) :
  upstream env (request_url endpoint params apiKey) = Ok res ->
  Response.ok res = true -> Response.json res = Ok data ->
  result env (data <- youtubeApiFetch endpoint params apiKey ;;
              Done (mapper data))
  = mapper data.
Proof.
  intros U O J. rewrite api_call_result, youtubeApiFetch_run, U, O, J.
  reflexivity.
Qed.

(** X16.  [getVideoDetails] asks the [videos] endpoint once, for the
    parts [snippet,statistics,contentDetails] of the given ID, the key and
    the ID as [searchParams.set] stores them, and on a success answer
    returns the video details of the parsed body. *)
Theorem getVideoDetails_call (env : environment) (videoId apiKey : jsstring) :
  let u := {| Url.href := lit "https://www.googleapis.com/youtube/v3/videos";
              Url.searchParams :=
                [(lit "key", usv apiKey);
                 (lit "part", lit "snippet,statistics,contentDetails");
                 (lit "id", usv videoId)] |} in
  requests env (getVideoDetails videoId apiKey) = [HttpGet u] /\
  forall res data,
    upstream env u = Ok res -> Response.ok res = true ->
    Response.json res = Ok data ->
    result env (getVideoDetails videoId apiKey) = videoDetailsOf data.
Proof.
  cbv zeta. unfold getVideoDetails. split.
  - now rewrite api_call_requests, videos_request_url.
  - intros res data U O J. apply api_call_ok with (res := res);
      [rewrite videos_request_url; exact U|exact O|exact J].
Qed.

(** X17.  [searchVideos] asks the [search] endpoint once, for videos
    matching the query, with [maxResults] the text of the number it was
    given, of 5 when it was given none; the function itself puts no bound
    on that number.  The key, the query and that text travel as
    [searchParams.set] stores them.  On a success answer it returns the
    search results of the parsed body. *)
Theorem searchVideos_call (String_of_number : Q -> jsstring)
  (env : environment) (query apiKey : jsstring) (maxResults : option Q) :
  let n := match maxResults with Some q => q | None => 5%Q end in
  let u := {| Url.href := lit "https://www.googleapis.com/youtube/v3/search";
              Url.searchParams :=
                [(lit "key", usv apiKey);
                 (lit "part", lit "snippet");
                 (lit "q", usv query);
                 (lit "type", lit "video");
                 (lit "maxResults", usv (String_of_number n))] |} in
  requests env (searchVideos String_of_number query apiKey maxResults)
  = [HttpGet u] /\
  forall res data,
    upstream env u = Ok res -> Response.ok res = true ->
    Response.json res = Ok data ->
    result env (searchVideos String_of_number query apiKey maxResults)
    = searchResultsOf data.
Proof.
  cbv zeta. unfold searchVideos. cbv zeta. split.
  - rewrite api_call_requests, search_request_url. now destruct maxResults.
  - intros res data U O J.
    apply api_call_ok with (res := res); [|exact O|exact J].
    rewrite search_request_url. now destruct maxResults.
Qed.

(** X18.  [getVideoComments] asks the [commentThreads] endpoint once, for
    the threads of the given video in plain text and by relevance, with
    [maxResults] the text of the number it was given, of 20 when it was
    given none.  The key, the video ID and that text travel as
    [searchParams.set] stores them.  On a success answer it returns the
    comments of the parsed body. *)
Theorem getVideoComments_call (String_of_number : Q -> jsstring)
  (env : environment) (videoId apiKey : jsstring) (maxResults : option Q) :
  let n := match maxResults with Some q => q | None => 20%Q end in
  let u := {| Url.href :=
                lit "https://www.googleapis.com/youtube/v3/commentThreads";
              Url.searchParams :=
                [(lit "key", usv apiKey);
                 (lit "part", lit "snippet");
                 (lit "videoId", usv videoId);
                 (lit "maxResults", usv (String_of_number n));
                 (lit "order", lit "relevance");
                 (lit "textFormat", lit "plainText")] |} in
  requests env (getVideoComments String_of_number videoId apiKey maxResults)
  = [HttpGet u] /\
  forall res data,
    upstream env u = Ok res -> Response.ok res = true ->
    Response.json res = Ok data ->
    result env (getVideoComments String_of_number videoId apiKey maxResults)
    = commentsOf data.
Proof.
  cbv zeta. unfold getVideoComments. cbv zeta. split.
  - rewrite api_call_requests, commentThreads_request_url.
    now destruct maxResults.
  - intros res data U O J.
    apply api_call_ok with (res := res); [|exact O|exact J].
    rewrite commentThreads_request_url. now destruct maxResults.
Qed.

Lemma getVideoDetails_call_witness :
  result
    (answering {| Response.ok := true; Response.status := 200;
                  Response.text := Ok []; Response.json := Ok no_items |})
    (getVideoDetails (lit "dQw4w9WgXcQ") (lit "KEY"))
  = Throw (Error (lit "Video not found or is private.")).
Proof.
  exact (proj2 (getVideoDetails_call
                  (answering {| Response.ok := true; Response.status := 200;
                                Response.text := Ok [];
                                Response.json := Ok no_items |})
                  (lit "dQw4w9WgXcQ") (lit "KEY"))
           _ no_items eq_refl eq_refl eq_refl).
Defined.

Lemma searchVideos_call_witness :
  requests empty_upstream
    (searchVideos (fun _ => lit "1000") (lit "cats") (lit "KEY") (Some 1000%Q))
  = [HttpGet {| Url.href := lit "https://www.googleapis.com/youtube/v3/search";
                Url.searchParams :=
                  [(lit "key", lit "KEY"); (lit "part", lit "snippet");
                   (lit "q", lit "cats"); (lit "type", lit "video");
                   (lit "maxResults", lit "1000")] |}].
Proof.
  exact (proj1 (searchVideos_call (fun _ => lit "1000") empty_upstream
                  (lit "cats") (lit "KEY") (Some 1000%Q))).
Defined.

Lemma getVideoComments_call_witness :
  result empty_upstream
    (getVideoComments (fun _ => lit "20") (lit "dQw4w9WgXcQ") (lit "KEY") None)
  = Ok [].
Proof.
  exact (proj2 (getVideoComments_call (fun _ => lit "20") empty_upstream
                  (lit "dQw4w9WgXcQ") (lit "KEY") None)
           _ no_items eq_refl eq_refl eq_refl).
Defined.

(** ** The tool facade *)

Lemma run_pair' (A : Type) (env : environment) (x : io A) :
  run env x = (requests env x, result env x).
Proof. unfold requests, result. now destruct (run env x). Qed.

Lemma video_id_not_empty (url videoId : jsstring) :
  extractVideoId url = Some videoId -> exists c rest, videoId = c :: rest.
Proof.
  intros H. apply extractVideoId_some in H.
  destruct videoId as [|c rest]; [discriminate H|eauto].
Qed.

Lemma extractChannelIdentifier_tag (input : jsstring) :
  exists t v,
    extractChannelIdentifier input = Some {| type := t; value := v |} /\
    (t = TId \/ t = THandle).
Proof.
  unfold extractChannelIdentifier; cbv zeta.
  destruct (exec CHANNEL_URL _); [eauto 6|].
  destruct (exec HANDLE_URL _); [eauto 6|].
  destruct (startsWith _ (lit "@")); [eauto 6|].
  destruct (startsWith _ (lit "UC") && _); eauto 6.
Qed.

Section FacadeProperties.
Variable YOUTUBE_API_KEY : jsstring.
Variable String_of_number : Q -> jsstring.
Variable type_error_message : type_error -> jsstring.
Variable stringify_details : VideoDetails.t -> jsstring.
Variable stringify_results : list SearchResult.t -> jsstring.
Variable stringify_info : ChannelInfo.t -> jsstring.
Variable stringify_comments : list Comment.t -> jsstring.

(** The body shared by the handlers: a call, the success payload of its
    result, and the error payload of what it throws. *)
Lemma guarded_call_result (A : Type) (env : environment) (x : io A)
  (show : A -> jsstring) (prefix : jsstring) :
  result env
    (try_catch (a <- x ;; success (show a))
       (fun error => failure (prefix ++ message_of type_error_message error)))
  = Ok match result env x with
       | Ok a => {| content := show a; isError := false |}
       | Throw e =>
           {| content := prefix ++ message_of type_error_message e;
              isError := true |}
       end.
Proof.
  unfold result at 1. rewrite run_try_catch.
  unfold result at 1. rewrite run_bind.
  destruct (result env x); reflexivity.
Qed.

Lemma guarded_call_requests (A : Type) (env : environment) (x : io A)
  (show : A -> jsstring) (prefix : jsstring) :
  requests env
    (try_catch (a <- x ;; success (show a))
       (fun error => failure (prefix ++ message_of type_error_message error)))
  = requests env x.
Proof. apply requests_try_bind; pure_steps. Qed.

Lemma tool_result_ok (A : Type) (env : environment) (inputSchema : schema A)
  (handler : A -> io tool_result) (args : jsvalue) :
  (forall a, exists r, result env (handler a) = Ok r) ->
  exists r, result env (tool inputSchema handler args) = Ok r.
Proof.
  intros H. unfold tool. destruct (inputSchema args) as [a|].
  - destruct (H a) as [r E]. unfold result in *. rewrite run_bind.
    unfold result. rewrite E. cbn [snd run ret]. eauto.
  - cbn. eauto.
Qed.

(** X19.  No tool call throws.  Whatever the arguments and whatever the
    upstream API and the captions collaborator do, each of the five tools
    comes back with a value: a rejection of the arguments or a payload
    (an error payload when something failed).  Every exception is caught
    at the facade. *)
Theorem tools_never_throw (env : environment) (args : jsvalue) :
  (exists r, result env (get_transcript type_error_message args) = Ok r) /\
  (exists r, result env (get_video_details YOUTUBE_API_KEY type_error_message
                           stringify_details args) = Ok r) /\
  (exists r, result env (search_videos YOUTUBE_API_KEY String_of_number
                           type_error_message stringify_results args) = Ok r) /\
  (exists r, result env (get_channel_details YOUTUBE_API_KEY type_error_message
                           stringify_info args) = Ok r) /\
  (exists r, result env (get_video_comments YOUTUBE_API_KEY String_of_number
                           type_error_message stringify_comments args) = Ok r).
Proof.
  unfold get_transcript, get_video_details, search_videos,
    get_channel_details, get_video_comments.
  repeat split; apply tool_result_ok; intros a.
  - unfold get_transcript_handler.
    destruct (extractVideoId _) as [[|c v]|]; try (cbn; eauto; fail).
    rewrite guarded_call_result. eauto.
  - unfold get_video_details_handler.
    destruct (extractVideoId _) as [[|c v]|]; try (cbn; eauto; fail).
    rewrite guarded_call_result. eauto.
  - unfold search_videos_handler. rewrite guarded_call_result. eauto.
  - unfold get_channel_details_handler.
    destruct (extractChannelIdentifier _); [|cbn; eauto].
    rewrite guarded_call_result. eauto.
  - unfold get_video_comments_handler.
    destruct (extractVideoId _) as [[|c v]|]; try (cbn; eauto; fail).
    rewrite guarded_call_result. eauto.
Qed.

Lemma get_transcript_requests (env : environment) (a : GetTranscript.args) :
  requests env (get_transcript_handler type_error_message a) =
  match extractVideoId (GetTranscript.url a) with
  | Some videoId =>
      [Captions videoId
         match GetTranscript.language a with
         | Some l => l
         | None => lit "en"
         end]
  | None => []
  end.
Proof.
  unfold get_transcript_handler.
  destruct (extractVideoId _) as [videoId|] eqn:E; [|reflexivity].
  destruct (video_id_not_empty _ _ E) as (c & v & ->).
  cbv zeta. rewrite guarded_call_requests.
  unfold fetchTranscript, requests. cbn [run fst].
  now destruct (GetTranscript.language a).
Qed.

Lemma get_video_details_requests (env : environment)
  (a : GetVideoDetails.args) :
  requests env
    (get_video_details_handler YOUTUBE_API_KEY type_error_message
       stringify_details a) =
  match extractVideoId (GetVideoDetails.url a) with
  | Some videoId =>
      [HttpGet (request_url (lit "videos")
                  [(lit "part", lit "snippet,statistics,contentDetails");
                   (lit "id", videoId)] YOUTUBE_API_KEY)]
  | None => []
  end.
Proof.
  unfold get_video_details_handler.
  destruct (extractVideoId _) as [videoId|] eqn:E; [|reflexivity].
  destruct (video_id_not_empty _ _ E) as (c & v & ->).
  rewrite guarded_call_requests. unfold getVideoDetails.
  now rewrite api_call_requests.
Qed.

Lemma search_videos_requests (env : environment) (a : SearchVideos.args) :
  requests env
    (search_videos_handler YOUTUBE_API_KEY String_of_number type_error_message
       stringify_results a) =
  [HttpGet (request_url (lit "search")
              [(lit "part", lit "snippet");
               (lit "q", SearchVideos.query a);
               (lit "type", lit "video");
               (lit "maxResults",
                 String_of_number (or_default (SearchVideos.maxResults a) 5%Q))]
              YOUTUBE_API_KEY)].
Proof.
  unfold search_videos_handler.
  rewrite guarded_call_requests. unfold searchVideos.
  now rewrite api_call_requests.
Qed.

Lemma get_channel_details_requests (env : environment)
  (a : GetChannelDetails.args) :
  exists identifier,
    extractChannelIdentifier (GetChannelDetails.channel a) = Some identifier /\
    requests env
      (get_channel_details_handler YOUTUBE_API_KEY type_error_message
         stringify_info a)
    = [HttpGet (request_url (lit "channels") (channelParams identifier)
                  YOUTUBE_API_KEY)].
Proof.
  unfold get_channel_details_handler.
  destruct (extractChannelIdentifier_tag (GetChannelDetails.channel a))
    as (t & v & -> & _).
  eexists; split; [reflexivity|].
  rewrite guarded_call_requests. unfold getChannelInfo.
  now rewrite api_call_requests.
Qed.

Lemma get_video_comments_requests (env : environment)
  (a : GetVideoComments.args) :
  requests env
    (get_video_comments_handler YOUTUBE_API_KEY String_of_number
       type_error_message stringify_comments a) =
  match extractVideoId (GetVideoComments.url a) with
  | Some videoId =>
      [HttpGet (request_url (lit "commentThreads")
                  [(lit "part", lit "snippet");
                   (lit "videoId", videoId);
                   (lit "maxResults",
                     String_of_number
                       (or_default (GetVideoComments.maxResults a) 20%Q));
                   (lit "order", lit "relevance");
                   (lit "textFormat", lit "plainText")] YOUTUBE_API_KEY)]
  | None => []
  end.
Proof.
  unfold get_video_comments_handler.
  destruct (extractVideoId _) as [videoId|] eqn:E; [|reflexivity].
  destruct (video_id_not_empty _ _ E) as (c & v & ->).
  rewrite guarded_call_requests. unfold getVideoComments.
  now rewrite api_call_requests.
Qed.

(** X20.  Only well-formed video IDs leave the server.  Whatever the
    arguments of a call, the [id] parameter of a request of
    [get_video_details], the [videoId] parameter of a request of
    [get_video_comments] and the video a request of [get_transcript] names
    are 11-character strings over [[A-Za-z0-9_-]]. *)
Theorem video_tools_send_video_ids (env : environment) (args : jsvalue) :
  (forall u,
      In (HttpGet u)
        (requests env (get_video_details YOUTUBE_API_KEY type_error_message
                         stringify_details args)) ->
      exists id, param (lit "id") (Url.searchParams u) = Some id /\
                 is_video_id id = true) /\
  (forall u,
      In (HttpGet u)
        (requests env (get_video_comments YOUTUBE_API_KEY String_of_number
                         type_error_message stringify_comments args)) ->
      exists id, param (lit "videoId") (Url.searchParams u) = Some id /\
                 is_video_id id = true) /\
  (forall videoId lang,
      In (Captions videoId lang)
        (requests env (get_transcript type_error_message args)) ->
      is_video_id videoId = true).
Proof.
  unfold get_video_details, get_video_comments, get_transcript.
  rewrite !requests_tool. split; [|split].
  - destruct (GetVideoDetails.inputSchema args) as [a|]; [|intros u []].
    rewrite get_video_details_requests.
    destruct (extractVideoId _) as [id|] eqn:E; [|intros u []].
    intros u [[= <-]|[]]. exists id.
    split; [|exact (extractVideoId_some _ _ E)].
    rewrite videos_request_url. cbn [Url.searchParams].
    now rewrite (usv_video_id id (extractVideoId_some _ _ E)).
  - destruct (GetVideoComments.inputSchema args) as [a|]; [|intros u []].
    rewrite get_video_comments_requests.
    destruct (extractVideoId _) as [id|] eqn:E; [|intros u []].
    intros u [[= <-]|[]]. exists id.
    split; [|exact (extractVideoId_some _ _ E)].
    rewrite commentThreads_request_url. cbn [Url.searchParams].
    now rewrite (usv_video_id id (extractVideoId_some _ _ E)).
  - destruct (GetTranscript.inputSchema args) as [a|]; [|intros v l []].
    rewrite get_transcript_requests.
    destruct (extractVideoId _) as [id|] eqn:E; [|intros v l []].
    intros v l [[= <- _]|[]]. exact (extractVideoId_some _ _ E).
Qed.

(** X21.  A tool call issues at most one request, and of one kind:
    [get_transcript] only asks the captions collaborator, never the data
    API (it needs no API key), and the four other tools only ask the data
    API. *)
Theorem tools_issue_one_request (env : environment) (args : jsvalue) :
  let transcript := requests env (get_transcript type_error_message args) in
  let details :=
    requests env (get_video_details YOUTUBE_API_KEY type_error_message
                    stringify_details args) in
  let search :=
    requests env (search_videos YOUTUBE_API_KEY String_of_number
                    type_error_message stringify_results args) in
  let channel :=
    requests env (get_channel_details YOUTUBE_API_KEY type_error_message
                    stringify_info args) in
  let comments :=
    requests env (get_video_comments YOUTUBE_API_KEY String_of_number
                    type_error_message stringify_comments args) in
  (transcript = [] \/ exists videoId lang, transcript = [Captions videoId lang]) /\
  (details = [] \/ exists u, details = [HttpGet u]) /\
  (search = [] \/ exists u, search = [HttpGet u]) /\
  (channel = [] \/ exists u, channel = [HttpGet u]) /\
  (comments = [] \/ exists u, comments = [HttpGet u]).
Proof.
  cbv zeta.
  unfold get_transcript, get_video_details, search_videos,
    get_channel_details, get_video_comments.
  rewrite !requests_tool. repeat apply conj.
  - destruct (GetTranscript.inputSchema args) as [a|]; [|now left].
    rewrite get_transcript_requests.
    destruct (extractVideoId _); [right; eauto|now left].
  - destruct (GetVideoDetails.inputSchema args) as [a|]; [|now left].
    rewrite get_video_details_requests.
    destruct (extractVideoId _); [right; eauto|now left].
  - destruct (SearchVideos.inputSchema args) as [a|]; [|now left].
    rewrite search_videos_requests. right; eauto.
  - destruct (GetChannelDetails.inputSchema args) as [a|]; [|now left].
    destruct (get_channel_details_requests env a) as (i & _ & ->).
    right; eauto.
  - destruct (GetVideoComments.inputSchema args) as [a|]; [|now left].
    rewrite get_video_comments_requests.
    destruct (extractVideoId _); [right; eauto|now left].
Qed.

(** X22.  [get_channel_details] never gives up on its argument and never
    asks by user name: for every channel text the handler issues exactly
    one request, to the [channels] endpoint, whose first parameter is the
    API key as [searchParams.set] stores it and whose third parameter is
    [id] or [forHandle]; the error "Could not parse channel identifier" and the
    [forUsername] parameter do not occur. *)
Theorem get_channel_details_request (env : environment)
  (a : GetChannelDetails.args) :
  exists name v,
    (name = lit "id" \/ name = lit "forHandle") /\
    requests env
      (get_channel_details_handler YOUTUBE_API_KEY type_error_message
         stringify_info a)
    = [HttpGet
         {| Url.href := lit "https://www.googleapis.com/youtube/v3/channels";
            Url.searchParams :=
              [(lit "key", usv YOUTUBE_API_KEY);
               (lit "part", lit "snippet,statistics");
               (name, v)] |}].
Proof.
  destruct (get_channel_details_requests env a) as (i & E & ->).
  destruct (extractChannelIdentifier_tag (GetChannelDetails.channel a))
    as (t & v & E' & [-> | ->]); rewrite E' in E; injection E as <-;
    rewrite channels_request_url; cbn [type value].
  - exists (lit "id"), (usv v). split; [now left|reflexivity].
  - exists (lit "forHandle"), (usv v). split; [now right|reflexivity].
Qed.

(** X23.  What the four API tools return once the upstream has answered
    with a success status and the body [data]: the text of the mapped
    record or list as a success payload, or, when the mapper fails on the
    body, an error payload made of the tool's prefix and the message of
    the error. *)
Theorem api_tools_payload (env : environment) (res : Response.t)
  (data : jsvalue) :
  (forall u, upstream env u = Ok res) ->
  Response.ok res = true -> Response.json res = Ok data ->
  (forall a videoId,
      extractVideoId (GetVideoDetails.url a) = Some videoId ->
      result env (get_video_details_handler YOUTUBE_API_KEY type_error_message
                    stringify_details a)
      = Ok match videoDetailsOf data with
           | Ok r => {| content := stringify_details r; isError := false |}
           | Throw e =>
               {| content := lit "Error fetching video details: "
                             ++ message_of type_error_message e;
                  isError := true |}
           end) /\
  (forall a,
      result env (search_videos_handler YOUTUBE_API_KEY String_of_number
                    type_error_message stringify_results a)
      = Ok match searchResultsOf data with
           | Ok r => {| content := stringify_results r; isError := false |}
           | Throw e =>
               {| content := lit "Error searching videos: "
                             ++ message_of type_error_message e;
                  isError := true |}
           end) /\
  (forall a,
      result env (get_channel_details_handler YOUTUBE_API_KEY type_error_message
                    stringify_info a)
      = Ok match channelInfoOf data with
           | Ok r => {| content := stringify_info r; isError := false |}
           | Throw e =>
               {| content := lit "Error fetching channel info: "
                             ++ message_of type_error_message e;
                  isError := true |}
           end) /\
  (forall a videoId,
      extractVideoId (GetVideoComments.url a) = Some videoId ->
      result env (get_video_comments_handler YOUTUBE_API_KEY String_of_number
                    type_error_message stringify_comments a)
      = Ok match commentsOf data with
           | Ok r => {| content := stringify_comments r; isError := false |}
           | Throw e =>
               {| content := lit "Error fetching comments: "
                             ++ message_of type_error_message e;
                  isError := true |}
           end).
Proof.
  intros U O J. repeat apply conj.
  - intros a videoId E. unfold get_video_details_handler. rewrite E.
    destruct (video_id_not_empty _ _ E) as (c & v & ->).
    rewrite guarded_call_result. unfold getVideoDetails.
    rewrite (api_call_ok _ env _ _ _ _ res data (U _) O J).
    now destruct (videoDetailsOf data).
  - intros a. unfold search_videos_handler.
    rewrite guarded_call_result. unfold searchVideos. cbv zeta.
    rewrite (api_call_ok _ env _ _ _ _ res data (U _) O J).
    now destruct (searchResultsOf data).
  - intros a. unfold get_channel_details_handler.
    destruct (extractChannelIdentifier_tag (GetChannelDetails.channel a))
      as (t & v & -> & _).
    rewrite guarded_call_result. unfold getChannelInfo.
    rewrite (api_call_ok _ env _ _ _ _ res data (U _) O J).
    now destruct (channelInfoOf data).
  - intros a videoId E. unfold get_video_comments_handler. rewrite E.
    destruct (video_id_not_empty _ _ E) as (c & v & ->).
    rewrite guarded_call_result. unfold getVideoComments. cbv zeta.
    rewrite (api_call_ok _ env _ _ _ _ res data (U _) O J).
    now destruct (commentsOf data).
Qed.

Lemma api_call_error (A : Type) (env : environment) (endpoint : jsstring)
  (params : list (jsstring * jsstring)) (apiKey : jsstring)
  (mapper : jsvalue -> outcome A) (res : Response.t) (body : jsstring) :
  upstream env (request_url endpoint params apiKey) = Ok res ->
  Response.ok res = false -> Response.text res = Ok body ->
  result env (data <- youtubeApiFetch endpoint params apiKey ;;
              Done (mapper data))
  = Throw (Error (lit "YouTube API error (" ++ decimal (Response.status res)
                  ++ lit "): " ++ body)).
Proof.
  intros U O T. rewrite api_call_result, youtubeApiFetch_run, U, O, T.
  reflexivity.
Qed.

(** X24.  An upstream refusal reaches the caller word for word.  When the
    data API answers with a status that is not a success, each of the four
    API tools returns an error payload: its own prefix, then
    "YouTube API error (<status>): <body>". *)
Theorem api_tools_surface_upstream_errors (env : environment)
  (res : Response.t) (body : jsstring) :
  (forall u, upstream env u = Ok res) ->
  Response.ok res = false -> Response.text res = Ok body ->
  let refusal := lit "YouTube API error (" ++ decimal (Response.status res)
                 ++ lit "): " ++ body in
  (forall a videoId,
      extractVideoId (GetVideoDetails.url a) = Some videoId ->
      result env (get_video_details_handler YOUTUBE_API_KEY type_error_message
                    stringify_details a)
      = Ok {| content := lit "Error fetching video details: " ++ refusal;
              isError := true |}) /\
  (forall a,
      result env (search_videos_handler YOUTUBE_API_KEY String_of_number
                    type_error_message stringify_results a)
      = Ok {| content := lit "Error searching videos: " ++ refusal;
              isError := true |}) /\
  (forall a,
      result env (get_channel_details_handler YOUTUBE_API_KEY type_error_message
                    stringify_info a)
      = Ok {| content := lit "Error fetching channel info: " ++ refusal;
              isError := true |}) /\
  (forall a videoId,
      extractVideoId (GetVideoComments.url a) = Some videoId ->
      result env (get_video_comments_handler YOUTUBE_API_KEY String_of_number
                    type_error_message stringify_comments a)
      = Ok {| content := lit "Error fetching comments: " ++ refusal;
              isError := true |}).
Proof.
  intros U O T. cbv zeta. repeat apply conj.
  - intros a videoId E. unfold get_video_details_handler. rewrite E.
    destruct (video_id_not_empty _ _ E) as (c & v & ->).
    rewrite guarded_call_result. unfold getVideoDetails.
    now rewrite (api_call_error _ env _ _ _ _ res body (U _) O T).
  - intros a. unfold search_videos_handler.
    rewrite guarded_call_result. unfold searchVideos. cbv zeta.
    now rewrite (api_call_error _ env _ _ _ _ res body (U _) O T).
  - intros a. unfold get_channel_details_handler.
    destruct (extractChannelIdentifier_tag (GetChannelDetails.channel a))
      as (t & v & -> & _).
    rewrite guarded_call_result. unfold getChannelInfo.
    now rewrite (api_call_error _ env _ _ _ _ res body (U _) O T).
  - intros a videoId E. unfold get_video_comments_handler. rewrite E.
    destruct (video_id_not_empty _ _ E) as (c & v & ->).
    rewrite guarded_call_result. unfold getVideoComments. cbv zeta.
    now rewrite (api_call_error _ env _ _ _ _ res body (U _) O T).
Qed.

(** X25.  A failure of the captions collaborator becomes an error payload:
    when fetching the captions throws, [get_transcript] returns
    "Error fetching transcript: " followed by the message of what was
    thrown, after that one request. *)
Theorem get_transcript_surfaces_failure (env : environment)
  (a : GetTranscript.args) (videoId : jsstring) (e : exn) :
  let lang := match GetTranscript.language a with
              | Some l => l
              | None => lit "en"
              end in
  extractVideoId (GetTranscript.url a) = Some videoId ->
  captions env videoId lang = Throw e ->
  run env (get_transcript_handler type_error_message a)
  = ([Captions videoId lang],
     Ok {| content := lit "Error fetching transcript: "
                      ++ message_of type_error_message e;
           isError := true |}).
Proof.
  intros lang E C. rewrite run_pair'.
  rewrite get_transcript_requests, E. fold lang. f_equal.
  unfold get_transcript_handler. rewrite E.
  destruct (video_id_not_empty _ _ E) as (c & v & ->).
  cbv zeta. rewrite guarded_call_result.
  unfold fetchTranscript, result. cbn [run snd].
  replace (or_default (GetTranscript.language a) (lit "en")) with lang
    by (unfold lang; now destruct (GetTranscript.language a)).
  now rewrite C.
Qed.


Lemma tool_rejects (A : Type) (inputSchema : schema A)
  (handler : A -> io tool_result) (args : jsvalue) :
  inputSchema args = None -> tool inputSchema handler args = ret InvalidParams.
Proof. unfold tool. now intros ->. Qed.

Lemma z_string_rejects (v : jsvalue) :
  (forall s, v <> VStr s) -> z_string v = None.
Proof. destruct v; intros H; try reflexivity. now destruct (H s). Qed.

(** X27.  Arguments of the wrong type never reach a handler.  A call whose
    arguments are not an object, or lack the required string ([url],
    [query] or [channel]), or give [language] a value that is neither
    absent nor a string, or give [maxResults] a value that is neither absent
    nor a number (null included), is rejected without any request. *)
Theorem tools_reject_ill_typed_arguments :
  let transcript := get_transcript type_error_message in
  let details :=
    get_video_details YOUTUBE_API_KEY type_error_message stringify_details in
  let search :=
    search_videos YOUTUBE_API_KEY String_of_number type_error_message
      stringify_results in
  let channel :=
    get_channel_details YOUTUBE_API_KEY type_error_message stringify_info in
  let comments :=
    get_video_comments YOUTUBE_API_KEY String_of_number type_error_message
      stringify_comments in
  (forall args, (forall fs, args <> VObj fs) ->
      transcript args = ret InvalidParams /\ details args = ret InvalidParams /\
      search args = ret InvalidParams /\ channel args = ret InvalidParams /\
      comments args = ret InvalidParams) /\
  (forall fs, (forall s, lookup (lit "url") fs <> VStr s) ->
      transcript (VObj fs) = ret InvalidParams /\
      details (VObj fs) = ret InvalidParams /\
      comments (VObj fs) = ret InvalidParams) /\
  (forall fs, (forall s, lookup (lit "query") fs <> VStr s) ->
      search (VObj fs) = ret InvalidParams) /\
  (forall fs, (forall s, lookup (lit "channel") fs <> VStr s) ->
      channel (VObj fs) = ret InvalidParams) /\
  (forall fs, lookup (lit "language") fs <> VUndefined ->
      (forall s, lookup (lit "language") fs <> VStr s) ->
      transcript (VObj fs) = ret InvalidParams) /\
  (forall fs, lookup (lit "maxResults") fs <> VUndefined ->
      (forall q, lookup (lit "maxResults") fs <> VNum q) ->
      search (VObj fs) = ret InvalidParams /\
      comments (VObj fs) = ret InvalidParams).
Proof.
  cbv zeta.
  unfold get_transcript, get_video_details, search_videos,
    get_channel_details, get_video_comments.
  repeat apply conj.
  - intros args H.
    repeat apply conj; apply tool_rejects;
      (destruct args as [| |b|q|s|l|fs]; try reflexivity; now destruct (H fs)).
  - intros fs H.
    repeat apply conj; apply tool_rejects;
      unfold GetTranscript.inputSchema, GetVideoDetails.inputSchema,
        GetVideoComments.inputSchema, field;
      now rewrite (z_string_rejects _ H).
  - intros fs H. apply tool_rejects.
    unfold SearchVideos.inputSchema, field.
    now rewrite (z_string_rejects _ H).
  - intros fs H. apply tool_rejects.
    unfold GetChannelDetails.inputSchema, field.
    now rewrite (z_string_rejects _ H).
  - intros fs U H. apply tool_rejects.
    unfold GetTranscript.inputSchema, field.
    destruct (z_string (lookup (lit "url") fs)); [|reflexivity].
    unfold z_optional.
    destruct (lookup (lit "language") fs) as [| |b|q|s|l|o];
      try reflexivity; [now destruct U|now destruct (H s)].
  - intros fs U H.
    assert (R : forall lo hi,
               z_optional (z_max hi (z_min lo z_number))
                 (lookup (lit "maxResults") fs) = None).
    { intros lo hi. unfold z_optional, z_max, z_min, z_number.
      destruct (lookup (lit "maxResults") fs) as [| |b|q|s|l|o];
        try reflexivity; [now destruct U|now destruct (H q)]. }
    split; apply tool_rejects;
      unfold SearchVideos.inputSchema, GetVideoComments.inputSchema, field;
      rewrite R; now destruct (z_string _).
Qed.

End FacadeProperties.

Lemma api_tools_payload_witness :
  result
    (answering {| Response.ok := true; Response.status := 200;
                  Response.text := Ok [];
                  Response.json :=
                    Ok (VObj [(lit "items", VArr [whole_search_item])]) |})
    (get_video_details_handler (lit "KEY") (fun _ => lit "TypeError")
       (fun _ => lit "{}")
       {| GetVideoDetails.url := lit "https://youtu.be/dQw4w9WgXcQ" |})
  = Ok {| content := lit "Error fetching video details: TypeError";
          isError := true |}.
Proof.
  exact (proj1 (api_tools_payload (lit "KEY") (fun _ => lit "1")
                  (fun _ => lit "TypeError") (fun _ => lit "{}")
                  (fun _ => lit "[]") (fun _ => lit "{}") (fun _ => lit "[]")
                  (answering {| Response.ok := true; Response.status := 200;
                                Response.text := Ok [];
                                Response.json :=
                                  Ok (VObj [(lit "items", VArr [whole_search_item])]) |})
                  _ (VObj [(lit "items", VArr [whole_search_item])])
                  (fun _ => eq_refl) eq_refl eq_refl)
           {| GetVideoDetails.url := lit "https://youtu.be/dQw4w9WgXcQ" |}
           (lit "dQw4w9WgXcQ") eq_refl).
Defined.

Lemma api_tools_surface_upstream_errors_witness :
  result
    (answering {| Response.ok := false; Response.status := 403;
                  Response.text := Ok (lit "quotaExceeded");
                  Response.json := Ok VNull |})
    (search_videos_handler (lit "KEY") (fun _ => lit "5")
       (fun _ => lit "TypeError") (fun _ => lit "[]")
       {| SearchVideos.query := lit "cats"; SearchVideos.maxResults := None |})
  = Ok {| content :=
            lit "Error searching videos: YouTube API error (403): quotaExceeded";
          isError := true |}.
Proof.
  exact (proj1 (proj2
           (api_tools_surface_upstream_errors (lit "KEY") (fun _ => lit "5")
              (fun _ => lit "TypeError") (fun _ => lit "{}")
              (fun _ => lit "[]") (fun _ => lit "{}") (fun _ => lit "[]")
              (answering {| Response.ok := false; Response.status := 403;
                            Response.text := Ok (lit "quotaExceeded");
                            Response.json := Ok VNull |})
              _ (lit "quotaExceeded") (fun _ => eq_refl) eq_refl eq_refl))
           {| SearchVideos.query := lit "cats";
              SearchVideos.maxResults := None |}).
Defined.

Lemma get_transcript_surfaces_failure_witness :
  run {| upstream := fun _ => Throw (Error (lit "offline"));
         captions := fun _ _ => Throw (Error (lit "Transcript is disabled")) |}
    (get_transcript_handler (fun _ => lit "TypeError")
       {| GetTranscript.url := lit "dQw4w9WgXcQ";
          GetTranscript.language := Some (lit "es") |})
  = ([Captions (lit "dQw4w9WgXcQ") (lit "es")],
     Ok {| content := lit "Error fetching transcript: Transcript is disabled";
           isError := true |}).
Proof.
  exact (get_transcript_surfaces_failure (fun _ => lit "TypeError")
           {| upstream := fun _ => Throw (Error (lit "offline"));
              captions := fun _ _ => Throw (Error (lit "Transcript is disabled")) |}
           {| GetTranscript.url := lit "dQw4w9WgXcQ";
              GetTranscript.language := Some (lit "es") |}
           (lit "dQw4w9WgXcQ") (Error (lit "Transcript is disabled"))
           eq_refl eq_refl).
Defined.


Lemma tools_reject_ill_typed_arguments_witness :
  search_videos (lit "KEY") (fun _ => lit "5") (fun _ => lit "TypeError")
    (fun _ => lit "[]")
    (VObj [(lit "query", VStr (lit "cats")); (lit "maxResults", VNull)])
  = ret InvalidParams.
Proof.
  apply (proj2 (proj2 (proj2 (proj2 (proj2
           (tools_reject_ill_typed_arguments (lit "KEY") (fun _ => lit "5")
              (fun _ => lit "TypeError") (fun _ => lit "{}")
              (fun _ => lit "[]") (fun _ => lit "{}")
              (fun _ => lit "[]"))))))
           [(lit "query", VStr (lit "cats")); (lit "maxResults", VNull)]).
  - discriminate.
  - discriminate.
Defined.

(** ** The worker's routes *)

(** X28.  How the worker routes a request.  A preflight ([OPTIONS]) is
    answered 204 without a body on every path and never reaches the MCP
    transport; otherwise [/sse] and [/messages], and no other path, are
    handed to the transport, both mounted at [/sse]; and 404 is the answer
    exactly when the method is not [OPTIONS] and the path is none of [/],
    [/sse] and [/messages]. *)
Theorem worker_fetch_routes (method pathname : jsstring) :
  (method = lit "OPTIONS" ->
   exists headers, worker_fetch method pathname = Reply 204 headers NoBody) /\
  (forall mount,
      worker_fetch method pathname = Serve mount <->
      mount = lit "/sse" /\ method <> lit "OPTIONS" /\
      (pathname = lit "/sse" \/ pathname = lit "/messages")) /\
  (worker_fetch method pathname = Reply 404 [] (TextBody (lit "Not Found")) <->
   method <> lit "OPTIONS" /\ pathname <> lit "/" /\
   pathname <> lit "/sse" /\ pathname <> lit "/messages").
Proof.
  assert (F : forall a b, str_eqb a b = false -> a <> b)
    by (intros a b E ->; now rewrite (proj2 (str_eqb_eq b b) eq_refl) in E).
  unfold worker_fetch.
  destruct (str_eqb method (lit "OPTIONS")) eqn:M;
    [apply str_eqb_eq in M|apply F in M];
    (destruct (str_eqb pathname (lit "/")) eqn:P1;
     [apply str_eqb_eq in P1|apply F in P1]);
    (destruct (str_eqb pathname (lit "/sse")) eqn:P2;
     [apply str_eqb_eq in P2|apply F in P2]);
    (destruct (str_eqb pathname (lit "/messages")) eqn:P3;
     [apply str_eqb_eq in P3|apply F in P3]);
    cbn [orb];
    try (exfalso; subst pathname; discriminate);
    (split; [intros E; try contradiction; eauto|]);
    (split; [intros mount|]); (split; [intros H|intros H]);
    try discriminate H;
    try (injection H as <-);
    try tauto.
  all: try (destruct H as (H1 & H2 & H3); subst; tauto).
  all: try (destruct H as (H1 & H2 & H3 & H4); tauto).
Qed.

Lemma worker_fetch_routes_witness :
  exists headers,
    worker_fetch (lit "OPTIONS") (lit "/no/such/path")
    = Reply 204 headers NoBody.
Proof.
  exact (proj1 (worker_fetch_routes (lit "OPTIONS") (lit "/no/such/path"))
           eq_refl).
Defined.

Lemma video_tools_send_video_ids_witness :
  exists id,
    param (lit "id")
      [(lit "key", lit "KEY");
       (lit "part", lit "snippet,statistics,contentDetails");
       (lit "id", lit "dQw4w9WgXcQ")] = Some id /\
    is_video_id id = true.
Proof.
  apply (proj1 (video_tools_send_video_ids (lit "KEY") (fun _ => lit "5")
                  (fun _ => lit "TypeError") (fun _ => lit "{}")
                  (fun _ => lit "[]") empty_upstream
                  (VObj [(lit "url",
                           VStr (lit "https://www.youtube.com/shorts/dQw4w9WgXcQ"))]))
           {| Url.href := lit "https://www.googleapis.com/youtube/v3/videos";
              Url.searchParams :=
                [(lit "key", lit "KEY");
                 (lit "part", lit "snippet,statistics,contentDetails");
                 (lit "id", lit "dQw4w9WgXcQ")] |}).
  left. vm_compute. reflexivity.
Defined.
